(** * The bootstrap installer ([install.py]) as a shallow embedding

    [install.py] is a linear pipeline of operating-system and network side
    effects.  The embedding keeps its shape:

    - the file system is a finite map from paths to nodes;
    - the host outside the file system (interpreter version, the outcome of
      each child process, of each download) is a record, [host];
    - every function of the script is a program in a small monad that threads
      the file system, records what was printed and which external operation
      was attempted, and ends by returning, by raising a Python exception or
      by [sys.exit];
    - [try]/[except] is a combinator that looks at the class of the exception.

    Asynchronous [BaseException]s (a keyboard interrupt) and argument parsing
    are outside the model: [main] starts from the parsed arguments. *)

From stdpp Require Import base option list strings gmap fin_maps pretty.
From Stdlib Require Import ZArith Lia.

Local Open Scope string_scope.

(** ** Python exceptions *)

Module Py.

(** The classes the script can meet.  All are subclasses of [Exception]. *)
Inductive exn_class : Type :=
  | CalledProcessError
  | TimeoutExpired
  | FileNotFoundError
  | FileExistsError
  | NotADirectoryError
  | IsADirectoryError
  | PermissionError
  | OSError
  | URLError
  | BadZipFile
  | ValueError.

#[global] Instance exn_class_eq_dec : EqDecision exn_class.
Proof. solve_decision. Defined.

(** An exception object: its class and [str(e)]. *)
Record exn : Type := Exn { cls : exn_class; msg : string }.

#[global] Instance exn_eq_dec : EqDecision exn.
Proof. solve_decision. Defined.

(** [issubclass(c, OSError)]. *)
Definition is_OSError (c : exn_class) : bool :=
  match c with
  | FileNotFoundError | FileExistsError | NotADirectoryError
  | IsADirectoryError | PermissionError | OSError | URLError => true
  | _ => false
  end.

(** [except (C1, C2, ...)]: the exact classes listed, no subclassing needed
    for the tuples the script uses. *)
Definition one_of (cs : list exn_class) (e : exn) : bool :=
  bool_decide (cls e ∈ cs).

(** [except Exception] and the bare [except:]. *)
Definition any_exception (e : exn) : bool := true.

(** The model's strings are the UTF-8 bytes of Python's strings. *)
Definition single_quote : Ascii.ascii := Ascii.ascii_of_nat 39.
Definition double_quote : Ascii.ascii := Ascii.ascii_of_nat 34.
Definition backslash : Ascii.ascii := Ascii.ascii_of_nat 92.

Fixpoint has_char (c : Ascii.ascii) (s : string) : bool :=
  match s with
  | EmptyString => false
  | String c' rest => Ascii.eqb c c' || has_char c rest
  end.

Definition hex_digit (n : nat) : Ascii.ascii :=
  match String.get n "0123456789abcdef" with
  | Some c => c
  | None => Ascii.ascii_of_nat 48
  end.

(** One character inside [repr(s)] that is quoted with [q]: the quote and
    the backslash are escaped; tab, newline and carriage return have their
    letters; the other control characters are written [\xhh].  Bytes from
    128 on belong to characters outside ASCII, which [repr] leaves as they
    are when they are printable; the model takes them to be. *)
Definition repr_char (q c : Ascii.ascii) : string :=
  let n := Ascii.nat_of_ascii c in
  if Ascii.eqb c q || Ascii.eqb c backslash then
    String backslash (String c EmptyString)
  else if (n =? 9)%nat then String backslash "t"
  else if (n =? 10)%nat then String backslash "n"
  else if (n =? 13)%nat then String backslash "r"
  else if (n <? 32)%nat || (n =? 127)%nat then
    String backslash
      ("x" ++ String (hex_digit (n / 16))
                     (String (hex_digit (n mod 16)) EmptyString))
  else String c EmptyString.

Fixpoint repr_chars (q : Ascii.ascii) (s : string) : string :=
  match s with
  | EmptyString => EmptyString
  | String c rest => repr_char q c ++ repr_chars q rest
  end.

(** [repr(s)]: single quotes, unless [s] holds a single quote and no double
    quote. *)
Definition repr_str (s : string) : string :=
  let q := if has_char single_quote s && negb (has_char double_quote s)
           then double_quote else single_quote in
  String q (repr_chars q s ++ String q EmptyString).

Fixpoint join (sep : string) (l : list string) : string :=
  match l with
  | [] => EmptyString
  | [x] => x
  | x :: rest => x ++ sep ++ join sep rest
  end.

(** [str] of a list of strings. *)
Definition repr_list (l : list string) : string :=
  "[" ++ join ", " (map repr_str l) ++ "]".

(** [signal.Signals(n).name], with the numbers of Linux; [None] where
    [Signals(n)] raises [ValueError]. *)
Definition signal_name (n : Z) : option string :=
  match n with
  | 1 => Some "SIGHUP" | 2 => Some "SIGINT" | 3 => Some "SIGQUIT"
  | 4 => Some "SIGILL" | 5 => Some "SIGTRAP" | 6 => Some "SIGABRT"
  | 7 => Some "SIGBUS" | 8 => Some "SIGFPE" | 9 => Some "SIGKILL"
  | 10 => Some "SIGUSR1" | 11 => Some "SIGSEGV" | 12 => Some "SIGUSR2"
  | 13 => Some "SIGPIPE" | 14 => Some "SIGALRM" | 15 => Some "SIGTERM"
  | 16 => Some "SIGSTKFLT" | 17 => Some "SIGCHLD" | 18 => Some "SIGCONT"
  | 19 => Some "SIGSTOP" | 20 => Some "SIGTSTP" | 21 => Some "SIGTTIN"
  | 22 => Some "SIGTTOU" | 23 => Some "SIGURG" | 24 => Some "SIGXCPU"
  | 25 => Some "SIGXFSZ" | 26 => Some "SIGVTALRM" | 27 => Some "SIGPROF"
  | 28 => Some "SIGWINCH" | 29 => Some "SIGIO" | 30 => Some "SIGPWR"
  | 31 => Some "SIGSYS" | 34 => Some "SIGRTMIN" | 64 => Some "SIGRTMAX"
  | _ => None
  end%Z.

(** [str(e)] of the [CalledProcessError] for command [argv] and return code
    [rc]: a negative return code is a signal. *)
Definition called_process_error (argv : list string) (rc : Z) : string :=
  if (rc <? 0)%Z then
    match signal_name (- rc) with
    | Some name =>
        "Command '" ++ repr_list argv ++ "' died with <Signals." ++ name
        ++ ": " ++ pretty (- rc)%Z ++ ">."
    | None =>
        "Command '" ++ repr_list argv ++ "' died with unknown signal "
        ++ pretty (- rc)%Z ++ "."
    end
  else
    "Command '" ++ repr_list argv ++ "' returned non-zero exit status "
    ++ pretty rc ++ ".".

(** [needle in hay] on strings. *)
Fixpoint contains (needle hay : string) : bool :=
  String.prefix needle hay ||
  match hay with
  | EmptyString => false
  | String _ rest => contains needle rest
  end.

(** A byte that continues a character of more than one byte. *)
Definition is_continuation (c : Ascii.ascii) : bool :=
  let n := Ascii.nat_of_ascii c in (128 <=? n)%nat && (n <? 192)%nat.

(** [len(s)], in characters. *)
Fixpoint char_length (s : string) : nat :=
  match s with
  | EmptyString => 0
  | String c rest =>
      (if is_continuation c then 0 else 1) + char_length rest
  end.

(** [s[:n]]: the first [n] characters. *)
Fixpoint take_str (n : nat) (s : string) : string :=
  match s with
  | EmptyString => EmptyString
  | String c rest =>
      if is_continuation c then String c (take_str n rest)
      else match n with
           | O => EmptyString
           | S k => String c (take_str k rest)
           end
  end.

(** [f"{s:<w}"]: pad with spaces on the right up to [w] characters. *)
Fixpoint spaces (n : nat) : string :=
  match n with
  | O => EmptyString
  | S k => " " ++ spaces k
  end.

Definition ljust (w : nat) (s : string) : string :=
  s ++ spaces (w - char_length s).

End Py.

(** ** Paths and the file system *)

Module FS.
Import Py.

(** A resolved absolute path: its components, innermost first, so that
    [p / name] is a cons, [p.parent] a tail and the root the empty list. *)
Definition path : Type := list string.

Definition child (p : path) (name : string) : path := name :: p.
Declare Scope path_scope.
Infix "/" := child : path_scope.
Delimit Scope path_scope with path.
Bind Scope path_scope with path.

Definition parent (p : path) : path := tail p.

(** [str(p)]. *)
Definition str (p : path) : string :=
  match p with
  | [] => "/"
  | _ => "/" ++ join "/" (rev p)
  end.

Inductive node : Type :=
  | File (content : string)
  | Dir.

#[global] Instance node_eq_dec : EqDecision node.
Proof. solve_decision. Defined.

(** The file system below the root; the root itself always is a directory. *)
Abbreviation fs := (gmap path node).

Definition stat (f : fs) (p : path) : option node :=
  match p with
  | [] => Some Dir
  | _ => f !! p
  end.

(** [p.exists()], [p.is_dir()]. *)
Definition exists_ (f : fs) (p : path) : bool :=
  match stat f p with Some _ => true | None => false end.

Definition is_dir (f : fs) (p : path) : bool :=
  match stat f p with Some Dir => true | _ => false end.

(** [k] lies in the subtree rooted at [p] ([p] itself included). *)
Definition under (p k : path) : bool := bool_decide (p `suffix_of` k).

(** [errno] and its text for the classes the file operations raise, as on
    Linux; the plain [OSError] of the model is the one for a directory that
    is not empty. *)
Definition strerror (c : exn_class) : string :=
  match c with
  | FileNotFoundError => "[Errno 2] No such file or directory"
  | PermissionError => "[Errno 13] Permission denied"
  | FileExistsError => "[Errno 17] File exists"
  | NotADirectoryError => "[Errno 20] Not a directory"
  | IsADirectoryError => "[Errno 21] Is a directory"
  | OSError => "[Errno 39] Directory not empty"
  | _ => EmptyString
  end.

(** The [OSError] of class [c] for an operation on [p], and for an operation
    from [p] to [q]; [msg] is [str(e)]. *)
Definition err (c : exn_class) (p : path) : exn :=
  Exn c (strerror c ++ ": " ++ repr_str (str p)).

Definition err2 (c : exn_class) (p q : path) : exn :=
  Exn c (strerror c ++ ": " ++ repr_str (str p) ++ " -> " ++ repr_str (str q)).

(** [os.mkdir(p)]: one level, no parents, fails when [p] exists. *)
Definition os_mkdir (p : path) (f : fs) : exn + fs :=
  match stat f p with
  | Some _ => inl (err FileExistsError p)
  | None =>
      match stat f (parent p) with
      | None => inl (err FileNotFoundError p)
      | Some (File _) => inl (err NotADirectoryError p)
      | Some Dir => inr (<[p := Dir]> f)
      end
  end.

(** [Path.mkdir(parents=False, exist_ok=True)]. *)
Definition mkdir_exist_ok (p : path) (f : fs) : exn + fs :=
  match os_mkdir p f with
  | inr f' => inr f'
  | inl e =>
      if bool_decide (cls e = FileNotFoundError) then inl e
      else if is_dir f p then inr f else inl e
  end.

(** [Path.mkdir(parents=True, exist_ok=True)], following pathlib: try
    [os.mkdir]; on [FileNotFoundError] make the parent the same way and then
    the path itself without [parents]; on any other [OSError] succeed exactly
    when the path is a directory. *)
Fixpoint mkdir_parents (p : path) (f : fs) : exn + fs :=
  match os_mkdir p f with
  | inr f' => inr f'
  | inl e =>
      if bool_decide (cls e = FileNotFoundError) then
        match p with
        | [] => inl e
        | _ :: up =>
            match mkdir_parents up f with
            | inl e' => inl e'
            | inr f1 => mkdir_exist_ok p f1
            end
        end
      else if is_dir f p then inr f else inl e
  end.

(** Opening [p] for writing and storing [c]. *)
Definition write_file (p : path) (c : string) (f : fs) : exn + fs :=
  match stat f p with
  | Some Dir => inl (err IsADirectoryError p)
  | _ =>
      match stat f (parent p) with
      | None => inl (err FileNotFoundError p)
      | Some (File _) => inl (err NotADirectoryError p)
      | Some Dir => inr (<[p := File c]> f)
      end
  end.

(** [shutil.copy(src, dst)]: into [dst / src.name] when [dst] is a
    directory, onto [dst] otherwise. *)
Definition copy (src dst : path) (f : fs) : exn + fs :=
  match stat f src with
  | None => inl (err FileNotFoundError src)
  | Some Dir => inl (err IsADirectoryError src)
  | Some (File c) =>
      match stat f dst, src with
      | Some Dir, name :: _ => write_file (dst / name) c f
      | _, _ => write_file dst c f
      end
  end.

(** [shutil.rmtree(p)]. *)
Definition rmtree (p : path) (f : fs) : exn + fs :=
  match stat f p with
  | None => inl (err FileNotFoundError p)
  | Some (File _) => inl (err NotADirectoryError p)
  | Some Dir => inr (filter (λ kv, under p kv.1 = false) f)
  end.

(** Moving the subtree at [src] to [dst]. *)
Definition rebase (src dst k : path) : path :=
  if under src k then (take (length k - length src) k ++ dst)%list else k.

Definition move_tree (src dst : path) (f : fs) : fs :=
  list_to_map (map (λ kv, (rebase src dst kv.1, kv.2)) (map_to_list f)).

Definition has_entries (f : fs) (p : path) : bool :=
  bool_decide (Exists (λ kv, kv.1 ≠ p ∧ under p kv.1 = true) (map_to_list f)).

(** [Path.rename(src, dst)] ([os.rename] on POSIX). *)
Definition rename (src dst : path) (f : fs) : exn + fs :=
  match stat f src with
  | None => inl (err2 FileNotFoundError src dst)
  | Some s =>
      match stat f (parent dst) with
      | None => inl (err2 FileNotFoundError src dst)
      | Some (File _) => inl (err2 NotADirectoryError src dst)
      | Some Dir =>
          match s, stat f dst with
          | _, None => inr (move_tree src dst f)
          | File _, Some (File _) => inr (move_tree src dst f)
          | File _, Some Dir => inl (err2 IsADirectoryError src dst)
          | Dir, Some (File _) => inl (err2 NotADirectoryError src dst)
          | Dir, Some Dir =>
              if has_entries f dst then inl (err2 OSError src dst)
              else inr (move_tree src dst f)
          end
      end
  end.

(** One member of a zip archive: its path inside the archive and what it is. *)
Definition member : Type := path * node.

(** [ZipFile._extract_member]: make the upper directories when they do not
    exist, then make the directory or write the file. *)
Definition extract_member (dest : path) (m : member) (f : fs) : exn + fs :=
  let target : path := (m.1 ++ dest)%list in
  let upper := parent target in
  match (if exists_ f upper then inr f else mkdir_parents upper f) with
  | inl e => inl e
  | inr f1 =>
      match m.2 with
      | Dir => if is_dir f1 target then inr f1 else os_mkdir target f1
      | File c => write_file target c f1
      end
  end.

(** [ZipFile.extractall(dest)]. *)
Fixpoint extractall (ms : list member) (dest : path) (f : fs) : exn + fs :=
  match ms with
  | [] => inr f
  | m :: rest =>
      match extract_member dest m f with
      | inl e => inl e
      | inr f1 => extractall rest dest f1
      end
  end.

(** What a member that cannot be extracted leaves: the upper directories
    made for it. *)
Definition extract_member_left (dest : path) (m : member) (f : fs) : fs :=
  let upper := parent (m.1 ++ dest)%list in
  match (if exists_ f upper then inr f else mkdir_parents upper f) with
  | inl _ => f
  | inr f1 => f1
  end.

(** What [extractall] leaves when it raises: the members before the one
    that failed stay. *)
Fixpoint extractall_left (ms : list member) (dest : path) (f : fs) : fs :=
  match ms with
  | [] => f
  | m :: rest =>
      match extract_member dest m f with
      | inl _ => extract_member_left dest m f
      | inr f1 => extractall_left rest dest f1
      end
  end.

End FS.

(** ** Facts about directory creation and copying *)

Module FSFacts.
Import Py FS.

Lemma stat_cons (f : fs) (name : string) (p : path) : stat f (name :: p) = f !! (name :: p).
Proof. reflexivity. Qed.

Lemma is_dir_lookup (f : fs) (name : string) (p : path) :
  is_dir f (name :: p) = true ↔ f !! (name :: p) = Some Dir.
Proof.
  unfold is_dir. rewrite stat_cons.
  destruct (f !! (name :: p)) as [[c|]|]; naive_solver.
Qed.

Lemma exists_lookup (f : fs) (name : string) (p : path) :
  exists_ f (name :: p) = true ↔ is_Some (f !! (name :: p)).
Proof.
  unfold exists_. rewrite stat_cons.
  destruct (f !! (name :: p)); split; (done || by intros [? ?] || eauto).
Qed.

(** [os.mkdir] succeeds only on a path that does not exist, and adds it. *)
Lemma os_mkdir_inr (p : path) (f f' : fs) :
  os_mkdir p f = inr f' → f !! p = None ∧ f' = <[p := Dir]> f.
Proof.
  unfold os_mkdir. destruct p as [|name up].
  - simpl. done.
  - rewrite stat_cons. destruct (f !! (name :: up)) eqn:E; [done|].
    destruct (stat f (parent (name :: up))) as [[c|]|]; [done| |done].
    by intros [= <-].
Qed.

Lemma os_mkdir_is_dir (p : path) (f f' : fs) :
  os_mkdir p f = inr f' → is_dir f' p = true.
Proof.
  intros H. destruct p as [|name up]; [done|].
  apply os_mkdir_inr in H as [_ ->].
  apply is_dir_lookup, lookup_insert_eq.
Qed.

Lemma os_mkdir_subseteq (p : path) (f f' : fs) : os_mkdir p f = inr f' → f ⊆ f'.
Proof. intros [Hn ->]%os_mkdir_inr. by apply insert_subseteq. Qed.

Lemma mkdir_exist_ok_inr (p : path) (f f' : fs) :
  mkdir_exist_ok p f = inr f' → f ⊆ f' ∧ is_dir f' p = true.
Proof.
  unfold mkdir_exist_ok. destruct (os_mkdir p f) as [e|f1] eqn:E.
  - destruct (bool_decide (cls e = FileNotFoundError)); [done|].
    destruct (is_dir f p) eqn:Hd; [|done]. by intros [= <-].
  - intros [= <-]. eauto using os_mkdir_subseteq, os_mkdir_is_dir.
Qed.

(** [mkdir(parents=True, exist_ok=True)], when it succeeds, only adds
    entries and leaves a directory at the path. *)
Lemma mkdir_parents_inr (p : path) : ∀ (f f' : fs),
  mkdir_parents p f = inr f' → f ⊆ f' ∧ is_dir f' p = true.
Proof.
  induction p as [|name up IH]; intros f f'; cbn [mkdir_parents].
  - destruct (os_mkdir [] f) as [e|f1] eqn:E.
    + destruct (bool_decide (cls e = FileNotFoundError)); [done|].
      destruct (is_dir f []) eqn:Hd; [|done]. by intros [= <-].
    + intros [= <-]. eauto using os_mkdir_subseteq, os_mkdir_is_dir.
  - destruct (os_mkdir (name :: up) f) as [e|f1] eqn:E.
    + destruct (bool_decide (cls e = FileNotFoundError)).
      * destruct (mkdir_parents up f) as [e'|f1] eqn:E1; [done|].
        apply IH in E1 as [Hsub _].
        intros [Hsub' Hd]%mkdir_exist_ok_inr. split; [|done].
        by etrans.
      * destruct (is_dir f (name :: up)) eqn:Hd; [|done]. by intros [= <-].
    + intros [= <-]. eauto using os_mkdir_subseteq, os_mkdir_is_dir.
Qed.

(** On a path that is a directory it does nothing. *)
Lemma mkdir_parents_existing (p : path) (f : fs) :
  is_dir f p = true → mkdir_parents p f = inr f.
Proof.
  intros Hd. assert (os_mkdir p f = inl (err FileExistsError p)) as E.
  { unfold os_mkdir. unfold is_dir in Hd. by destruct (stat f p). }
  destruct p; cbn [mkdir_parents]; rewrite E;
    cbn [err cls bool_decide decide_rel]; by rewrite Hd.
Qed.

(** A copy onto a path that does not exist adds a file there, nothing else. *)
Lemma copy_inr (src : path) (name : string) (p : path) (f f' : fs) :
  f !! (name :: p) = None →
  copy src (name :: p) f = inr f' →
  ∃ c, f' = <[name :: p := File c]> f.
Proof.
  intros Hn. unfold copy. destruct (stat f src) as [[c|]|]; [|done..].
  rewrite stat_cons, Hn. unfold write_file. rewrite stat_cons, Hn.
  destruct (stat f (parent (name :: p))) as [[c'|]|]; [done| |done].
  intros [= <-]. by exists c.
Qed.

End FSFacts.

(** ** The host outside the file system, and the effects of a run *)

Module Host.
Import Py FS.

(** What [subprocess.run] meets: the child ran to completion, or the call
    itself raised (no such program, or [TimeoutExpired] when a timeout was
    given and the child was stopped). *)
Inductive proc_result : Type :=
  | Completed (returncode : Z) (stdout : string)
  | Fails (e : exn).

(** What [urlopen] of the local service meets. *)
Inductive http_result : Type :=
  | Status (code : Z)
  | Unreachable (e : exn).

(** What [urlopen(...).read()] of the archive meets: an exception, or a body
    that is a zip archive with these members or is not a zip archive at all
    ([ZipFile] finds no end-of-central-directory record).  Archives that are
    damaged in another way are not modelled. *)
Inductive download_result : Type :=
  | NoBody (e : exn)
  | Body (zip : option (list member)).

(** The host of one run.  A child process can write to the file system; what
    it does there is the host's, as its exit status is. *)
Record host : Type := Host {
  version_info : Z * Z * Z;          (* sys.version_info: major, minor, micro *)
  platform : string;                 (* sys.platform *)
  executable : string;               (* sys.executable *)
  git_version : proc_result;         (* git --version *)
  git_clone : proc_result;           (* git clone REPO_URL target *)
  repo_tree : list member;           (* the work tree a successful clone leaves *)
  clone_leftover : path → fs → fs;   (* what a clone that fails leaves behind *)
  git_pull : proc_result;            (* git pull, in the target *)
  pull_effect : path → fs → fs;      (* what that pull does to the files *)
  archive : download_result;         (* the download of REPO_ZIP *)
  pip_install : proc_result;         (* python -m pip install -r ... *)
  pip_effect : path → fs → fs;       (* what pip does to the files *)
  ollama_tags : http_result;         (* GET http://localhost:11434/api/tags *)
  me_py : proc_result;               (* python me.py, in the target *)
  me_py_effect : path → fs → fs;     (* what the script does to the files *)
  popen : option exn                 (* subprocess.Popen of the daemon *)
}.

(** The visible and external actions of a run, in the order they happen. *)
Inductive event : Type :=
  | Print (s : string)
  | Run (argv : list string) (cwd : option path) (timeout : option Z)
  | Popen (argv : list string) (shell : bool) (cwd : path) (new_session : bool)
  | Urlopen (url : string) (timeout : Z)
  | Extractall (dest : path)
  | Mkdir (p : path)
  | Copy (src dst : path)
  | Rmtree (p : path)
  | Rename (src dst : path).

#[global] Instance event_eq_dec : EqDecision event.
Proof. solve_decision. Defined.

(** How a piece of the script ends. *)
Inductive completion (A : Type) : Type :=
  | Return (a : A)
  | Raise (e : exn)
  | Exit (code : Z).
Arguments Return {A} a.
Arguments Raise {A} e.
Arguments Exit {A} code.

Record result (A : Type) : Type := Result {
  log : list event;
  final : fs;
  val : completion A
}.
Arguments Result {A} log final val.
Arguments log {A} r.
Arguments final {A} r.
Arguments val {A} r.

(** A piece of the script: from the file system it starts in to what it did. *)
Definition M (A : Type) : Type := fs → result A.

Definition ret {A} (a : A) : M A := λ f, Result [] f (Return a).

Definition bind {A B} (m : M A) (k : A → M B) : M B := λ f,
  let r := m f in
  match val r with
  | Return a => let r' := k a (final r) in
                Result (log r ++ log r') (final r') (val r')
  | Raise e => Result (log r) (final r) (Raise e)
  | Exit c => Result (log r) (final r) (Exit c)
  end.

#[global] Instance M_ret : MRet M := @ret.
#[global] Instance M_bind : MBind M := λ A B k m, bind m k.

Definition emit (ev : event) : M unit := λ f, Result [ev] f (Return tt).
Definition print (s : string) : M unit := emit (Print s).
Definition raise {A} (e : exn) : M A := λ f, Result [] f (Raise e).
Definition sys_exit {A} (code : Z) : M A := λ f, Result [] f (Exit code).
Definition gets {A} (q : fs → A) : M A := λ f, Result [] f (Return (q f)).
Definition modify (g : fs → fs) : M unit := λ f, Result [] (g f) (Return tt).

(** A file-system operation that raises or changes the file system. *)
Definition fs_op (ev : event) (op : fs → exn + fs) : M unit := λ f,
  match op f with
  | inl e => Result [ev] f (Raise e)
  | inr f' => Result [ev] f' (Return tt)
  end.

(** An operation of several steps: when it raises, what it did before stays. *)
Definition fs_op_leaving (ev : event) (op : fs → exn + fs) (left : fs → fs)
    : M unit := λ f,
  match op f with
  | inl e => Result [ev] (left f) (Raise e)
  | inr f' => Result [ev] f' (Return tt)
  end.

(** [try: body  except <handles> as e: handler e].  [sys.exit] inside the body
    is not an [Exception] and passes through. *)
Definition try_except {A} (body : M A) (handles : exn → bool)
    (handler : exn → M A) : M A := λ f,
  let r := body f in
  match val r with
  | Raise e =>
      if handles e then
        let r' := handler e (final r) in
        Result (log r ++ log r') (final r') (val r')
      else r
  | _ => r
  end.

(** [for x in xs: body x]. *)
Fixpoint for_each {A} (xs : list A) (body : A → M unit) : M unit :=
  match xs with
  | [] => ret tt
  | x :: rest => body x;; for_each rest body
  end.

(** The call was given a timeout and raised [TimeoutExpired]: the child was
    started, and stopped when the time was over. *)
Definition timed_out (timeout : option Z) (e : exn) : bool :=
  match timeout with
  | Some _ => bool_decide (cls e = TimeoutExpired)
  | None => false
  end.

(** [subprocess.run(argv, check=..., cwd=..., timeout=...)] against the
    outcome the host has for it.  A child that ran has done [effect] to the
    files: one that ran to completion, whatever its status, and one that was
    stopped by the timeout. *)
Definition subprocess_run (argv : list string) (check : bool)
    (cwd : option path) (timeout : option Z) (o : proc_result)
    (effect : fs → fs) : M (Z * string) :=
  emit (Run argv cwd timeout);;
  match o with
  | Fails e =>
      (if timed_out timeout e then modify effect else mret tt);;
      raise e
  | Completed rc out =>
      modify effect;;
      if check && negb (rc =? 0)%Z then
        raise (Exn CalledProcessError (called_process_error argv rc))
      else mret (rc, out)
  end.

Definition path_mkdir (p : path) : M unit := fs_op (Mkdir p) (mkdir_parents p).
Definition shutil_copy (src dst : path) : M unit := fs_op (Copy src dst) (copy src dst).
Definition shutil_rmtree (p : path) : M unit := fs_op (Rmtree p) (rmtree p).
Definition path_rename (src dst : path) : M unit := fs_op (Rename src dst) (rename src dst).

End Host.

(** ** The script *)

Module Installer.
Import Py FS Host.

(** Characters a string literal cannot hold as they are. *)
Definition nl : string := String (Ascii.ascii_of_nat 10) EmptyString.
Definition dq : string := String double_quote EmptyString.

(** Configuration *)
Definition REPO_URL : string := "https://github.com/wetwi/claude-agent".
Definition REPO_ZIP : string := REPO_URL ++ "/archive/refs/heads/main.zip".
Definition DEFAULT_DIR : string := "claude-agent".

Definition banner : string :=
  nl ++
  "    ╔═══════════════════════════════════════╗" ++ nl ++
  "    ║       CLAUDE BOOTSTRAP INSTALLER      ║" ++ nl ++
  "    ║   Persistent AI with Voice & Vision   ║" ++ nl ++
  "    ╚═══════════════════════════════════════╝" ++ nl ++
  "    ".

Definition print_banner : M unit := print banner.

Section WithHost.
Context (h : host).

Definition major : Z := (version_info h).1.1.
Definition minor : Z := (version_info h).1.2.
Definition micro : Z := (version_info h).2.

(** Ensure Python 3.10+ is available. *)
Definition check_python : M bool :=
  if (major <? 3)%Z || ((major =? 3)%Z && (minor <? 10)%Z) then
    print ("[ERROR] Python 3.10+ required. You have "
           ++ pretty major ++ "." ++ pretty minor);;
    mret false
  else
    print ("[OK] Python " ++ pretty major ++ "." ++ pretty minor ++ "."
           ++ pretty micro);;
    mret true.

(** Check if git is available. *)
Definition check_git : M bool :=
  try_except
    (subprocess_run ["git"; "--version"] true None None (git_version h)
       (λ f, f);;
     mret true)
    (one_of [CalledProcessError; FileNotFoundError])
    (λ _, mret false).

(** The work tree a clone leaves at [target]. *)
Definition checkout (target : path) (tree : list member) (f : fs) : fs :=
  foldl (λ acc (m : member), <[(m.1 ++ target)%list := m.2]> acc)
        (<[target := Dir]> f) tree.

(** What [git clone] into [target] does to the files: the work tree when it
    ends with status 0, what the host says it leaves behind otherwise. *)
Definition clone_effect (target : path) (f : fs) : fs :=
  match git_clone h with
  | Completed rc _ =>
      if (rc =? 0)%Z then checkout target (repo_tree h) f
      else clone_leftover h target f
  | Fails _ => f
  end.

(** Clone the repo using git. *)
Definition clone_repo (target_dir : path) : M bool :=
  print ("[...] Cloning " ++ REPO_URL);;
  try_except
    (subprocess_run ["git"; "clone"; REPO_URL; str target_dir] true None None
       (git_clone h) (clone_effect target_dir);;
     print "[OK] Repository cloned";;
     mret true)
    (one_of [CalledProcessError])
    (λ e, print ("[ERROR] Git clone failed: " ++ msg e);; mret false).

(** [urlopen(url, timeout=t)] and [response.read()] of the archive. *)
Definition urlopen_read (url : string) (t : Z) : M (option (list member)) :=
  emit (Urlopen url t);;
  match archive h with
  | NoBody e => raise e
  | Body z => mret z
  end.

(** [ZipFile(zip_data)] and [zf.extractall(dest)]. *)
Definition zip_extractall (z : option (list member)) (dest : path) : M unit :=
  match z with
  | None => raise (Exn BadZipFile "File is not a zip file")
  | Some ms =>
      fs_op_leaving (Extractall dest) (extractall ms dest)
        (extractall_left ms dest)
  end.

(** Download and extract repo as zip (fallback if no git). *)
Definition download_zip (target_dir : path) : M bool :=
  print ("[...] Downloading " ++ REPO_ZIP);;
  try_except
    (zip_data ← urlopen_read REPO_ZIP 30;
     print "[...] Extracting...";;
     zip_extractall zip_data (parent target_dir);;
     let extracted := (parent target_dir / "claude-agent-main")%path in
     ex ← gets (λ f, exists_ f extracted);
     (if ex : bool then
        tex ← gets (λ f, exists_ f target_dir);
        (if tex : bool then shutil_rmtree target_dir else mret tt);;
        path_rename extracted target_dir
      else mret tt);;
     print "[OK] Downloaded and extracted";;
     mret true)
    any_exception
    (λ e, print ("[ERROR] Download failed: " ++ msg e);; mret false).

Definition required_dirs (target_dir : path) : list path :=
  [ (target_dir / "vault")%path;
    (target_dir / "vault" / "Daemon Thoughts")%path;
    (target_dir / "outbox")%path;
    (target_dir / "memory")%path;
    (target_dir / "snapshots")%path ].

(** Create required directories. *)
Definition setup_directories (target_dir : path) : M unit :=
  for_each (required_dirs target_dir) path_mkdir;;
  print "[OK] Directories created".

(** Copy example config if no config exists. *)
Definition create_config (target_dir : path) : M unit :=
  let config := (target_dir / "config.py")%path in
  let example := (target_dir / "config.example.py")%path in
  c ← gets (λ f, negb (exists_ f config) && exists_ f example);
  if c : bool then
    shutil_copy example config;;
    print "[OK] Config created from example"
  else
    c' ← gets (λ f, exists_ f config);
    if c' : bool then print "[OK] Config already exists" else mret tt.

(** Install Python dependencies. *)
Definition install_dependencies (target_dir : path) : M bool :=
  let requirements := (target_dir / "requirements.txt")%path in
  r ← gets (λ f, exists_ f requirements);
  if negb r then
    print "[WARN] No requirements.txt found";;
    mret true
  else
    print "[...] Installing dependencies...";;
    try_except
      (subprocess_run
         [executable h; "-m"; "pip"; "install"; "-r"; str requirements]
         true None None (pip_install h) (pip_effect h target_dir);;
       print "[OK] Dependencies installed";;
       mret true)
      (one_of [CalledProcessError])
      (λ e, print ("[ERROR] pip install failed: " ++ msg e);; mret false).

(** [urlopen(url, timeout=t)] of the local service; gives [r.status]. *)
Definition urlopen_status (url : string) (t : Z) : M Z :=
  emit (Urlopen url t);;
  match ollama_tags h with
  | Unreachable e => raise e
  | Status c => mret c
  end.

(** Check if Ollama is running. *)
Definition check_ollama : M bool :=
  found ← try_except
    (status ← urlopen_status "http://localhost:11434/api/tags" 2;
     if (status =? 200)%Z then
       print "[OK] Ollama is running";;
       mret true
     else mret false)
    any_exception
    (λ _, mret false);
  if found : bool then mret true
  else
    print "[INFO] Ollama not detected (optional - for local AI thinking)";;
    print "       Install from: https://ollama.ai";;
    mret false.

(** Quick test of the installation. *)
Definition test_install (target_dir : path) : M bool :=
  print (nl ++ "[...] Testing installation...");;
  try_except
    (r ← subprocess_run
           [executable h; str (target_dir / "me.py")%path]
           false (Some target_dir) (Some 10%Z) (me_py h)
           (me_py_effect h target_dir);
     if contains "SYSTEM TEST" r.2 || (r.1 =? 0)%Z then
       print "[OK] Installation test passed";;
       mret true
     else
       print ("[WARN] Test output: " ++ take_str 200 r.2);;
       mret true)
    any_exception
    (λ e, print ("[WARN] Test failed: " ++ msg e);; mret false).

(** [subprocess.Popen(argv, shell=..., cwd=..., start_new_session=...)]. *)
Definition subprocess_popen (argv : list string) (shell : bool) (cwd : path)
    (new_session : bool) : M unit :=
  emit (Popen argv shell cwd new_session);;
  match popen h with
  | Some e => raise e
  | None => mret tt
  end.

(** Start the daemon process. *)
Definition start_daemon (target_dir : path) : M bool :=
  print (nl ++ "[...] Starting daemon...");;
  let daemon := (target_dir / "daemon.py")%path in
  d ← gets (λ f, exists_ f daemon);
  if negb d then
    print "[ERROR] daemon.py not found";;
    mret false
  else
    (if bool_decide (platform h = "win32") then
       subprocess_popen ["start"; "cmd"; "/k"; executable h; str daemon]
         true target_dir false
     else
       subprocess_popen [executable h; str daemon] false target_dir true);;
    print "[OK] Daemon started";;
    mret true.

(** The parsed command line; [dir] is the resolved target. *)
Record args : Type := Args { dir : path; start : bool; no_deps : bool }.

Definition summary (target_dir : path) : string :=
  nl ++
  "╔═══════════════════════════════════════════════════════╗" ++ nl ++
  "║                 INSTALLATION COMPLETE                 ║" ++ nl ++
  "╠═══════════════════════════════════════════════════════╣" ++ nl ++
  "║                                                       ║" ++ nl ++
  "║  To use Claude:                                       ║" ++ nl ++
  "║    cd " ++ ljust 43 (str target_dir) ++ " ║" ++ nl ++
  "║    python me.py                 # Test capabilities   ║" ++ nl ++
  "║    python daemon.py             # Start daemon        ║" ++ nl ++
  "║                                                       ║" ++ nl ++
  "║  In Python:                                           ║" ++ nl ++
  "║    from me import me                                  ║" ++ nl ++
  "║    me.speak(" ++ dq ++ "Hello!" ++ dq ++ ")                                 ║" ++ nl ++
  "║    me.see()                                           ║" ++ nl ++
  "║    me.think(" ++ dq ++ "What should I do?" ++ dq ++ ")                      ║" ++ nl ++
  "║                                                       ║" ++ nl ++
  "║  Edit config.py to customize voice, models, etc.     ║" ++ nl ++
  "║  Edit vault/About Me.md to define your Claude.       ║" ++ nl ++
  "║                                                       ║" ++ nl ++
  "╚═══════════════════════════════════════════════════════╝" ++ nl.

(** [git pull] in the target; its exit status is not looked at. *)
Definition git_pull_in (target_dir : path) : M unit :=
  subprocess_run ["git"; "pull"] false (Some target_dir) None (git_pull h)
    (pull_effect h target_dir);;
  mret tt.

Definition main (a : args) : M unit :=
  print_banner;;
  (* Check Python version *)
  ok ← check_python;
  if negb ok then sys_exit 1%Z
  else
    let target_dir := dir a in
    print ("[INFO] Installing to: " ++ str target_dir ++ nl);;
    (* Get the code *)
    installed ← gets (λ f, exists_ f target_dir
                            && exists_ f (target_dir / "me.py")%path);
    (if installed : bool then
       print "[OK] Claude already installed, updating...";;
       g ← check_git;
       dotgit ← gets (λ f, exists_ f (target_dir / ".git")%path);
       if g && dotgit then git_pull_in target_dir else mret tt
     else
       g ← check_git;
       if g : bool then
         cloned ← clone_repo target_dir;
         if negb cloned then
           print "[INFO] Falling back to zip download...";;
           z ← download_zip target_dir;
           if negb z then sys_exit 1%Z else mret tt
         else mret tt
       else
         print "[INFO] Git not found, using zip download...";;
         z ← download_zip target_dir;
         if negb z then sys_exit 1%Z else mret tt);;
    (* Setup *)
    setup_directories target_dir;;
    create_config target_dir;;
    (* Dependencies *)
    (if negb (no_deps a) then install_dependencies target_dir;; mret tt
     else mret tt);;
    (* Check Ollama *)
    check_ollama;;
    (* Test *)
    test_install target_dir;;
    (* Start daemon if requested *)
    (if start a then start_daemon target_dir;; mret tt else mret tt);;
    (* Success message *)
    print (summary target_dir).

End WithHost.

(** The exit status of the process: [sys.exit(c)] gives [c], an uncaught
    exception prints a traceback and gives 1, falling off [main] gives 0. *)
Definition exit_status {A} (r : result A) : Z :=
  match val r with
  | Return _ => 0%Z
  | Raise _ => 1%Z
  | Exit c => c
  end.

End Installer.

(** ** Reasoning about pieces of the script *)

Module Logic.
Import Py FS FSFacts Host Installer.

(** [l] happened before what [r] records. *)
Definition prepend {A} (l : list event) (r : result A) : result A :=
  Result (l ++ log r) (final r) (val r).

Lemma prepend_nil {A} (r : result A) : prepend [] r = r.
Proof. by destruct r. Qed.

Lemma prepend_prepend {A} l1 l2 (r : result A) :
  prepend l1 (prepend l2 r) = prepend (l1 ++ l2) r.
Proof. unfold prepend; simpl. by rewrite app_assoc. Qed.

Lemma bind_unfold {A B} (m : M A) (k : A → M B) f :
  (m ≫= k) f =
  match val (m f) with
  | Return a => prepend (log (m f)) (k a (final (m f)))
  | Raise e => Result (log (m f)) (final (m f)) (Raise e)
  | Exit c => Result (log (m f)) (final (m f)) (Exit c)
  end.
Proof. reflexivity. Qed.

Lemma bind_assoc {A B C} (m : M A) (k : A → M B) (k' : B → M C) f :
  ((m ≫= k) ≫= k') f = (m ≫= (λ x, k x ≫= k')) f.
Proof.
  rewrite !bind_unfold.
  destruct (m f) as [l1 f1 [a|e|c]]; simpl; try done.
  rewrite !bind_unfold.
  destruct (k a f1) as [l2 f2 [b|e|c]]; simpl; try done.
  unfold prepend; simpl. by rewrite app_assoc.
Qed.

Lemma bind_ext {A B} (m : M A) (k k' : A → M B) f :
  (∀ a f', k a f' = k' a f') → (m ≫= k) f = (m ≫= k') f.
Proof.
  intros Hk. rewrite !bind_unfold. destruct (val (m f)); [|done..].
  by rewrite Hk.
Qed.

Lemma bind_print {B} s (k : unit → M B) f :
  (print s ≫= k) f = prepend [Print s] (k tt f).
Proof. reflexivity. Qed.

Lemma bind_gets {A B : Type} (q : fs → A) (k : A → M B) f :
  (gets q ≫= k) f = k (q f) f.
Proof. rewrite bind_unfold. simpl. apply prepend_nil. Qed.

(** How a sequence ends, from how its parts end. *)
Lemma bind_Return {A B} (m : M A) (k : A → M B) f b :
  val ((m ≫= k) f) = Return b →
  ∃ a, val (m f) = Return a ∧ val (k a (final (m f))) = Return b ∧
       final ((m ≫= k) f) = final (k a (final (m f))) ∧
       log ((m ≫= k) f) = (log (m f) ++ log (k a (final (m f))))%list.
Proof.
  rewrite bind_unfold. destruct (m f) as [l1 f1 [a|e|c]]; simpl; try done.
  intros Hk. by exists a.
Qed.

Lemma bind_Exit {A B} (m : M A) (k : A → M B) f c :
  val ((m ≫= k) f) = Exit c →
  (val (m f) = Exit c ∧ log ((m ≫= k) f) = log (m f)) ∨
  (∃ a, val (m f) = Return a ∧ val (k a (final (m f))) = Exit c).
Proof.
  rewrite bind_unfold. destruct (m f) as [l1 f1 [a|e|c']]; simpl; try done.
  - intros Hk. right. by exists a.
  - intros [= ->]. by left.
Qed.

(** *** Pieces that never call [sys.exit] *)

Definition never_exits {A} (m : M A) : Prop := ∀ f c, val (m f) ≠ Exit c.

Lemma never_exits_ret {A} (a : A) : never_exits (mret a).
Proof. by intros f c. Qed.

Lemma never_exits_emit ev : never_exits (emit ev).
Proof. by intros f c. Qed.

Lemma never_exits_print s : never_exits (print s).
Proof. by intros f c. Qed.

Lemma never_exits_gets {A} (q : fs → A) : never_exits (gets q).
Proof. by intros f c. Qed.

Lemma never_exits_modify g : never_exits (modify g).
Proof. by intros f c. Qed.

Lemma never_exits_raise {A} e : never_exits (@raise A e).
Proof. by intros f c. Qed.

Lemma never_exits_fs_op ev op : never_exits (fs_op ev op).
Proof. intros f c. unfold fs_op. by destruct (op f). Qed.

Lemma never_exits_fs_op_leaving ev op left :
  never_exits (fs_op_leaving ev op left).
Proof. intros f c. unfold fs_op_leaving. by destruct (op f). Qed.

Lemma never_exits_bind {A B} (m : M A) (k : A → M B) :
  never_exits m → (∀ a, never_exits (k a)) → never_exits (m ≫= k).
Proof.
  intros Hm Hk f c H. apply bind_Exit in H as [[H _]|(a & _ & H)].
  - by apply Hm in H.
  - by apply Hk in H.
Qed.

Lemma never_exits_try {A} (body : M A) handles handler :
  never_exits body → (∀ e, never_exits (handler e)) →
  never_exits (try_except body handles handler).
Proof.
  intros Hb Hh f c. unfold try_except. specialize (Hb f).
  destruct (body f) as [l f' [a|e|c']]; simpl in *; try done.
  destruct (handles e); simpl; [apply Hh | done].
Qed.

Lemma never_exits_if {A} (b : bool) (m1 m2 : M A) :
  never_exits m1 → never_exits m2 → never_exits (if b then m1 else m2).
Proof. by destruct b. Qed.

Lemma never_exits_for_each {A} (xs : list A) body :
  (∀ x, never_exits (body x)) → never_exits (for_each xs body).
Proof.
  intros Hb. induction xs as [|x xs IH]; simpl.
  - apply never_exits_ret.
  - apply (never_exits_bind (body x)); auto.
Qed.

Lemma never_exits_run argv check cwd t o g :
  never_exits (subprocess_run argv check cwd t o g).
Proof.
  intros f c. unfold subprocess_run.
  destruct o as [rc out|e];
    [destruct (check && negb (rc =? 0)%Z)|destruct (timed_out _ _)]; done.
Qed.

Create HintDb prog discriminated.
#[export] Hint Resolve never_exits_ret never_exits_emit never_exits_print
  never_exits_gets never_exits_modify never_exits_raise never_exits_fs_op
  never_exits_fs_op_leaving never_exits_try never_exits_if never_exits_for_each never_exits_run : prog.

(** *** Pieces that always return: no exception leaves them, and no exit *)

Definition returns {A} (m : M A) : Prop := ∀ f, ∃ a, val (m f) = Return a.

Lemma returns_ret {A} (a : A) : returns (mret a).
Proof. intros f. by exists a. Qed.

Lemma returns_emit ev : returns (emit ev).
Proof. intros f. by exists tt. Qed.

Lemma returns_print s : returns (print s).
Proof. intros f. by exists tt. Qed.

Lemma returns_gets {A} (q : fs → A) : returns (gets q).
Proof. intros f. by exists (q f). Qed.

Lemma returns_bind {A B} (m : M A) (k : A → M B) :
  returns m → (∀ a, returns (k a)) → returns (m ≫= k).
Proof.
  intros Hm Hk f. rewrite bind_unfold. destruct (Hm f) as [a Ha].
  rewrite Ha; simpl. apply Hk.
Qed.

Lemma returns_try_any {A} (body : M A) handler :
  never_exits body → (∀ e, returns (handler e)) →
  returns (try_except body any_exception handler).
Proof.
  intros Hb Hh f. unfold try_except. specialize (Hb f).
  destruct (body f) as [l f' [a|e|c]]; simpl in *.
  - by exists a.
  - apply Hh.
  - by destruct (Hb c).
Qed.

Lemma returns_if {A} (b : bool) (m1 m2 : M A) :
  returns m1 → returns m2 → returns (if b then m1 else m2).
Proof. by destruct b. Qed.

Lemma returns_never_exits {A} (m : M A) : returns m → never_exits m.
Proof. intros Hm f c E. destruct (Hm f) as [a Ha]. congruence. Qed.

(** *** What a piece logs *)

Definition logs {A} (P : event → Prop) (m : M A) : Prop :=
  ∀ f, Forall P (log (m f)).

Lemma logs_ret {A} (P : event → Prop) (a : A) : logs P (mret a).
Proof. intros f. constructor. Qed.

Lemma logs_emit (P : event → Prop) ev : P ev → logs P (emit ev).
Proof. intros H f. by repeat constructor. Qed.

Lemma logs_print (P : event → Prop) s : P (Print s) → logs P (print s).
Proof. apply logs_emit. Qed.

Lemma logs_gets {A} (P : event → Prop) (q : fs → A) : logs P (gets q).
Proof. intros f. constructor. Qed.

Lemma logs_modify (P : event → Prop) g : logs P (modify g).
Proof. intros f. constructor. Qed.

Lemma logs_raise {A} (P : event → Prop) e : logs P (@raise A e).
Proof. intros f. constructor. Qed.

Lemma logs_sys_exit {A} (P : event → Prop) c : logs P (@sys_exit A c).
Proof. intros f. constructor. Qed.

Lemma logs_fs_op (P : event → Prop) ev op : P ev → logs P (fs_op ev op).
Proof. intros H f. unfold fs_op. destruct (op f); by repeat constructor. Qed.

Lemma logs_fs_op_leaving (P : event → Prop) ev op left :
  P ev → logs P (fs_op_leaving ev op left).
Proof.
  intros H f. unfold fs_op_leaving. destruct (op f); by repeat constructor.
Qed.

Lemma logs_bind {A B} (P : event → Prop) (m : M A) (k : A → M B) :
  logs P m → (∀ a, logs P (k a)) → logs P (m ≫= k).
Proof.
  intros Hm Hk f. rewrite bind_unfold. specialize (Hm f).
  destruct (m f) as [l f' [a|e|c]]; simpl in *; try done.
  apply Forall_app; split; [done | apply Hk].
Qed.

Lemma logs_try {A} (P : event → Prop) (body : M A) handles handler :
  logs P body → (∀ e, logs P (handler e)) →
  logs P (try_except body handles handler).
Proof.
  intros Hb Hh f. unfold try_except. specialize (Hb f).
  destruct (body f) as [l f' [a|e|c]]; simpl in *; try done.
  destruct (handles e); simpl; [|done].
  apply Forall_app; split; [done | apply Hh].
Qed.

Lemma logs_if {A} (P : event → Prop) (b : bool) (m1 m2 : M A) :
  logs P m1 → logs P m2 → logs P (if b then m1 else m2).
Proof. by destruct b. Qed.

Lemma logs_for_each {A} (P : event → Prop) (xs : list A) body :
  (∀ x, logs P (body x)) → logs P (for_each xs body).
Proof.
  intros Hb. induction xs as [|x xs IH]; simpl.
  - apply logs_ret.
  - apply (logs_bind P (body x)); auto.
Qed.

Lemma logs_run (P : event → Prop) argv check cwd t o g :
  P (Run argv cwd t) → logs P (subprocess_run argv check cwd t o g).
Proof.
  intros H. unfold subprocess_run. apply logs_bind; [by apply logs_emit|].
  intros _. destruct o as [rc out|e].
  - apply logs_bind; [apply logs_modify|]. intros _.
    destruct (check && negb (rc =? 0)%Z); auto using logs_raise, logs_ret.
  - apply logs_bind; [|intros _; apply logs_raise].
    destruct (timed_out _ _); auto using logs_modify, logs_ret.
Qed.

(** *** Pieces that leave the file system as it is *)

Definition keeps_fs {A} (m : M A) : Prop := ∀ f, final (m f) = f.

Lemma keeps_fs_ret {A} (a : A) : keeps_fs (mret a).
Proof. by intros f. Qed.

Lemma keeps_fs_emit ev : keeps_fs (emit ev).
Proof. by intros f. Qed.

Lemma keeps_fs_print s : keeps_fs (print s).
Proof. by intros f. Qed.

Lemma keeps_fs_gets {A} (q : fs → A) : keeps_fs (gets q).
Proof. by intros f. Qed.

Lemma keeps_fs_raise {A} e : keeps_fs (@raise A e).
Proof. by intros f. Qed.

Lemma keeps_fs_sys_exit {A} c : keeps_fs (@sys_exit A c).
Proof. by intros f. Qed.

Lemma keeps_fs_bind {A B} (m : M A) (k : A → M B) :
  keeps_fs m → (∀ a, keeps_fs (k a)) → keeps_fs (m ≫= k).
Proof.
  intros Hm Hk f. rewrite bind_unfold. specialize (Hm f).
  destruct (m f) as [l f' [a|e|c]]; simpl in *; try done.
  rewrite Hm. apply Hk.
Qed.

Lemma keeps_fs_try {A} (body : M A) handles handler :
  keeps_fs body → (∀ e, keeps_fs (handler e)) →
  keeps_fs (try_except body handles handler).
Proof.
  intros Hb Hh f. unfold try_except. specialize (Hb f).
  destruct (body f) as [l f' [a|e|c]]; simpl in *; try done.
  destruct (handles e); simpl; [|done]. rewrite Hb. apply Hh.
Qed.

Lemma keeps_fs_if {A} (b : bool) (m1 m2 : M A) :
  keeps_fs m1 → keeps_fs m2 → keeps_fs (if b then m1 else m2).
Proof. by destruct b. Qed.

(** A child that writes nothing. *)
Lemma keeps_fs_run argv check cwd t o :
  keeps_fs (subprocess_run argv check cwd t o (λ f, f)).
Proof.
  intros f. unfold subprocess_run.
  destruct o as [rc out|e];
    [destruct (check && negb (rc =? 0)%Z)|destruct (timed_out _ _)]; done.
Qed.

(** *** Pieces that leave some paths as they are *)

(** [g] leaves the entries at [ps] as they are, on every file system. *)
Definition spares (ps : list path) (g : fs → fs) : Prop :=
  ∀ f, Forall (λ p, g f !! p = f !! p) ps.

(** However [m] ends, the entries at [ps] are as they were. *)
Definition preserves {A} (ps : list path) (m : M A) : Prop :=
  ∀ f, Forall (λ p, final (m f) !! p = f !! p) ps.

Lemma same_at_trans (ps : list path) (f1 f2 f3 : fs) :
  Forall (λ p, f2 !! p = f1 !! p) ps → Forall (λ p, f3 !! p = f2 !! p) ps →
  Forall (λ p, f3 !! p = f1 !! p) ps.
Proof.
  rewrite !Forall_forall. intros H12 H23 p Hp.
  by rewrite (H23 p Hp), (H12 p Hp).
Qed.

Lemma spares_id (ps : list path) : spares ps (λ f, f).
Proof. intros f. by apply Forall_true. Qed.

Lemma preserves_keeps {A} (ps : list path) (m : M A) :
  keeps_fs m → preserves ps m.
Proof. intros Hm f. rewrite Hm. by apply Forall_true. Qed.

Lemma preserves_ret {A} (ps : list path) (a : A) : preserves ps (mret a).
Proof. by apply preserves_keeps. Qed.

Lemma preserves_emit (ps : list path) ev : preserves ps (emit ev).
Proof. by apply preserves_keeps. Qed.

Lemma preserves_print (ps : list path) s : preserves ps (print s).
Proof. by apply preserves_keeps. Qed.

Lemma preserves_gets {A} (ps : list path) (q : fs → A) :
  preserves ps (gets q).
Proof. by apply preserves_keeps. Qed.

Lemma preserves_raise {A} (ps : list path) e : preserves ps (@raise A e).
Proof. by apply preserves_keeps. Qed.

Lemma preserves_modify (ps : list path) (g : fs → fs) :
  spares ps g → preserves ps (modify g).
Proof. intros Hg f. apply Hg. Qed.

Lemma preserves_bind {A B} (ps : list path) (m : M A) (k : A → M B) :
  preserves ps m → (∀ a, preserves ps (k a)) → preserves ps (m ≫= k).
Proof.
  intros Hm Hk f. rewrite bind_unfold. specialize (Hm f).
  destruct (m f) as [l f' [a|e|c]]; cbn [val log final prepend] in *;
    try done.
  eapply same_at_trans; [exact Hm|apply Hk].
Qed.

Lemma preserves_try {A} (ps : list path) (body : M A) handles handler :
  preserves ps body → (∀ e, preserves ps (handler e)) →
  preserves ps (try_except body handles handler).
Proof.
  intros Hb Hh f. unfold try_except. specialize (Hb f).
  destruct (body f) as [l f' [a|e|c]]; cbn [val log final] in *; try done.
  destruct (handles e); cbn [final]; [|done].
  eapply same_at_trans; [exact Hb|apply Hh].
Qed.

Lemma preserves_if {A} (ps : list path) (b : bool) (m1 m2 : M A) :
  preserves ps m1 → preserves ps m2 → preserves ps (if b then m1 else m2).
Proof. by destruct b. Qed.

Lemma preserves_run (ps : list path) argv check cwd t o g :
  spares ps g → preserves ps (subprocess_run argv check cwd t o g).
Proof.
  intros Hg f. unfold subprocess_run.
  destruct o as [rc out|e];
    [destruct (check && negb (rc =? 0)%Z)|destruct (timed_out _ _)];
    first [apply Hg | by apply Forall_true].
Qed.

#[export] Hint Resolve returns_ret returns_emit returns_print returns_gets
  logs_ret logs_gets logs_modify logs_raise logs_sys_exit
  keeps_fs_ret keeps_fs_emit keeps_fs_print keeps_fs_gets keeps_fs_raise
  keeps_fs_sys_exit keeps_fs_run
  preserves_ret preserves_emit preserves_print preserves_gets preserves_raise
  preserves_modify preserves_run spares_id : prog.

(** Syntax-directed proof of one of the judgements above. *)
Ltac prog_step :=
  first
    [ progress intros
    | solve [auto with prog | done]
    | apply never_exits_bind | apply never_exits_try | apply never_exits_if
    | apply never_exits_for_each
    | apply returns_bind | apply returns_try_any | apply returns_if
    | apply logs_bind | apply logs_try | apply logs_if | apply logs_for_each
    | apply logs_run | apply logs_fs_op | apply logs_fs_op_leaving
    | apply logs_emit | apply logs_print
    | apply keeps_fs_bind | apply keeps_fs_try | apply keeps_fs_if
    | apply preserves_bind | apply preserves_try | apply preserves_if
    | match goal with
      | |- preserves _ (match ?x with _ => _ end) => destruct x
      end
    | match goal with
      | |- never_exits (match ?x with _ => _ end) => destruct x
      | |- returns (match ?x with _ => _ end) => destruct x
      | |- logs _ (match ?x with _ => _ end) => destruct x
      | |- keeps_fs (match ?x with _ => _ end) => destruct x
      end ].

Ltac prog := repeat prog_step.

(** Membership in a log that is written out. *)
Ltac in_log :=
  cbv beta iota delta [app log];
  let H := fresh "H" in
  intros H;
  repeat match type of H with
  | _ ∈ _ :: _ => apply elem_of_cons in H as [H|H]; [try discriminate H|]
  | _ ∈ [] => by apply elem_of_nil in H
  end.

(** Unfolding the monad, to run a piece on a symbolic file system. *)
Ltac unfold_prog :=
  cbv [subprocess_run timed_out print mbind M_bind bind mret M_ret ret emit raise
       sys_exit gets modify fs_op fs_op_leaving try_except any_exception
       val log final].

(** Results that are known to be there. *)
Definition is_inr {A B} (x : A + B) : bool :=
  match x with inr _ => true | inl _ => false end.

Definition from_inr {A B} (d : B) (x : A + B) : B :=
  match x with inr b => b | inl _ => d end.

Lemma inr_from_inr {A B} (d : B) (x : A + B) :
  is_inr x = true → x = inr (from_inr d x).
Proof. by destruct x. Qed.

Section Steps.
Context (h : host).

Lemma check_git_never_exits : never_exits (check_git h).
Proof. unfold check_git. prog. Qed.

Lemma clone_repo_never_exits t : never_exits (clone_repo h t).
Proof. unfold clone_repo. prog. Qed.

Lemma download_zip_never_exits t : never_exits (download_zip h t).
Proof. unfold download_zip, urlopen_read, zip_extractall, shutil_rmtree, path_rename. prog. Qed.

Lemma setup_directories_never_exits t : never_exits (setup_directories t).
Proof. unfold setup_directories, path_mkdir. prog. Qed.

Lemma create_config_never_exits t : never_exits (create_config t).
Proof. unfold create_config, shutil_copy. prog. Qed.

Lemma install_dependencies_never_exits t : never_exits (install_dependencies h t).
Proof. unfold install_dependencies. prog. Qed.

Lemma check_ollama_never_exits : never_exits (check_ollama h).
Proof. unfold check_ollama, urlopen_status. prog. Qed.

Lemma test_install_never_exits t : never_exits (test_install h t).
Proof. unfold test_install. prog. Qed.

Lemma start_daemon_never_exits t : never_exits (start_daemon h t).
Proof. unfold start_daemon, subprocess_popen. prog. Qed.


(** The steps that convert every exception into a message. *)
Lemma download_zip_returns t : returns (download_zip h t).
Proof.
  unfold download_zip. apply returns_bind; [prog|]. intros _.
  apply returns_try_any; [|prog].
  unfold urlopen_read, zip_extractall, shutil_rmtree, path_rename. prog.
Qed.

Lemma check_ollama_returns : returns (check_ollama h).
Proof.
  unfold check_ollama. apply returns_bind; [|prog].
  apply returns_try_any; [|prog]. unfold urlopen_status. prog.
Qed.

Lemma test_install_returns t : returns (test_install h t).
Proof.
  unfold test_install. apply returns_bind; [prog|]. intros _.
  apply returns_try_any; [|prog]. prog.
Qed.

(** The steps that do not touch the file system. *)
Lemma check_git_keeps_fs : keeps_fs (check_git h).
Proof. unfold check_git. prog. Qed.


Lemma check_ollama_keeps_fs : keeps_fs (check_ollama h).
Proof. unfold check_ollama, urlopen_status. prog. Qed.


Lemma start_daemon_keeps_fs t : keeps_fs (start_daemon h t).
Proof. unfold start_daemon, subprocess_popen. prog. Qed.

(** The steps that run a program of the target leave alone what that
    program leaves alone. *)
Lemma install_dependencies_preserves (ps : list path) t :
  spares ps (pip_effect h t) → preserves ps (install_dependencies h t).
Proof. intros Hp. unfold install_dependencies. prog. Qed.

Lemma test_install_preserves (ps : list path) t :
  spares ps (me_py_effect h t) → preserves ps (test_install h t).
Proof. intros Hp. unfold test_install. prog. Qed.

(** *** The two halves of [main] after the version check *)

(** The block of [main] under [# Get the code]. *)
Definition get_the_code (target_dir : path) : M unit :=
  installed ← gets (λ f, exists_ f target_dir
                          && exists_ f (target_dir / "me.py")%path);
  if installed : bool then
    print "[OK] Claude already installed, updating...";;
    g ← check_git h;
    dotgit ← gets (λ f, exists_ f (target_dir / ".git")%path);
    if g && dotgit then git_pull_in h target_dir else mret tt
  else
    g ← check_git h;
    if g : bool then
      cloned ← clone_repo h target_dir;
      if negb cloned then
        print "[INFO] Falling back to zip download...";;
        z ← download_zip h target_dir;
        if negb z then sys_exit 1%Z else mret tt
      else mret tt
    else
      print "[INFO] Git not found, using zip download...";;
      z ← download_zip h target_dir;
      if negb z then sys_exit 1%Z else mret tt.

(** The rest of [main], from [# Setup] to the success message. *)
Definition set_up (a : args) : M unit :=
  let target_dir := dir a in
  setup_directories target_dir;;
  create_config target_dir;;
  (if negb (no_deps a) then install_dependencies h target_dir;; mret tt
   else mret tt);;
  check_ollama h;;
  test_install h target_dir;;
  (if start a then start_daemon h target_dir;; mret tt else mret tt);;
  print (summary target_dir).

(** The host runtime is older than 3.10. *)
Definition below_minimum : Prop :=
  (major h < 3 ∨ (major h = 3 ∧ minor h < 10))%Z.

#[global] Instance below_minimum_dec : Decision below_minimum.
Proof. unfold below_minimum. apply _. Defined.

Definition python_error : string :=
  "[ERROR] Python 3.10+ required. You have "
  ++ pretty (major h) ++ "." ++ pretty (minor h).

Definition python_ok : string :=
  "[OK] Python " ++ pretty (major h) ++ "." ++ pretty (minor h) ++ "."
  ++ pretty (micro h).

Definition installing_to (target_dir : path) : string :=
  "[INFO] Installing to: " ++ str target_dir ++ nl.

Lemma check_python_below f :
  below_minimum →
  check_python h f = Result [Print python_error] f (Return false).
Proof.
  unfold below_minimum, check_python. intros Hv.
  replace ((major h <? 3)%Z || (major h =? 3)%Z && (minor h <? 10)%Z)
    with true; [done|].
  symmetry. apply orb_true_iff. rewrite andb_true_iff.
  rewrite !Z.ltb_lt, Z.eqb_eq. done.
Qed.

Lemma check_python_meets f :
  ¬ below_minimum →
  check_python h f = Result [Print python_ok] f (Return true).
Proof.
  unfold below_minimum, check_python. intros Hv.
  destruct ((major h <? 3)%Z || (major h =? 3)%Z && (minor h <? 10)%Z)
    eqn:E; [|done].
  exfalso. apply Hv. apply orb_true_iff in E. rewrite andb_true_iff in E.
  rewrite !Z.ltb_lt, Z.eqb_eq in E. done.
Qed.

Lemma main_eq a f :
  main h a f =
  (print_banner;;
   ok ← check_python h;
   if negb ok then sys_exit 1%Z
   else print (installing_to (dir a));;
        get_the_code (dir a);;
        set_up a) f.
Proof.
  unfold main. apply bind_ext; intros _ f1. apply bind_ext; intros ok f2.
  destruct ok; cbn [negb]; [|reflexivity]. apply bind_ext; intros _ f3.
  unfold get_the_code. symmetry. apply bind_assoc.
Qed.

Lemma main_below a f :
  below_minimum →
  main h a f = Result [Print banner; Print python_error] f (Exit 1%Z).
Proof.
  intros Hv. rewrite main_eq. unfold print_banner. rewrite bind_print.
  rewrite (bind_unfold (check_python h)), (check_python_below _ Hv).
  reflexivity.
Qed.

Lemma main_proceeds a f :
  ¬ below_minimum →
  main h a f =
  prepend [Print banner; Print python_ok; Print (installing_to (dir a))]
          ((get_the_code (dir a);; set_up a) f).
Proof.
  intros Hv. rewrite main_eq. unfold print_banner. rewrite bind_print.
  rewrite (bind_unfold (check_python h)), (check_python_meets _ Hv).
  cbn [val final log negb]. rewrite bind_print, !prepend_prepend.
  reflexivity.
Qed.

(** *** Config materialization *)

Lemma create_config_existing t f :
  exists_ f (t / "config.py")%path = true →
  create_config t f = Result [Print "[OK] Config already exists"] f (Return tt).
Proof.
  intros Hc. unfold create_config. cbv zeta.
  rewrite bind_gets, Hc. cbn [negb andb]. rewrite bind_gets, Hc. reflexivity.
Qed.

Lemma create_config_nothing t f :
  exists_ f (t / "config.py")%path = false →
  exists_ f (t / "config.example.py")%path = false →
  create_config t f = Result [] f (Return tt).
Proof.
  intros Hc He. unfold create_config. cbv zeta.
  rewrite bind_gets, Hc, He. cbn [negb andb]. rewrite bind_gets, Hc.
  reflexivity.
Qed.

Lemma create_config_copies t f :
  exists_ f (t / "config.py")%path = false →
  exists_ f (t / "config.example.py")%path = true →
  create_config t f =
  match copy (t / "config.example.py")%path (t / "config.py")%path f with
  | inl e =>
      Result [Copy (t / "config.example.py")%path (t / "config.py")%path]
             f (Raise e)
  | inr f' =>
      Result [Copy (t / "config.example.py")%path (t / "config.py")%path;
              Print "[OK] Config created from example"] f' (Return tt)
  end.
Proof.
  intros Hc He. unfold create_config. cbv zeta.
  rewrite bind_gets, Hc, He. cbn [negb andb].
  rewrite bind_unfold. unfold shutil_copy, fs_op.
  by destruct (copy _ _ f).
Qed.

(** *** Directory materialization *)

Lemma is_dir_mono (f f' : fs) (p : path) :
  f ⊆ f' → is_dir f p = true → is_dir f' p = true.
Proof.
  intros Hsub. destruct p as [|name up]; [done|].
  rewrite !is_dir_lookup. intros Hp. by eapply lookup_weaken.
Qed.

Lemma for_each_mkdir_returns (ds : list path) : ∀ f : fs,
  val (for_each ds path_mkdir f) = Return tt →
  f ⊆ final (for_each ds path_mkdir f) ∧
  ∀ d, d ∈ ds → is_dir (final (for_each ds path_mkdir f)) d = true.
Proof.
  induction ds as [|d ds IH]; intros f; cbn [for_each].
  - intros _. split; [done|]. by intros d ?%elem_of_nil.
  - intros ([] & Hd & Hk & -> & _)%bind_Return.
    assert (∃ f1, mkdir_parents d f = inr f1 ∧ final (path_mkdir d f) = f1)
      as (f1 & E & Ef).
    { revert Hd. unfold path_mkdir, fs_op.
      destruct (mkdir_parents d f); [done|]. eauto. }
    rewrite Ef in *. apply mkdir_parents_inr in E as [Hsub Hdir].
    apply IH in Hk as [Hsub' Hall]. split; [by etrans|].
    intros d' [->|Hin]%elem_of_cons; [|by apply Hall].
    by eapply is_dir_mono.
Qed.

Lemma for_each_mkdir_existing (ds : list path) (f : fs) :
  (∀ d, d ∈ ds → is_dir f d = true) →
  for_each ds path_mkdir f = Result (map Mkdir ds) f (Return tt).
Proof.
  induction ds as [|d ds IH]; intros Hall; cbn [for_each map]; [done|].
  assert (path_mkdir d f = Result [Mkdir d] f (Return tt)) as E.
  { unfold path_mkdir, fs_op.
    by rewrite mkdir_parents_existing by (apply Hall; left). }
  rewrite bind_unfold, E. cbn [val final log].
  rewrite IH by (intros; apply Hall; by right). reflexivity.
Qed.

Definition directories_created : string := "[OK] Directories created".

Lemma setup_directories_returns (t : path) (f : fs) :
  val (setup_directories t f) = Return tt →
  f ⊆ final (setup_directories t f) ∧
  ∀ d, d ∈ required_dirs t → is_dir (final (setup_directories t f)) d = true.
Proof.
  unfold setup_directories.
  intros ([] & Hd & _ & -> & _)%bind_Return. cbn [print emit final].
  by apply for_each_mkdir_returns.
Qed.

Lemma setup_directories_existing (t : path) (f : fs) :
  (∀ d, d ∈ required_dirs t → is_dir f d = true) →
  setup_directories t f =
  Result (map Mkdir (required_dirs t) ++ [Print directories_created])
         f (Return tt).
Proof.
  intros Hall. unfold setup_directories.
  rewrite bind_unfold, for_each_mkdir_existing by done. reflexivity.
Qed.

(** *** The set-up half of [main] *)

(** What [main] does after the config step. *)
Definition finish_up (a : args) : M unit :=
  let target_dir := dir a in
  (if negb (no_deps a) then install_dependencies h target_dir;; mret tt
   else mret tt);;
  check_ollama h;;
  test_install h target_dir;;
  (if start a then start_daemon h target_dir;; mret tt else mret tt);;
  print (summary target_dir).

Lemma set_up_eq a :
  set_up a =
  (setup_directories (dir a);; create_config (dir a);; finish_up a).
Proof. reflexivity. Qed.

Lemma finish_up_preserves (ps : list path) a :
  spares ps (pip_effect h (dir a)) → spares ps (me_py_effect h (dir a)) →
  preserves ps (finish_up a).
Proof.
  intros Hp Hm. unfold finish_up. cbv zeta.
  pose proof (install_dependencies_preserves ps (dir a) Hp).
  pose proof (test_install_preserves ps (dir a) Hm).
  pose proof (preserves_keeps ps _ check_ollama_keeps_fs).
  pose proof (preserves_keeps ps _ (start_daemon_keeps_fs (dir a))).
  prog.
Qed.

Lemma finish_up_never_exits a : never_exits (finish_up a).
Proof.
  unfold finish_up. cbv zeta.
  pose proof install_dependencies_never_exits. pose proof check_ollama_never_exits.
  pose proof test_install_never_exits. pose proof start_daemon_never_exits.
  prog.
Qed.

Lemma set_up_never_exits a : never_exits (set_up a).
Proof.
  rewrite set_up_eq.
  pose proof setup_directories_never_exits. pose proof create_config_never_exits.
  pose proof finish_up_never_exits. prog.
Qed.

(** The required directories are there, and the config step has nothing
    left to do. *)
Definition settled (t : path) (f : fs) : Prop :=
  (∀ d, d ∈ required_dirs t → is_dir f d = true) ∧
  (exists_ f (t / "config.py")%path = true ∨
   exists_ f (t / "config.example.py")%path = false).

Lemma final_bind {A B} (m : M A) (k : A → M B) (f : fs) :
  final ((m ≫= k) f) =
  match val (m f) with
  | Return a => final (k a (final (m f)))
  | _ => final (m f)
  end.
Proof. rewrite bind_unfold. by destruct (val (m f)). Qed.

Lemma val_bind {A B} (m : M A) (k : A → M B) (f : fs) :
  val ((m ≫= k) f) =
  match val (m f) with
  | Return a => val (k a (final (m f)))
  | Raise e => Raise e
  | Exit c => Exit c
  end.
Proof. rewrite bind_unfold. by destruct (val (m f)). Qed.

Lemma create_config_settles (t : path) (f : fs) :
  (∀ d, d ∈ required_dirs t → is_dir f d = true) →
  val (create_config t f) = Return tt →
  settled t (final (create_config t f)).
Proof.
  intros Hdirs.
  destruct (exists_ f (t / "config.py")%path) eqn:Hc.
  { rewrite create_config_existing by done. intros _. split; [done|by left]. }
  destruct (exists_ f (t / "config.example.py")%path) eqn:He.
  2: { rewrite create_config_nothing by done. intros _. split; [done|by right]. }
  rewrite create_config_copies by done.
  destruct (copy _ _ f) as [e|f'] eqn:E; [done|]. intros _. cbn [final].
  assert (f !! (t / "config.py")%path = None) as Hn.
  { apply eq_None_not_Some. intros Hs%exists_lookup.
    unfold child in Hc. congruence. }
  apply copy_inr in E as [c ->]; [|done]. split.
  - intros d Hd. eapply is_dir_mono; [by apply insert_subseteq|by apply Hdirs].
  - left. apply exists_lookup. rewrite lookup_insert_eq. eauto.
Qed.

(** The paths two runs are compared at: the config, the template the config
    step reads, and the required directories. *)
Definition watched (t : path) : list path :=
  (t / "config.py")%path :: (t / "config.example.py")%path :: required_dirs t.

Lemma settled_transfer (t : path) (f f' : fs) :
  Forall (λ p, f' !! p = f !! p) (watched t) → settled t f → settled t f'.
Proof.
  unfold watched. intros Hk [Hdirs Hconf].
  apply Forall_cons in Hk as [Hc Hk]. apply Forall_cons in Hk as [He Hk].
  rewrite Forall_forall in Hk. split.
  - intros d Hd. specialize (Hdirs d Hd). specialize (Hk d Hd).
    unfold is_dir, stat in *. destruct d; [done|]. by rewrite Hk.
  - unfold exists_, stat in *. unfold child in *. by rewrite Hc, He.
Qed.

(** The programs the set-up half runs, [pip] and [me.py], leave the watched
    paths alone. *)
Definition tools_spare (t : path) : Prop :=
  spares (watched t) (pip_effect h t) ∧ spares (watched t) (me_py_effect h t).

Lemma set_up_settles a f :
  tools_spare (dir a) →
  val (set_up a f) = Return tt → settled (dir a) (final (set_up a f)).
Proof.
  intros [Hp Hm]. rewrite set_up_eq. intros Hv.
  apply bind_Return in Hv as ([] & Hs & Hv & -> & _).
  apply bind_Return in Hv as ([] & Hc & _ & -> & _).
  eapply settled_transfer; [apply (finish_up_preserves _ a Hp Hm)|].
  apply create_config_settles; [|done].
  by apply setup_directories_returns.
Qed.

Lemma set_up_settled a f :
  tools_spare (dir a) → settled (dir a) f →
  Forall (λ p, final (set_up a f) !! p = f !! p) (watched (dir a)).
Proof.
  intros [Hp Hm] [Hdirs Hconf]. rewrite set_up_eq.
  rewrite final_bind, setup_directories_existing by done. cbn [val final].
  rewrite final_bind.
  destruct Hconf as [Hc|He].
  - rewrite create_config_existing by done. cbn [val final].
    by apply finish_up_preserves.
  - destruct (exists_ f (dir a / "config.py")%path) eqn:Hc.
    + rewrite create_config_existing by done. cbn [val final].
      by apply finish_up_preserves.
    + rewrite create_config_nothing by done. cbn [val final].
      by apply finish_up_preserves.
Qed.

(** *** The source half of [main] *)

Definition is_mkdir (ev : event) : bool :=
  match ev with Mkdir _ => true | _ => false end.

Lemma get_the_code_makes_no_directory (t : path) :
  logs (λ ev, is_mkdir ev = false) (get_the_code t).
Proof.
  unfold get_the_code, git_pull_in, check_git, clone_repo, download_zip,
    urlopen_read, zip_extractall, shutil_rmtree, path_rename.
  prog.
Qed.

Definition installed_at (t : path) (f : fs) : bool :=
  exists_ f t && exists_ f (t / "me.py")%path.

(** Neither way of getting the source worked: git is unavailable and the
    archive download failed, or the clone failed and the archive download
    that followed, on what the clone left, failed too. *)
Definition acquisition_exhausted (t : path) (f : fs) : Prop :=
  (val (check_git h f) = Return false ∧
   val (download_zip h t f) = Return false) ∨
  (val (check_git h f) = Return true ∧
   val (clone_repo h t f) = Return false ∧
   val (download_zip h t (final (clone_repo h t f))) = Return false).

Lemma update_path_never_exits (t : path) :
  never_exits
    (print "[OK] Claude already installed, updating...";;
     g ← check_git h;
     dotgit ← gets (λ f, exists_ f (t / ".git")%path);
     if g && dotgit then git_pull_in h t else mret tt).
Proof. unfold git_pull_in. pose proof check_git_never_exits. prog. Qed.

Lemma get_the_code_exit (t : path) (f : fs) (c : Z) :
  val (get_the_code t f) = Exit c →
  c = 1%Z ∧ installed_at t f = false ∧ acquisition_exhausted t f.
Proof.
  unfold get_the_code, acquisition_exhausted. rewrite bind_gets.
  fold (installed_at t f). destruct (installed_at t f).
  { intros H. by apply update_path_never_exits in H. }
  assert (∀ (k : bool → M unit) f',
            val ((download_zip h t ≫= k) f') = Exit c →
            ∃ z, val (download_zip h t f') = Return z ∧
                 val (k z (final (download_zip h t f'))) = Exit c) as Hd.
  { intros k f' [[H _]|H]%bind_Exit; [|done].
    by apply download_zip_never_exits in H. }
  rewrite val_bind. pose proof (check_git_keeps_fs f) as Hg.
  destruct (val (check_git h f)) as [[]|e|c'] eqn:Eg; [| |done|].
  - (* git is there: clone, then the archive *)
    rewrite Hg, val_bind.
    destruct (val (clone_repo h t f)) as [[]|e|c'] eqn:Ec; [done| |done|].
    + cbn [negb]. rewrite bind_print. cbn [prepend val].
      intros (z & Ez & Hx)%Hd.
      destruct z; [done|]. injection Hx as <-. by eauto 10.
    + by apply clone_repo_never_exits in Ec.
  - (* git is not there: the archive *)
    rewrite Hg, bind_print. cbn [prepend val].
    intros (z & Ez & Hx)%Hd.
    destruct z; [done|]. injection Hx as <-. by eauto 10.
  - by apply check_git_never_exits in Eg.
Qed.

(** *** The archive download *)

Definition downloading : string := "[...] Downloading " ++ REPO_ZIP.

(** The folder the archive is expected to unpack to, next to the target. *)
Definition extracted_folder (t : path) : path :=
  (parent t / "claude-agent-main")%path.

(** The body of the [try] in [download_zip], cut after the extraction, and
    its handler. *)
Definition after_unpack (target_dir : path) : M bool :=
  let extracted := (parent target_dir / "claude-agent-main")%path in
  ex ← gets (λ f, exists_ f extracted);
  (if ex : bool then
     tex ← gets (λ f, exists_ f target_dir);
     (if tex : bool then shutil_rmtree target_dir else mret tt);;
     path_rename extracted target_dir
   else mret tt);;
  print "[OK] Downloaded and extracted";;
  mret true.

Definition download_body (target_dir : path) : M bool :=
  zip_data ← urlopen_read h REPO_ZIP 30;
  print "[...] Extracting...";;
  zip_extractall zip_data (parent target_dir);;
  after_unpack target_dir.

Definition download_failed (e : exn) : M bool :=
  print ("[ERROR] Download failed: " ++ msg e);; mret false.

Lemma download_zip_eq (t : path) :
  download_zip h t =
  (print downloading;;
   try_except (download_body t) any_exception download_failed).
Proof. reflexivity. Qed.

Lemma try_except_caught {A} (body : M A) (handles : exn → bool)
    (handler : exn → M A) (f f' : fs) (l : list event) (e : exn) :
  body f = Result l f' (Raise e) → handles e = true →
  try_except body handles handler f = prepend l (handler e f').
Proof. intros Hb Hh. unfold try_except. by rewrite Hb; cbn; rewrite Hh. Qed.

Lemma try_except_passed {A} (body : M A) (handles : exn → bool)
    (handler : exn → M A) (f f' : fs) (l : list event) (a : A) :
  body f = Result l f' (Return a) →
  try_except body handles handler f = Result l f' (Return a).
Proof. intros Hb. unfold try_except. by rewrite Hb. Qed.

Lemma download_zip_caught (t : path) (f f' : fs) (l : list event) (e : exn) :
  download_body t f = Result l f' (Raise e) →
  download_zip h t f =
  Result (Print downloading :: l
          ++ [Print ("[ERROR] Download failed: " ++ msg e)])
         f' (Return false).
Proof.
  intros Hb. rewrite download_zip_eq, bind_print.
  by rewrite (try_except_caught _ _ _ _ _ _ _ Hb eq_refl).
Qed.

Lemma download_zip_passed (t : path) (f f' : fs) (l : list event) (b : bool) :
  download_body t f = Result l f' (Return b) →
  download_zip h t f = Result (Print downloading :: l) f' (Return b).
Proof.
  intros Hb. rewrite download_zip_eq, bind_print.
  by rewrite (try_except_passed _ _ _ _ _ _ _ Hb).
Qed.

(** The download and the extraction went well. *)
Lemma download_body_unpacked (t : path) (f f1 : fs) (ms : list member)
    (k : M bool) :
  archive h = Body (Some ms) →
  extractall ms (parent t) f = inr f1 →
  (zip_data ← urlopen_read h REPO_ZIP 30;
   print "[...] Extracting...";;
   zip_extractall zip_data (parent t);; k) f =
  prepend [Urlopen REPO_ZIP 30%Z; Print "[...] Extracting...";
           Extractall (parent t)] (k f1).
Proof.
  intros Ha He.
  assert (urlopen_read h REPO_ZIP 30 f
          = Result [Urlopen REPO_ZIP 30%Z] f (Return (Some ms))) as Hu.
  { unfold urlopen_read. rewrite bind_unfold. cbn [emit val log final].
    by rewrite Ha. }
  assert (zip_extractall (Some ms) (parent t) f
          = Result [Extractall (parent t)] f1 (Return tt)) as Hz.
  { unfold zip_extractall, fs_op_leaving. by rewrite He. }
  rewrite bind_unfold, Hu. cbn [val log final].
  rewrite bind_print, (bind_unfold (zip_extractall _ _)), Hz.
  cbn [val log final]. by rewrite !prepend_prepend.
Qed.

(** The download or the extraction raised: nothing was unpacked, or what was
    unpacked before the failure stays. *)
Lemma download_zip_no_body (t : path) (f : fs) (e : exn) :
  archive h = NoBody e →
  download_zip h t f =
  Result [Print downloading; Urlopen REPO_ZIP 30%Z;
          Print ("[ERROR] Download failed: " ++ msg e)] f (Return false).
Proof.
  intros Ha. apply (download_zip_caught t f f [Urlopen REPO_ZIP 30%Z] e).
  unfold download_body, urlopen_read. rewrite bind_assoc, bind_unfold.
  cbn [emit val log final]. by rewrite Ha.
Qed.

Definition not_a_zip : exn := Exn BadZipFile "File is not a zip file".

Lemma download_zip_not_a_zip (t : path) (f : fs) :
  archive h = Body None →
  download_zip h t f =
  Result [Print downloading; Urlopen REPO_ZIP 30%Z;
          Print "[...] Extracting...";
          Print ("[ERROR] Download failed: " ++ msg not_a_zip)]
         f (Return false).
Proof.
  intros Ha.
  apply (download_zip_caught t f f
           [Urlopen REPO_ZIP 30%Z; Print "[...] Extracting..."] not_a_zip).
  unfold download_body, urlopen_read. rewrite bind_assoc, bind_unfold.
  cbn [emit val log final]. by rewrite Ha.
Qed.

Lemma download_zip_extraction_failed (t : path) (f : fs)
    (ms : list member) (e : exn) :
  archive h = Body (Some ms) →
  extractall ms (parent t) f = inl e →
  download_zip h t f =
  Result [Print downloading; Urlopen REPO_ZIP 30%Z;
          Print "[...] Extracting..."; Extractall (parent t);
          Print ("[ERROR] Download failed: " ++ msg e)]
         (extractall_left ms (parent t) f) (Return false).
Proof.
  intros Ha He.
  apply (download_zip_caught t f _
           [Urlopen REPO_ZIP 30%Z; Print "[...] Extracting...";
            Extractall (parent t)] e).
  assert (urlopen_read h REPO_ZIP 30 f
          = Result [Urlopen REPO_ZIP 30%Z] f (Return (Some ms))) as Hu.
  { unfold urlopen_read. rewrite bind_unfold. cbn [emit val log final].
    by rewrite Ha. }
  assert (zip_extractall (Some ms) (parent t) f
          = Result [Extractall (parent t)] (extractall_left ms (parent t) f)
                   (Raise e)) as Hz.
  { unfold zip_extractall, fs_op_leaving. by rewrite He. }
  unfold download_body. rewrite bind_unfold, Hu. cbn [val log final].
  rewrite bind_print, (bind_unfold (zip_extractall _ _)), Hz.
  reflexivity.
Qed.

(** Lines 88 to 91 on the file system the extraction left, when the
    extracted folder is there: an existing target is removed, then the
    folder is renamed to the target.  [place] is what this gives,
    [place_events] what is attempted, [place_left] the files when one of the
    two raised. *)
Definition place (t : path) (f1 : fs) : exn + fs :=
  match (if exists_ f1 t then rmtree t f1 else inr f1) with
  | inl e => inl e
  | inr f2 => rename (extracted_folder t) t f2
  end.

Definition place_events (t : path) (f1 : fs) : list event :=
  if exists_ f1 t then
    match rmtree t f1 with
    | inl _ => [Rmtree t]
    | inr _ => [Rmtree t; Rename (extracted_folder t) t]
    end
  else [Rename (extracted_folder t) t].

Definition place_left (t : path) (f1 : fs) : fs :=
  if exists_ f1 t then
    match rmtree t f1 with
    | inl _ => f1
    | inr f2 => f2
    end
  else f1.

Lemma after_unpack_result (t : path) (f1 : fs) :
  after_unpack t f1 =
  if exists_ f1 (extracted_folder t) then
    match place t f1 with
    | inr f3 =>
        Result (place_events t f1 ++ [Print "[OK] Downloaded and extracted"])
               f3 (Return true)
    | inl e => Result (place_events t f1) (place_left t f1) (Raise e)
    end
  else Result [Print "[OK] Downloaded and extracted"] f1 (Return true).
Proof.
  unfold after_unpack, place, place_events, place_left, extracted_folder,
    shutil_rmtree, path_rename. unfold_prog.
  destruct (exists_ f1 (parent t / "claude-agent-main")%path); [|reflexivity].
  destruct (exists_ f1 t).
  - destruct (rmtree t f1) as [e|f2]; [reflexivity|].
    by destruct (rename _ _ f2).
  - by destruct (rename _ _ f1).
Qed.

Definition unpack_events (t : path) : list event :=
  [Print downloading; Urlopen REPO_ZIP 30%Z; Print "[...] Extracting...";
   Extractall (parent t)].

(** What [download_zip] does once the archive is unpacked. *)
Lemma download_zip_unpacked (t : path) (f f1 : fs) (ms : list member) :
  archive h = Body (Some ms) →
  extractall ms (parent t) f = inr f1 →
  download_zip h t f =
  if exists_ f1 (extracted_folder t) then
    match place t f1 with
    | inr f3 =>
        Result (unpack_events t ++ place_events t f1
                ++ [Print "[OK] Downloaded and extracted"]) f3 (Return true)
    | inl e =>
        Result (unpack_events t ++ place_events t f1
                ++ [Print ("[ERROR] Download failed: " ++ msg e)])
               (place_left t f1) (Return false)
    end
  else
    Result (unpack_events t ++ [Print "[OK] Downloaded and extracted"])
           f1 (Return true).
Proof.
  intros Ha He.
  assert (download_body t f =
          prepend [Urlopen REPO_ZIP 30%Z; Print "[...] Extracting...";
                   Extractall (parent t)] (after_unpack t f1)) as Hb.
  { unfold download_body. by apply download_body_unpacked with ms. }
  rewrite after_unpack_result in Hb.
  destruct (exists_ f1 (extracted_folder t)).
  - destruct (place t f1) as [e|f3].
    + by rewrite (download_zip_caught _ _ _ _ _ Hb).
    + by rewrite (download_zip_passed _ _ _ _ _ Hb).
  - by rewrite (download_zip_passed _ _ _ _ _ Hb).
Qed.

Lemma download_zip_without_folder (t : path) (f f1 : fs) (ms : list member) :
  archive h = Body (Some ms) →
  extractall ms (parent t) f = inr f1 →
  exists_ f1 (extracted_folder t) = false →
  download_zip h t f =
  Result [Print downloading; Urlopen REPO_ZIP 30%Z;
          Print "[...] Extracting..."; Extractall (parent t);
          Print "[OK] Downloaded and extracted"] f1 (Return true).
Proof.
  intros Ha He Hx. by rewrite (download_zip_unpacked t f f1 ms Ha He), Hx.
Qed.

Lemma place_events_rmtree (t p : path) (f1 : fs) :
  Rmtree p ∈ place_events t f1 → p = t ∧ exists_ f1 t = true.
Proof.
  unfold place_events. destruct (exists_ f1 t).
  - destruct (rmtree t f1); in_log; by injection H as ->.
  - by in_log.
Qed.

Lemma download_zip_rmtree (t p : path) (f : fs) :
  Rmtree p ∈ log (download_zip h t f) →
  p = t ∧
  ∃ ms f1, archive h = Body (Some ms) ∧
           extractall ms (parent t) f = inr f1 ∧
           exists_ f1 (extracted_folder t) = true ∧
           exists_ f1 t = true.
Proof.
  destruct (archive h) as [e|[ms|]] eqn:Ha.
  - rewrite (download_zip_no_body t f e Ha). by in_log.
  - destruct (extractall ms (parent t) f) as [e|f1] eqn:He.
    { rewrite (download_zip_extraction_failed t f ms e Ha He). by in_log. }
    rewrite (download_zip_unpacked t f f1 ms Ha He).
    destruct (exists_ f1 (extracted_folder t)) eqn:Hx;
      [|unfold unpack_events; by in_log].
    assert (Rmtree p ∈ place_events t f1 → p = t ∧
            ∃ ms' f1', Body (Some ms) = Body (Some ms') ∧
              extractall ms' (parent t) f = inr f1' ∧
              exists_ f1' (extracted_folder t) = true ∧
              exists_ f1' t = true) as Hp.
    { intros [-> Ht]%place_events_rmtree. eauto 10. }
    destruct (place t f1); cbn [log]; unfold unpack_events;
      intros [Hin|Hin]%elem_of_app;
      try (by revert Hin; in_log);
      apply elem_of_app in Hin as [Hin|Hin];
      try (by revert Hin; in_log); by apply Hp.
  - rewrite (download_zip_not_a_zip t f Ha). by in_log.
Qed.

Lemma download_zip_log_head (t : path) (f : fs) :
  ∃ l, log (download_zip h t f)
       = Print downloading :: Urlopen REPO_ZIP 30%Z :: l.
Proof.
  destruct (archive h) as [e|[ms|]] eqn:Ha.
  - rewrite (download_zip_no_body t f e Ha). by eauto.
  - destruct (extractall ms (parent t) f) as [e|f1] eqn:He.
    { rewrite (download_zip_extraction_failed t f ms e Ha He). by eauto. }
    rewrite (download_zip_unpacked t f f1 ms Ha He).
    destruct (exists_ f1 (extracted_folder t)); [destruct (place t f1)|];
      cbn [log unpack_events app]; by eauto.
  - rewrite (download_zip_not_a_zip t f Ha). by eauto.
Qed.

(** *** Looking for git *)

Definition git_version_event : event := Run ["git"; "--version"] None None.

Lemma check_git_log (f : fs) : log (check_git h f) = [git_version_event].
Proof.
  unfold check_git. unfold_prog.
  destruct (git_version h) as [rc out|e].
  - by destruct (rc =? 0)%Z.
  - cbv beta iota delta [app andb negb].
    by destruct (one_of [CalledProcessError; FileNotFoundError] e).
Qed.

Lemma check_git_result (f : fs) (g : bool) :
  val (check_git h f) = Return g →
  check_git h f = Result [git_version_event] f (Return g).
Proof.
  intros Hg. pose proof (check_git_log f) as Hl.
  pose proof (check_git_keeps_fs f) as Hf.
  destruct (check_git h f) as [l f' v]; cbn [val log final] in *.
  by subst.
Qed.

(** The tool is not there: [git --version] cannot be started. *)
Lemma check_git_absent (f : fs) (e : exn) :
  git_version h = Fails e → cls e = FileNotFoundError →
  val (check_git h f) = Return false.
Proof.
  intros Hv Hc. unfold check_git. unfold_prog. rewrite Hv.
  unfold one_of. rewrite Hc. reflexivity.
Qed.

Definition git_not_found : string :=
  "[INFO] Git not found, using zip download...".

Lemma get_the_code_without_git (t : path) (f : fs) :
  installed_at t f = false →
  val (check_git h f) = Return false →
  get_the_code t f =
  prepend [git_version_event; Print git_not_found]
    ((z ← download_zip h t; if negb z then sys_exit 1%Z else mret tt) f).
Proof.
  intros Hi Hg. unfold get_the_code. rewrite bind_gets.
  fold (installed_at t f). rewrite Hi.
  rewrite bind_unfold, (check_git_result _ _ Hg). cbn [val log final].
  rewrite bind_print, prepend_prepend. reflexivity.
Qed.

Definition already_installed : string :=
  "[OK] Claude already installed, updating...".

Lemma get_the_code_without_pull (t : path) (f : fs) (g : bool) :
  installed_at t f = true →
  val (check_git h f) = Return g →
  g = false ∨ exists_ f (t / ".git")%path = false →
  get_the_code t f =
  Result [Print already_installed; git_version_event] f (Return tt).
Proof.
  intros Hi Hg Hor. unfold get_the_code. rewrite bind_gets.
  fold (installed_at t f). rewrite Hi.
  rewrite bind_print, bind_unfold, (check_git_result _ _ Hg).
  cbn [val log final]. rewrite bind_gets.
  replace (g && exists_ f (t / ".git")%path) with false
    by (destruct Hor as [-> | ->]; [done|by destruct g]).
  reflexivity.
Qed.

(** On an installed target the source half is the update path: whatever it
    does to the files is the pull's doing. *)
Lemma update_preserves (ps : list path) (t : path) (f : fs) :
  installed_at t f = true →
  spares ps (pull_effect h t) →
  Forall (λ p, final (get_the_code t f) !! p = f !! p) ps.
Proof.
  intros Hi Hp. unfold get_the_code. rewrite bind_gets.
  fold (installed_at t f). rewrite Hi.
  assert (preserves ps
            (print "[OK] Claude already installed, updating...";;
             g ← check_git h;
             dotgit ← gets (λ f, exists_ f (t / ".git")%path);
             if g && dotgit then git_pull_in h t else mret tt)) as Hu.
  { unfold git_pull_in.
    pose proof (preserves_keeps ps _ check_git_keeps_fs). prog. }
  apply Hu.
Qed.

(** A run on a target that is not installed, on a host without git: what
    the archive download gives decides how it goes on. *)
Lemma main_without_git (a : args) (f : fs) :
  ¬ below_minimum →
  installed_at (dir a) f = false →
  val (check_git h f) = Return false →
  main h a f =
  prepend ([Print banner; Print python_ok; Print (installing_to (dir a));
            git_version_event; Print git_not_found]
           ++ log (download_zip h (dir a) f))
    (match val (download_zip h (dir a) f) with
     | Return true => set_up a (final (download_zip h (dir a) f))
     | Return false => Result [] (final (download_zip h (dir a) f)) (Exit 1%Z)
     | Raise e => Result [] (final (download_zip h (dir a) f)) (Raise e)
     | Exit c => Result [] (final (download_zip h (dir a) f)) (Exit c)
     end).
Proof.
  intros Hv Hi Hg. rewrite main_proceeds by done.
  rewrite (bind_unfold (get_the_code (dir a))).
  rewrite get_the_code_without_git by done.
  rewrite (bind_unfold (download_zip h (dir a))).
  destruct (download_zip h (dir a) f) as [ld fd [[]|e|c]];
    cbn [val log final prepend negb mret M_ret ret sys_exit app];
    unfold prepend; cbn [val log final app];
    rewrite ?app_nil_r, <- ?app_assoc; reflexivity.
Qed.

(** *** Events of source acquisition *)

(** [git pull], [git clone], the download of the archive and what is done
    with it. *)
Definition is_acquisition (ev : event) : bool :=
  match ev with
  | Run (prog :: cmd :: _) _ _ =>
      (bool_decide (cmd = "pull") || bool_decide (cmd = "clone"))
      && bool_decide (prog = "git")
  | Urlopen url _ => bool_decide (url = REPO_ZIP)
  | Extractall _ | Rmtree _ | Rename _ _ => true
  | _ => false
  end.

Lemma str_starts_with_slash (p : path) : ∃ s, str p = "/" ++ s.
Proof. destruct p; [by exists EmptyString|]. unfold str. eauto. Qed.

Lemma run_script_is_no_acquisition (prog : string) (p : path) cwd timeout :
  is_acquisition (Run [prog; str p] cwd timeout) = false.
Proof.
  destruct (str_starts_with_slash p) as [s ->]. cbn [is_acquisition].
  rewrite !bool_decide_eq_false_2 by (cbn; discriminate). reflexivity.
Qed.

Lemma set_up_no_acquisition (a : args) :
  logs (λ ev, is_acquisition ev = false) (set_up a).
Proof.
  unfold set_up, setup_directories, path_mkdir, create_config, shutil_copy,
    install_dependencies, check_ollama, urlopen_status, test_install,
    start_daemon, subprocess_popen.
  cbv zeta. prog; apply run_script_is_no_acquisition.
Qed.

(** *** The smoke test *)

Definition testing : string := nl ++ "[...] Testing installation...".
Definition starting_daemon : string := nl ++ "[...] Starting daemon...".

Definition smoke_test_event (t : path) : event :=
  Run [executable h; str (t / "me.py")%path] (Some t) (Some 10%Z).

(** The script ran to completion and printed the marker or ended with
    status zero. *)
Definition smoke_test_passes : Prop :=
  ∃ rc out, me_py h = Completed rc out ∧
            (contains "SYSTEM TEST" out = true ∨ rc = 0%Z).

(** The script ran: to completion, or until the timeout stopped it. *)
Definition smoke_test_ran : bool :=
  match me_py h with
  | Completed _ _ => true
  | Fails e => bool_decide (cls e = TimeoutExpired)
  end.

(** The files after the smoke test: what the script did to them, if it
    ran. *)
Definition after_smoke_test (t : path) (f : fs) : fs :=
  if smoke_test_ran then me_py_effect h t f else f.

Lemma test_install_outcome (t : path) (f : fs) :
  ∃ (b : bool) (m : string),
    test_install h t f =
      Result [Print testing; smoke_test_event t; Print m]
             (after_smoke_test t f) (Return b) ∧
    (m = "[OK] Installation test passed" ↔ smoke_test_passes) ∧
    (¬ smoke_test_passes → String.prefix "[WARN] Test " m = true).
Proof.
  unfold test_install, smoke_test_passes, after_smoke_test, smoke_test_ran.
  unfold_prog.
  destruct (me_py h) as [rc out|e]; cbv beta iota delta [andb negb fst snd].
  - destruct (contains "SYSTEM TEST" out) eqn:Hc; cbv beta iota delta [orb].
    { eexists _, _. split; [reflexivity|].
      assert (∃ rc' out', Completed rc out = Completed rc' out' ∧
                (contains "SYSTEM TEST" out' = true ∨ rc' = 0%Z)) as Hp
        by eauto 10.
      split; [done|]. intros Hn. by destruct (Hn Hp). }
    destruct (rc =? 0)%Z eqn:Hrc.
    { apply Z.eqb_eq in Hrc.
      eexists _, _. split; [reflexivity|].
      assert (∃ rc' out', Completed rc out = Completed rc' out' ∧
                (contains "SYSTEM TEST" out' = true ∨ rc' = 0%Z)) as Hp
        by eauto 10.
      split; [done|]. intros Hn. by destruct (Hn Hp). }
    apply Z.eqb_neq in Hrc.
    eexists _, _. split; [reflexivity|]. split; [|done].
    split; [by intros [=]|].
    intros (rc' & out' & [= <- <-] & [?|?]); congruence.
  - destruct (bool_decide (cls e = TimeoutExpired));
      (eexists _, _; split; [reflexivity|]; split; [|done];
       split; [by intros [=]|]; by intros (rc' & out' & [=] & _)).
Qed.

Lemma start_daemon_log_head (t : path) (f : fs) :
  ∃ l, log (start_daemon h t f) = Print starting_daemon :: l.
Proof.
  unfold start_daemon. rewrite bind_print. cbn [prepend log app]. eauto.
Qed.

(** If [ev] shows in the log of a sequence whose head does not log it, the
    head returned and [ev] is in what came after. *)
Lemma reach_bind {A B} (ev : event) (Q : result B → Prop)
    (m : M A) (k : A → M B) (f : fs) :
  (∀ l r, Q r → Q (prepend l r)) →
  logs (λ x, x ≠ ev) m →
  (∀ a f', ev ∈ log (k a f') → Q (k a f')) →
  ev ∈ log ((m ≫= k) f) → Q ((m ≫= k) f).
Proof.
  intros Hmono Hm Hk. rewrite bind_unfold. specialize (Hm f).
  rewrite Forall_forall in Hm.
  destruct (m f) as [l f' [a|e|c]]; cbn [val log final prepend] in *.
  - intros [Hin|Hin]%elem_of_app; [by destruct (Hm _ Hin)|].
    apply (Hmono l), Hk, Hin.
  - intros Hin. by destruct (Hm _ Hin).
  - intros Hin. by destruct (Hm _ Hin).
Qed.

(** What [main] does once the smoke test has run. *)
Definition goes_on (a : args) (r : result unit) : Prop :=
  (start a = false →
     val r = Return tt ∧ last (log r) = Some (Print (summary (dir a)))) ∧
  (start a = true → Print starting_daemon ∈ log r).

Lemma goes_on_prepend a l r : goes_on a r → goes_on a (prepend l r).
Proof.
  intros [Hf Ht]. split.
  - intros Hs. destruct (Hf Hs) as [Hv Hl]. split; [done|].
    cbn [prepend log]. by rewrite last_app, Hl.
  - intros Hs. cbn [prepend log]. apply elem_of_app. right. by apply Ht.
Qed.

Lemma set_up_goes_on (a : args) (f : fs) :
  smoke_test_event (dir a) ∈ log (set_up a f) → goes_on a (set_up a f).
Proof.
  unfold set_up. cbv zeta.
  apply reach_bind; [apply goes_on_prepend| |intros _ f1].
  { unfold setup_directories, path_mkdir. prog. }
  apply reach_bind; [apply goes_on_prepend| |intros _ f2].
  { unfold create_config, shutil_copy. prog. }
  apply reach_bind; [apply goes_on_prepend| |intros _ f3].
  { unfold install_dependencies. prog. }
  apply reach_bind; [apply goes_on_prepend| |intros _ f4].
  { unfold check_ollama, urlopen_status. prog. }
  intros _. rewrite bind_unfold.
  destruct (test_install_outcome (dir a) f4) as (b & m & -> & _).
  cbn [val log final]. apply goes_on_prepend. unfold goes_on.
  generalize (after_smoke_test (dir a) f4). intros f5.
  destruct (start a); (split; [|]); try done; intros _.
  rewrite bind_unfold.
  destruct (start_daemon_log_head (dir a) f5) as [l Hl].
  rewrite (bind_unfold (start_daemon h (dir a))).
  destruct (start_daemon h (dir a) f5) as [ld fd [d|e|c]];
    cbn [log] in Hl; subst ld;
    cbv [mret M_ret ret print emit val log final prepend]; cbn [app];
    by left.
Qed.

Lemma get_the_code_runs_no_smoke_test (t t' : path) :
  logs (λ ev, ev ≠ smoke_test_event t') (get_the_code t).
Proof.
  unfold get_the_code, git_pull_in, check_git, clone_repo, download_zip,
    urlopen_read, zip_extractall, shutil_rmtree, path_rename.
  prog.
Qed.

Lemma main_goes_on (a : args) (f : fs) :
  smoke_test_event (dir a) ∈ log (main h a f) → goes_on a (main h a f).
Proof.
  unfold smoke_test_event at 1.
  destruct (decide below_minimum) as [Hb|Hb].
  { rewrite main_below by done. by in_log. }
  rewrite main_proceeds by done. cbn [prepend log].
  intros [Hin|Hin]%elem_of_app; [by revert Hin; in_log|].
  fold (smoke_test_event (dir a)) in Hin.
  apply goes_on_prepend. revert Hin.
  apply reach_bind; [apply goes_on_prepend| |intros _ f1].
  { apply get_the_code_runs_no_smoke_test. }
  apply set_up_goes_on.
Qed.

(** *** Which exceptions leave a step *)

(** An exception leaves a [try] whose handlers return only when no handler
    takes it. *)
Lemma try_except_Raise {A} (body : M A) (handles : exn → bool)
    (handler : exn → M A) (f : fs) (e : exn) :
  (∀ e', returns (handler e')) →
  val (try_except body handles handler f) = Raise e →
  handles e = false ∧ val (body f) = Raise e.
Proof.
  intros Hh. unfold try_except.
  destruct (body f) as [l f' [a|e'|c]]; cbn [val]; [done| |done].
  destruct (handles e') eqn:E; cbn [val final].
  - destruct (Hh e' f') as [a Ha]. rewrite Ha. done.
  - by intros [= ->].
Qed.

Lemma one_of_false (cs : list exn_class) (e : exn) (c : exn_class) :
  one_of cs e = false → c ∈ cs → cls e ≠ c.
Proof.
  unfold one_of. intros Hn%bool_decide_eq_false Hc Heq. apply Hn.
  by rewrite Heq.
Qed.

Lemma check_git_raise (f : fs) (e : exn) :
  val (check_git h f) = Raise e →
  cls e ≠ CalledProcessError ∧ cls e ≠ FileNotFoundError.
Proof.
  unfold check_git. intros [Hn _]%try_except_Raise; [|prog].
  split; apply (one_of_false _ _ _ Hn); set_solver.
Qed.

Lemma clone_repo_raise (t : path) (f : fs) (e : exn) :
  val (clone_repo h t f) = Raise e → cls e ≠ CalledProcessError.
Proof.
  unfold clone_repo. rewrite bind_print. cbn [prepend val].
  intros [Hn _]%try_except_Raise; [|prog].
  apply (one_of_false _ _ _ Hn). set_solver.
Qed.

Lemma install_dependencies_raise (t : path) (f : fs) (e : exn) :
  val (install_dependencies h t f) = Raise e → cls e ≠ CalledProcessError.
Proof.
  unfold install_dependencies. cbv zeta. rewrite bind_gets.
  destruct (exists_ f (t / "requirements.txt")%path); cbn [negb];
    rewrite bind_print; cbn [prepend val]; [|done].
  intros [Hn _]%try_except_Raise; [|prog].
  apply (one_of_false _ _ _ Hn). set_solver.
Qed.

Lemma setup_directories_raises (t : path) (f : fs) (e : exn) :
  mkdir_parents (t / "vault")%path f = inl e →
  setup_directories t f = Result [Mkdir (t / "vault")%path] f (Raise e).
Proof.
  intros Hm.
  assert (path_mkdir (t / "vault")%path f
          = Result [Mkdir (t / "vault")%path] f (Raise e)) as E.
  { unfold path_mkdir, fs_op. by rewrite Hm. }
  unfold setup_directories, required_dirs. cbn [for_each].
  rewrite bind_unfold, (bind_unfold (path_mkdir (t / "vault")%path)), E.
  reflexivity.
Qed.

(** What the handlers of the three steps with a list of classes do with an
    exception of the call itself: the listed classes are answered by [False],
    every other class leaves the step. *)
Lemma check_git_fails (f : fs) (e : exn) :
  git_version h = Fails e →
  val (check_git h f) =
  if one_of [CalledProcessError; FileNotFoundError] e then Return false
  else Raise e.
Proof.
  intros Hv. unfold check_git. unfold_prog. rewrite Hv.
  cbv beta iota. by destruct (one_of _ e).
Qed.

Lemma clone_repo_fails (t : path) (f : fs) (e : exn) :
  git_clone h = Fails e →
  val (clone_repo h t f) =
  if one_of [CalledProcessError] e then Return false else Raise e.
Proof.
  intros Hv. unfold clone_repo. rewrite bind_print. cbn [prepend val].
  unfold_prog. rewrite Hv. cbv beta iota. by destruct (one_of _ e).
Qed.

Lemma install_dependencies_fails (t : path) (f : fs) (e : exn) :
  exists_ f (t / "requirements.txt")%path = true →
  pip_install h = Fails e →
  val (install_dependencies h t f) =
  if one_of [CalledProcessError] e then Return false else Raise e.
Proof.
  intros Hr Hv. unfold install_dependencies. cbv zeta.
  rewrite bind_gets, Hr. cbn [negb]. rewrite bind_print. cbn [prepend val].
  unfold_prog. rewrite Hv. cbv beta iota. by destruct (one_of _ e).
Qed.

(** A child that ends with a status other than 0 under [check=True] is a
    [CalledProcessError], which all three catch. *)
Lemma check_git_completed (f : fs) (rc : Z) (out : string) :
  git_version h = Completed rc out →
  val (check_git h f) = Return (rc =? 0)%Z.
Proof.
  intros Hv. unfold check_git. unfold_prog. rewrite Hv.
  cbv beta iota. by destruct (rc =? 0)%Z.
Qed.

Lemma clone_repo_completed (t : path) (f : fs) (rc : Z) (out : string) :
  git_clone h = Completed rc out →
  val (clone_repo h t f) = Return (rc =? 0)%Z.
Proof.
  intros Hv. unfold clone_repo. rewrite bind_print. cbn [prepend val].
  unfold_prog. rewrite Hv. cbv beta iota. by destruct (rc =? 0)%Z.
Qed.

Lemma install_dependencies_completed_val (t : path) (f : fs) (rc : Z)
    (out : string) :
  exists_ f (t / "requirements.txt")%path = true →
  pip_install h = Completed rc out →
  val (install_dependencies h t f) = Return (rc =? 0)%Z.
Proof.
  intros Hr Hv. unfold install_dependencies. cbv zeta.
  rewrite bind_gets, Hr. cbn [negb]. rewrite bind_print. cbn [prepend val].
  unfold_prog. rewrite Hv. cbv beta iota. by destruct (rc =? 0)%Z.
Qed.

(** The directory step stops at the first directory that cannot be made. *)
Lemma for_each_app {A} (xs ys : list A) (body : A → M unit) (f : fs) :
  for_each (xs ++ ys) body f = (for_each xs body;; for_each ys body) f.
Proof.
  revert f. induction xs as [|x xs IH]; intros f; cbn [for_each app].
  - rewrite bind_unfold. cbn [ret val log final]. by rewrite prepend_nil.
  - rewrite bind_assoc. apply bind_ext. intros _ f'. apply IH.
Qed.

Lemma setup_directories_raises_at (t : path) (f : fs) (e : exn)
    (made : list path) (d : path) (rest : list path) :
  required_dirs t = (made ++ d :: rest)%list →
  val (for_each made path_mkdir f) = Return tt →
  mkdir_parents d (final (for_each made path_mkdir f)) = inl e →
  val (setup_directories t f) = Raise e.
Proof.
  intros Hd Hv Hm. unfold setup_directories. rewrite Hd.
  rewrite val_bind, for_each_app, val_bind, Hv. cbn [for_each].
  rewrite val_bind. unfold path_mkdir at 1, fs_op. by rewrite Hm.
Qed.

Lemma for_each_mkdir_raises (ds : list path) : ∀ (f : fs) (e : exn),
  val (for_each ds path_mkdir f) = Raise e →
  ∃ d, d ∈ ds ∧
       last (log (for_each ds path_mkdir f)) = Some (Mkdir d) ∧
       mkdir_parents d (final (for_each ds path_mkdir f)) = inl e.
Proof.
  induction ds as [|d ds IH]; intros f e; cbn [for_each].
  { intros Hv. cbv in Hv. discriminate Hv. }
  rewrite bind_unfold. destruct (mkdir_parents d f) as [e'|f1] eqn:Em.
  - assert (path_mkdir d f = Result [Mkdir d] f (Raise e')) as ->
      by (unfold path_mkdir, fs_op; by rewrite Em).
    cbn [val log final]. intros [= ->]. exists d. split; [left|done].
  - assert (path_mkdir d f = Result [Mkdir d] f1 (Return tt)) as ->
      by (unfold path_mkdir, fs_op; by rewrite Em).
    cbn [val log final prepend]. intros Hv.
    destruct (IH f1 e Hv) as (d' & Hin & Hl & Hm).
    exists d'. split; [by right|]. split; [|done].
    by rewrite last_app, Hl.
Qed.

Lemma start_daemon_raises (t : path) (f : fs) (e : exn) :
  exists_ f (t / "daemon.py")%path = true →
  popen h = Some e →
  val (start_daemon h t f) = Raise e.
Proof.
  intros Hd Hp. unfold start_daemon, subprocess_popen. cbv zeta.
  rewrite bind_print. cbn [prepend val]. rewrite bind_gets, Hd. cbn [negb].
  rewrite val_bind. destruct (bool_decide (platform h = "win32"));
    unfold_prog; by rewrite Hp.
Qed.

(** *** Runs that reach the summary *)

Definition ends_with {A} (ev : event) (m : M A) : Prop :=
  ∀ f b, val (m f) = Return b → last (log (m f)) = Some ev.

Lemma ends_with_print s : ends_with (Print s) (print s).
Proof. by intros f b _. Qed.

Lemma ends_with_bind {A B} ev (m : M A) (k : A → M B) :
  (∀ a, ends_with ev (k a)) → ends_with ev (m ≫= k).
Proof.
  intros Hk f b (a & _ & Hb & _ & ->)%bind_Return.
  rewrite last_app. by rewrite (Hk a _ b Hb).
Qed.

Lemma set_up_ends_with_summary a :
  ends_with (Print (summary (dir a))) (set_up a).
Proof.
  unfold set_up. cbv zeta.
  repeat (apply ends_with_bind; intros ?). apply ends_with_print.
Qed.

End Steps.

End Logic.

(** ** Concrete hosts and file systems *)

Module Example.
Import Py FS Host Installer.

(** [/home/user] and the default target below it. *)
Definition home : path := ["user"; "home"].
Definition target : path := (home / DEFAULT_DIR)%path.

Definition upstream : list member :=
  [ ([".git"], Dir);
    (["me.py"], File "print('SYSTEM TEST')");
    (["daemon.py"], File "while True: pass");
    (["config.example.py"], File "VOICE = 'default'") ].

Definition upstream_zip : list member :=
  [ (["claude-agent-main"], Dir);
    (["me.py"; "claude-agent-main"], File "print('SYSTEM TEST')");
    (["daemon.py"; "claude-agent-main"], File "while True: pass");
    (["config.example.py"; "claude-agent-main"], File "VOICE = 'default'") ].

(** A host with git; a later pull brings a new [me.py], and running
    [me.py] leaves a [__pycache__] folder in the target. *)
Definition with_git : host := {|
  version_info := (3, 11, 4)%Z;
  platform := "linux";
  executable := "/usr/bin/python3";
  git_version := Completed 0 "git version 2.43.0";
  git_clone := Completed 0 EmptyString;
  repo_tree := upstream;
  clone_leftover := λ _ f, f;
  git_pull := Completed 0 "Updating 1a2b3c4..5d6e7f8";
  pull_effect := λ t f, <[(t / "me.py")%path := File "print('SYSTEM TEST v2')"]> f;
  archive := Body (Some upstream_zip);
  pip_install := Completed 0 EmptyString;
  pip_effect := λ _ f, f;
  ollama_tags := Unreachable (Exn URLError "<urlopen error [Errno 111] Connection refused>");
  me_py := Completed 0 "SYSTEM TEST";
  me_py_effect := λ t f, <[(t / "__pycache__")%path := Dir]> f;
  popen := None
|}.

(** The same host without git. *)
Definition without_git : host := {|
  version_info := version_info with_git;
  platform := platform with_git;
  executable := executable with_git;
  git_version :=
    Fails (Exn FileNotFoundError "[Errno 2] No such file or directory: 'git'");
  git_clone := git_clone with_git;
  repo_tree := repo_tree with_git;
  clone_leftover := clone_leftover with_git;
  git_pull := git_pull with_git;
  pull_effect := pull_effect with_git;
  archive := archive with_git;
  pip_install := pip_install with_git;
  pip_effect := pip_effect with_git;
  ollama_tags := ollama_tags with_git;
  me_py := me_py with_git;
  me_py_effect := me_py_effect with_git;
  popen := popen with_git
|}.

(** A host whose interpreter is Python 3.9. *)
Definition old_python : host := {|
  version_info := (3, 9, 18)%Z;
  platform := platform with_git;
  executable := executable with_git;
  git_version := git_version with_git;
  git_clone := git_clone with_git;
  repo_tree := repo_tree with_git;
  clone_leftover := clone_leftover with_git;
  git_pull := git_pull with_git;
  pull_effect := pull_effect with_git;
  archive := archive with_git;
  pip_install := pip_install with_git;
  pip_effect := pip_effect with_git;
  ollama_tags := ollama_tags with_git;
  me_py := me_py with_git;
  me_py_effect := me_py_effect with_git;
  popen := popen with_git
|}.

Definition defaults : args := Args target false false.

(** Nothing installed yet. *)
Definition fresh : fs := {[ ["home"] := Dir; home := Dir ]}.

(** An install with a config the user has edited. *)
Definition installed : fs :=
  {[ ["home"] := Dir; home := Dir; target := Dir;
     (target / "me.py")%path := File "print('SYSTEM TEST')";
     (target / "config.example.py")%path := File "VOICE = 'default'";
     (target / "config.py")%path := File "VOICE = 'mine'" ]}.

(** An install without config and without template. *)
Definition bare : fs :=
  {[ ["home"] := Dir; home := Dir; target := Dir;
     (target / "me.py")%path := File "print('SYSTEM TEST')" ]}.

(** An install in which [vault] is a regular file. *)
Definition vault_is_a_file : fs :=
  <[(target / "vault")%path := File "shopping list"]> installed.

(** An install in which [outbox] is a regular file. *)
Definition outbox_is_a_file : fs :=
  <[(target / "outbox")%path := File "note to self"]> installed.

(** An install without config in which the template is a directory. *)
Definition template_is_a_directory : fs :=
  <[(target / "config.example.py")%path := Dir]> bare.

(** No git and no network. *)
Definition offline : host := {|
  version_info := version_info with_git;
  platform := platform with_git;
  executable := executable with_git;
  git_version := git_version without_git;
  git_clone := git_clone with_git;
  repo_tree := repo_tree with_git;
  clone_leftover := clone_leftover with_git;
  git_pull := git_pull with_git;
  pull_effect := pull_effect with_git;
  archive :=
    NoBody (Exn URLError "<urlopen error [Errno -2] Name or service not known>");
  pip_install := pip_install with_git;
  pip_effect := pip_effect with_git;
  ollama_tags := ollama_tags with_git;
  me_py := me_py with_git;
  me_py_effect := me_py_effect with_git;
  popen := popen with_git
|}.

(** No git, and an archive whose top folder has another name. *)
Definition other_folder : list member :=
  [ (["claude-agent-master"], Dir);
    (["me.py"; "claude-agent-master"], File "print('SYSTEM TEST')") ].

Definition odd_archive : host := {|
  version_info := version_info with_git;
  platform := platform with_git;
  executable := executable with_git;
  git_version := git_version without_git;
  git_clone := git_clone with_git;
  repo_tree := repo_tree with_git;
  clone_leftover := clone_leftover with_git;
  git_pull := git_pull with_git;
  pull_effect := pull_effect with_git;
  archive := Body (Some other_folder);
  pip_install := pip_install with_git;
  pip_effect := pip_effect with_git;
  ollama_tags := ollama_tags with_git;
  me_py := Completed 2 EmptyString;
  me_py_effect := me_py_effect with_git;
  popen := popen with_git
|}.

(** [fresh] after that archive was unpacked into [/home/user]. *)
Definition unpacked : fs :=
  {[ ["home"] := Dir; home := Dir;
     (home / "claude-agent-master")%path := Dir;
     (home / "claude-agent-master" / "me.py")%path
       := File "print('SYSTEM TEST')" ]}.

(** A host on which the daemon cannot be started. *)
Definition no_daemon : host := {|
  version_info := version_info with_git;
  platform := platform with_git;
  executable := executable with_git;
  git_version := git_version with_git;
  git_clone := git_clone with_git;
  repo_tree := repo_tree with_git;
  clone_leftover := clone_leftover with_git;
  git_pull := git_pull with_git;
  pull_effect := pull_effect with_git;
  archive := archive with_git;
  pip_install := pip_install with_git;
  pip_effect := pip_effect with_git;
  ollama_tags := ollama_tags with_git;
  me_py := me_py with_git;
  me_py_effect := me_py_effect with_git;
  popen := Some (Exn PermissionError "[Errno 13] Permission denied")
|}.

(** Nothing installed, and a regular file where the target should be. *)
Definition target_is_a_file : fs := <[target := File "to do"]> fresh.

(** An install with the daemon script. *)
Definition with_daemon : fs :=
  <[(target / "daemon.py")%path := File "while True: pass"]> installed.

End Example.

(** ** The claims of the specification *)

Module Claims.
Import Py FS FSFacts Host Installer Logic.

(** The host runtime is 3.10 or newer. *)
Definition meets_minimum (h : host) : Prop :=
  (3 < major h ∨ (major h = 3 ∧ 10 ≤ minor h))%Z.

(** C6. The environment check compares the host runtime with 3.10: below it,
    [main] prints the error and exits with status 1, having done nothing
    else; at or above it, the check passes and [main] goes on to acquire the
    source and set up.  Every version is on one of the two sides. *)
Theorem version_check_gates_pipeline (h : host) (a : args) (f : fs) :
  (below_minimum h →
     main h a f = Result [Print banner; Print (python_error h)] f (Exit 1%Z) ∧
     exit_status (main h a f) = 1%Z) ∧
  (meets_minimum h →
     val (check_python h f) = Return true ∧
     main h a f =
     prepend [Print banner; Print (python_ok h);
              Print (installing_to (dir a))]
             ((get_the_code h (dir a);; set_up h a) f)) ∧
  (below_minimum h ∨ meets_minimum h).
Proof.
  split; [|split].
  - intros Hv. pose proof (main_below h a f Hv) as E.
    split; [done|]. by rewrite E.
  - intros Hv. assert (¬ below_minimum h) as Hn.
    { unfold below_minimum, meets_minimum in *.
      lia. }
    split; [by rewrite check_python_meets|by apply main_proceeds].
  - unfold below_minimum, meets_minimum. lia.
Qed.

Lemma version_check_gates_pipeline_witness :
  exit_status (main Example.old_python Example.defaults Example.fresh) = 1%Z ∧
  val (check_python Example.with_git Example.fresh) = Return true.
Proof.
  split.
  - apply (version_check_gates_pipeline Example.old_python).
    unfold below_minimum, major, minor. simpl. lia.
  - apply (version_check_gates_pipeline Example.with_git Example.defaults).
    unfold meets_minimum, major, minor. simpl. lia.
Defined.

(** C2. When [config.py] exists in the target, the config step only reports
    it: the file system, and so the file, is left as it was, whatever the
    template holds.  A copy is attempted only when [config.py] does not
    exist, and then from the template onto it. *)
Theorem existing_config_never_overwritten (t : path) (f : fs) :
  (exists_ f (t / "config.py")%path = true →
     create_config t f =
       Result [Print "[OK] Config already exists"] f (Return tt) ∧
     final (create_config t f) !! (t / "config.py")%path
       = f !! (t / "config.py")%path) ∧
  (∀ src dst, Copy src dst ∈ log (create_config t f) →
     exists_ f (t / "config.py")%path = false ∧
     src = (t / "config.example.py")%path ∧ dst = (t / "config.py")%path).
Proof.
  split.
  - intros Hc. rewrite create_config_existing by done. done.
  - intros src dst.
    destruct (exists_ f (t / "config.py")%path) eqn:Hc.
    { rewrite create_config_existing by done.
      intros [=]%list_elem_of_singleton. }
    destruct (exists_ f (t / "config.example.py")%path) eqn:He.
    2: { rewrite create_config_nothing by done. by intros ?%elem_of_nil. }
    rewrite create_config_copies by done.
    destruct (copy _ _ f); cbn [log].
    + by intros [= -> ->]%list_elem_of_singleton.
    + intros [E|E%list_elem_of_singleton]%elem_of_cons; [|done].
      by injection E as -> ->.
Qed.

Lemma existing_config_never_overwritten_witness :
  final (create_config Example.target Example.installed)
    !! (Example.target / "config.py")%path = Some (File "VOICE = 'mine'").
Proof.
  rewrite (proj2 (proj1 (existing_config_never_overwritten
                           Example.target Example.installed) eq_refl)).
  reflexivity.
Defined.

(** C10. With neither [config.py] nor the template in the target, the config
    step prints nothing, attempts nothing, changes nothing and returns; and
    the config step never calls [sys.exit], whatever it finds. *)
Theorem no_template_no_config_is_silent (t : path) (f : fs) :
  (exists_ f (t / "config.py")%path = false →
   exists_ f (t / "config.example.py")%path = false →
   create_config t f = Result [] f (Return tt)) ∧
  (∀ c, val (create_config t f) ≠ Exit c).
Proof.
  split.
  - apply create_config_nothing.
  - apply create_config_never_exits.
Qed.

Lemma no_template_no_config_is_silent_witness :
  create_config Example.target Example.bare
  = Result [] Example.bare (Return tt).
Proof.
  apply (no_template_no_config_is_silent Example.target Example.bare);
    reflexivity.
Defined.




(** C1, as the code has it.  [main] calls [sys.exit] in two cases only, both
    with status 1: the version check fails, or the target is not installed
    and both ways to the source are exhausted (git unavailable or the clone
    failed, and the archive download failed); in either case the directory
    step has not begun: no [mkdir] of a required directory was called (the
    extraction of the archive may have made directories before).  A run
    that returns has printed the summary last.  (A run can also end by an
    exception that no step handles.) *)
Theorem exit_only_on_version_or_acquisition (h : host) (a : args) (f : fs) :
  (∀ c, val (main h a f) = Exit c →
     c = 1%Z ∧
     Forall (λ ev, is_mkdir ev = false) (log (main h a f)) ∧
     (below_minimum h ∨
      (installed_at (dir a) f = false ∧ acquisition_exhausted h (dir a) f))) ∧
  (val (main h a f) = Return tt →
     last (log (main h a f)) = Some (Print (summary (dir a)))).
Proof.
  destruct (decide (below_minimum h)) as [Hb|Hb].
  - rewrite main_below by done. cbn [val log]. split; [|done].
    intros c [= <-]. split; [done|]. split; [by repeat constructor|by left].
  - rewrite main_proceeds by done. cbn [prepend val log]. split.
    + intros c Hx.
      apply bind_Exit in Hx as [[Hx Hl]|(u & _ & Hx)];
        [|by apply set_up_never_exits in Hx].
      apply get_the_code_exit in Hx as (-> & Hi & Hx). split; [done|].
      split; [|by right]. rewrite Hl.
      repeat (constructor; [done|]). apply get_the_code_makes_no_directory.
    + intros Hr. rewrite last_app.
      erewrite (ends_with_bind (Print (summary (dir a)))); [done| |done].
      intros _. apply set_up_ends_with_summary.
Qed.

Lemma exit_only_on_version_or_acquisition_witness :
  Forall (λ ev, is_mkdir ev = false)
         (log (main Example.offline Example.defaults Example.fresh)) ∧
  last (log (main Example.with_git Example.defaults Example.fresh))
  = Some (Print (summary Example.target)).
Proof.
  split.
  - apply (proj1 (exit_only_on_version_or_acquisition
                    Example.offline Example.defaults Example.fresh) 1%Z).
    vm_compute. reflexivity.
  - apply (proj2 (exit_only_on_version_or_acquisition
                    Example.with_git Example.defaults Example.fresh)).
    vm_compute. reflexivity.
Defined.

(** C1 as stated fails: on an install in which [vault] is a regular file,
    the version check passes and no acquisition is attempted, let alone
    exhausted, yet [mkdir] raises [FileExistsError], nothing handles it, and
    the process ends with status 1 without the summary. *)
Lemma unhandled_mkdir_error_aborts_run :
  val (main Example.without_git Example.defaults Example.vault_is_a_file)
  = Raise (Exn FileExistsError
             "[Errno 17] File exists: '/home/user/claude-agent/vault'") ∧
  exit_status (main Example.without_git Example.defaults Example.vault_is_a_file)
  = 1%Z ∧
  ¬ below_minimum Example.without_git ∧
  installed_at Example.target Example.vault_is_a_file = true ∧
  ¬ acquisition_exhausted Example.without_git Example.target
      Example.vault_is_a_file ∧
  Print (summary Example.target)
  ∉ log (main Example.without_git Example.defaults Example.vault_is_a_file).
Proof.
  split; [vm_compute; reflexivity|]. split; [vm_compute; reflexivity|].
  split; [unfold below_minimum, major, minor; simpl; lia|].
  split; [vm_compute; reflexivity|]. split.
  - intros [[_ H]|[H _]]; vm_compute in H; discriminate.
  - apply (bool_decide_unpack _). vm_compute. exact I.
Qed.

(** C9, as the code has it.  [download_zip] reports success exactly when
    nothing raises: the download gives a zip archive, its extraction
    succeeds, and then either the folder [claude-agent-main] is not there,
    or it is there and the removal of an existing target and the rename of
    the folder to the target both succeed.  When the folder is not there,
    nothing is removed or renamed, the file system is as the extraction left
    it, and a run that came here for lack of git goes on to the set-up
    steps.  In any download, the target is removed only when the extracted
    folder exists (and the target does). *)
Theorem download_succeeds_unless_a_step_raises (h : host) (t : path) :
  (∀ f : fs,
     val (download_zip h t f) = Return true ↔
     ∃ ms f1, archive h = Body (Some ms) ∧
              extractall ms (parent t) f = inr f1 ∧
              (exists_ f1 (extracted_folder t) = false ∨
               (exists_ f1 (extracted_folder t) = true ∧
                exists_ f1 t = false ∧
                ∃ f3, rename (extracted_folder t) t f1 = inr f3) ∨
               (exists_ f1 (extracted_folder t) = true ∧
                exists_ f1 t = true ∧
                ∃ f2 f3, rmtree t f1 = inr f2 ∧
                         rename (extracted_folder t) t f2 = inr f3))) ∧
  (∀ (f f1 : fs) (ms : list member),
     archive h = Body (Some ms) →
     extractall ms (parent t) f = inr f1 →
     exists_ f1 (extracted_folder t) = false →
     download_zip h t f =
       Result [Print downloading; Urlopen REPO_ZIP 30%Z;
               Print "[...] Extracting..."; Extractall (parent t);
               Print "[OK] Downloaded and extracted"] f1 (Return true) ∧
     (∀ a, dir a = t → ¬ below_minimum h → installed_at t f = false →
           val (check_git h f) = Return false →
           main h a f =
           prepend [Print banner; Print (python_ok h);
                    Print (installing_to t); git_version_event;
                    Print git_not_found; Print downloading;
                    Urlopen REPO_ZIP 30%Z; Print "[...] Extracting...";
                    Extractall (parent t);
                    Print "[OK] Downloaded and extracted"]
                   (set_up h a f1))) ∧
  (∀ (f : fs) (p : path),
     Rmtree p ∈ log (download_zip h t f) →
     p = t ∧
     ∃ ms f1, archive h = Body (Some ms) ∧
              extractall ms (parent t) f = inr f1 ∧
              exists_ f1 (extracted_folder t) = true ∧
              exists_ f1 t = true).
Proof.
  split; [|split].
  - intros f. destruct (archive h) as [e|[ms|]] eqn:Ha.
    + rewrite (download_zip_no_body h t f e Ha). cbn [val].
      split; [done|]. by intros (ms & f1 & [=] & _).
    + destruct (extractall ms (parent t) f) as [e|f1] eqn:He.
      { rewrite (download_zip_extraction_failed h t f ms e Ha He). cbn [val].
        split; [done|]. intros (ms' & f1 & [= <-] & He' & _). congruence. }
      rewrite (download_zip_unpacked h t f f1 ms Ha He).
      destruct (exists_ f1 (extracted_folder t)) eqn:Hx.
      2: { cbn [val]. split; [|done]. intros _. exists ms, f1. eauto. }
      unfold place. destruct (exists_ f1 t) eqn:Ht.
      * destruct (rmtree t f1) as [e|f2] eqn:Er.
        { cbn [val]. split; [done|].
          intros (ms' & f1' & [= <-] & He' & H). rewrite He in He'.
          injection He' as <-.
          destruct H as [H|[(_ & H & _)|(_ & _ & f2 & f3 & H & _)]];
            congruence. }
        destruct (rename (extracted_folder t) t f2) as [e|f3] eqn:En.
        { cbn [val]. split; [done|].
          intros (ms' & f1' & [= <-] & He' & H). rewrite He in He'.
          injection He' as <-.
          destruct H as [H|[(_ & H & _)|(_ & _ & f2' & f3 & H & H')]];
            congruence. }
        cbn [val]. split; [|done]. intros _. exists ms, f1.
        split; [done|]. split; [done|]. right. right. eauto 10.
      * destruct (rename (extracted_folder t) t f1) as [e|f3] eqn:En.
        { cbn [val]. split; [done|].
          intros (ms' & f1' & [= <-] & He' & H). rewrite He in He'.
          injection He' as <-.
          destruct H as [H|[(_ & _ & f3 & H)|(_ & H & _)]]; congruence. }
        cbn [val]. split; [|done]. intros _. exists ms, f1.
        split; [done|]. split; [done|]. right. left. eauto 10.
    + rewrite (download_zip_not_a_zip h t f Ha). cbn [val].
      split; [done|]. by intros (ms & f1 & [=] & _).
  - intros f f1 ms Ha He Hx.
    pose proof (download_zip_without_folder h t f f1 ms Ha He Hx) as Hd.
    split; [done|]. intros a <- Hv Hi Hg.
    rewrite main_without_git by done. by rewrite Hd.
  - intros f p. apply download_zip_rmtree.
Qed.

Lemma download_succeeds_unless_a_step_raises_witness :
  val (download_zip Example.odd_archive Example.target Example.fresh)
  = Return true ∧
  final (download_zip Example.odd_archive Example.target Example.fresh)
    !! (Example.home / "claude-agent-master" / "me.py")%path
  = Some (File "print('SYSTEM TEST')").
Proof.
  destruct (proj1 (proj2 (download_succeeds_unless_a_step_raises
                            Example.odd_archive Example.target))
              Example.fresh
              (from_inr Example.fresh
                 (extractall Example.other_folder Example.home Example.fresh))
              Example.other_folder eq_refl) as [H _].
  - apply inr_from_inr. vm_compute. reflexivity.
  - vm_compute. reflexivity.
  - rewrite H. split; [reflexivity|]. vm_compute. reflexivity.
Defined.

(** C9 as stated fails: download and extraction can raise nothing and the
    download still be reported as failed.  Here a regular file is where the
    target should be; the archive unpacks beside it, the folder
    [claude-agent-main] is there, and the removal of the target raises
    [NotADirectoryError], which the handler turns into [False]; the run
    exits with status 1. *)
Lemma unpacked_archive_can_still_fail :
  archive Example.without_git = Body (Some Example.upstream_zip) ∧
  is_inr (extractall Example.upstream_zip Example.home
            Example.target_is_a_file) = true ∧
  val (download_zip Example.without_git Example.target
         Example.target_is_a_file) = Return false ∧
  last (log (download_zip Example.without_git Example.target
               Example.target_is_a_file))
  = Some (Print ("[ERROR] Download failed: "
                 ++ "[Errno 20] Not a directory: '/home/user/claude-agent'")) ∧
  val (main Example.without_git Example.defaults Example.target_is_a_file)
  = Exit 1%Z.
Proof.
  split; [reflexivity|]. split; [vm_compute; reflexivity|].
  split; [vm_compute; reflexivity|]. split; vm_compute; reflexivity.
Qed.

(** C4. On a target that is not installed, when git is not available the
    run announces the fallback and downloads the archive; it exits, with
    status 1, exactly when the download fails, and when the download
    succeeds it goes on with the set-up steps on what the download left. *)
Theorem missing_git_falls_back_to_archive (h : host) (a : args) (f : fs) :
  ¬ below_minimum h →
  installed_at (dir a) f = false →
  val (check_git h f) = Return false →
  (∃ l, log (main h a f) =
        ([Print banner; Print (python_ok h); Print (installing_to (dir a));
          git_version_event; Print git_not_found; Print downloading;
          Urlopen REPO_ZIP 30%Z] ++ l)%list) ∧
  (∀ c, val (main h a f) = Exit c ↔
        c = 1%Z ∧ val (download_zip h (dir a) f) = Return false) ∧
  (val (download_zip h (dir a) f) = Return true →
   main h a f =
   prepend ([Print banner; Print (python_ok h); Print (installing_to (dir a));
             git_version_event; Print git_not_found]
            ++ log (download_zip h (dir a) f))%list
           (set_up h a (final (download_zip h (dir a) f)))).
Proof.
  intros Hv Hi Hg. rewrite main_without_git by done.
  destruct (download_zip_log_head h (dir a) f) as [l Hl].
  destruct (download_zip_returns h (dir a) f) as [z Hz].
  rewrite Hz, Hl. cbn [prepend log val app]. split; [by eauto|].
  destruct z; (split; [|done]).
  - intros c. split; [|by intros [_ [=]]].
    intros Hx. by apply set_up_never_exits in Hx.
  - intros c. split; [by intros [= <-]|by intros [-> _]].
Qed.

Lemma missing_git_falls_back_to_archive_witness :
  val (main Example.offline Example.defaults Example.fresh) = Exit 1%Z ∧
  ∀ c, val (main Example.without_git Example.defaults Example.fresh) ≠ Exit c.
Proof.
  split.
  - apply (proj1 (proj2 (missing_git_falls_back_to_archive
                           Example.offline Example.defaults Example.fresh
                           ltac:(unfold below_minimum, major, minor; simpl; lia)
                           eq_refl eq_refl))).
    split; [done|]. vm_compute. reflexivity.
  - intros c Hc.
    apply (proj1 (proj2 (missing_git_falls_back_to_archive
                           Example.without_git Example.defaults Example.fresh
                           ltac:(unfold below_minimum, major, minor; simpl; lia)
                           eq_refl eq_refl))) in Hc as [_ Hc].
    vm_compute in Hc. discriminate.
Defined.





(** C3, as the code has it.  Three steps convert every exception of their
    external operations into a message and a result: the archive download,
    the service probe and the smoke test always return.  Three steps handle
    only the classes they list.  [check_git] answers [CalledProcessError]
    and [FileNotFoundError] by [False], [clone_repo] and
    [install_dependencies] answer [CalledProcessError] by [False] (this is
    also what a child that ends with a status other than 0 gives); an
    exception of any other class leaves the step as it is, and nothing else
    leaves it.  Three steps have no handler: an exception of any of the five
    [mkdir] calls, of the copy of the template or of [Popen] leaves
    [setup_directories], [create_config] and [start_daemon] as it is. *)
Theorem handlers_cover_only_some_steps (h : host) (t : path) (f : fs) :
  ((∃ b, val (download_zip h t f) = Return b) ∧
   (∃ b, val (check_ollama h f) = Return b) ∧
   (∃ b, val (test_install h t f) = Return b)) ∧
  ((∀ e, git_version h = Fails e →
         val (check_git h f) =
         if one_of [CalledProcessError; FileNotFoundError] e
         then Return false else Raise e) ∧
   (∀ e, git_clone h = Fails e →
         val (clone_repo h t f) =
         if one_of [CalledProcessError] e then Return false else Raise e) ∧
   (∀ e, exists_ f (t / "requirements.txt")%path = true →
         pip_install h = Fails e →
         val (install_dependencies h t f) =
         if one_of [CalledProcessError] e then Return false else Raise e) ∧
   (∀ rc out, git_version h = Completed rc out →
         val (check_git h f) = Return (rc =? 0)%Z) ∧
   (∀ rc out, git_clone h = Completed rc out →
         val (clone_repo h t f) = Return (rc =? 0)%Z) ∧
   (∀ rc out, exists_ f (t / "requirements.txt")%path = true →
         pip_install h = Completed rc out →
         val (install_dependencies h t f) = Return (rc =? 0)%Z) ∧
   (∀ e, val (check_git h f) = Raise e →
         cls e ≠ CalledProcessError ∧ cls e ≠ FileNotFoundError) ∧
   (∀ e, val (clone_repo h t f) = Raise e → cls e ≠ CalledProcessError) ∧
   (∀ e, val (install_dependencies h t f) = Raise e →
         cls e ≠ CalledProcessError)) ∧
  ((∀ e made d rest,
         required_dirs t = (made ++ d :: rest)%list →
         val (for_each made path_mkdir f) = Return tt →
         mkdir_parents d (final (for_each made path_mkdir f)) = inl e →
         val (setup_directories t f) = Raise e) ∧
   (∀ e, exists_ f (t / "config.py")%path = false →
         exists_ f (t / "config.example.py")%path = true →
         copy (t / "config.example.py")%path (t / "config.py")%path f = inl e →
         val (create_config t f) = Raise e) ∧
   (∀ e, exists_ f (t / "daemon.py")%path = true →
         popen h = Some e →
         val (start_daemon h t f) = Raise e)).
Proof.
  split; [|split].
  - split; [apply download_zip_returns|].
    split; [apply check_ollama_returns|apply test_install_returns].
  - split; [apply check_git_fails|]. split; [apply clone_repo_fails|].
    split; [apply install_dependencies_fails|].
    split; [apply check_git_completed|].
    split; [apply clone_repo_completed|].
    split; [apply install_dependencies_completed_val|].
    split; [apply check_git_raise|].
    split; [apply clone_repo_raise|apply install_dependencies_raise].
  - split; [|split].
    + intros e made d rest. apply setup_directories_raises_at.
    + intros e Hc Hx He. rewrite create_config_copies by done. by rewrite He.
    + apply start_daemon_raises.
Qed.

Lemma handlers_cover_only_some_steps_witness :
  val (start_daemon Example.no_daemon Example.target Example.with_daemon)
  = Raise (Exn PermissionError "[Errno 13] Permission denied") ∧
  val (setup_directories Example.target Example.outbox_is_a_file)
  = Raise (Exn FileExistsError
             "[Errno 17] File exists: '/home/user/claude-agent/outbox'") ∧
  val (check_git Example.no_daemon Example.fresh) = Return true.
Proof.
  split; [|split].
  - apply (proj2 (proj2 (proj2 (proj2 (handlers_cover_only_some_steps
             Example.no_daemon Example.target Example.with_daemon)))));
      reflexivity.
  - apply (proj1 (proj2 (proj2 (handlers_cover_only_some_steps
             Example.no_daemon Example.target Example.outbox_is_a_file)))
           _ [(Example.target / "vault")%path;
              (Example.target / "vault" / "Daemon Thoughts")%path]
           (Example.target / "outbox")%path
           [(Example.target / "memory")%path;
            (Example.target / "snapshots")%path]).
    + reflexivity.
    + vm_compute. reflexivity.
    + vm_compute. reflexivity.
  - apply (proj1 (proj2 (proj2 (proj2 (proj1 (proj2
             (handlers_cover_only_some_steps
                Example.no_daemon Example.target Example.fresh))))))
           0%Z "git version 2.43.0").
    reflexivity.
Defined.

(** C3 as stated fails: on an install without config in which the template
    is a directory, the copy in [create_config] raises [IsADirectoryError];
    the step has no handler, the exception crosses its boundary and that of
    [main], and the run ends without [sys.exit] and without the summary. *)
Lemma unhandled_copy_error_crosses_step_boundary :
  val (create_config Example.target Example.template_is_a_directory)
  = Raise (Exn IsADirectoryError
             ("[Errno 21] Is a directory: "
              ++ "'/home/user/claude-agent/config.example.py'")) ∧
  val (main Example.with_git Example.defaults Example.template_is_a_directory)
  = Raise (Exn IsADirectoryError
             ("[Errno 21] Is a directory: "
              ++ "'/home/user/claude-agent/config.example.py'")) ∧
  Print (summary Example.target)
  ∉ log (main Example.with_git Example.defaults
           Example.template_is_a_directory).
Proof.
  split; [vm_compute; reflexivity|]. split; [vm_compute; reflexivity|].
  apply (bool_decide_unpack _). vm_compute. exact I.
Qed.

End Claims.

(** ** Further properties of the script *)

Module Extras.
Import Py FS FSFacts Host Installer Logic.

(** *** Logs of sequences, at one file system *)

Lemma elem_of_log_bind {A B} (ev : event) (m : M A) (k : A → M B) (f : fs) :
  ev ∈ log ((m ≫= k) f) →
  ev ∈ log (m f) ∨
  ∃ a, val (m f) = Return a ∧ ev ∈ log (k a (final (m f))).
Proof.
  rewrite bind_unfold.
  destruct (m f) as [l f' [a|e|c]]; cbn [val log final prepend]; auto.
  intros [?|?]%elem_of_app; eauto.
Qed.

Lemma Forall_log_bind {A B} (P : event → Prop) (m : M A) (k : A → M B)
    (f : fs) :
  Forall P (log (m f)) → (∀ a f', Forall P (log (k a f'))) →
  Forall P (log ((m ≫= k) f)).
Proof.
  intros Hm Hk. rewrite bind_unfold.
  destruct (m f) as [l f' [a|e|c]]; cbn [val log final prepend] in *;
    try done.
  apply Forall_app. split; [done|apply Hk].
Qed.

(** *** What replaces the source tree *)

(** A clone, the download of the archive, its extraction, the removal of the
    target and the rename onto it. *)
Definition replaces_source (ev : event) : bool :=
  match ev with
  | Run (prog :: cmd :: _) _ _ =>
      bool_decide (cmd = "clone") && bool_decide (prog = "git")
  | Urlopen url _ => bool_decide (url = REPO_ZIP)
  | Extractall _ | Rmtree _ | Rename _ _ => true
  | _ => false
  end.

Lemma replaces_source_is_acquisition (ev : event) :
  is_acquisition ev = false → replaces_source ev = false.
Proof.
  destruct ev as [s|argv cwd t| | | | | | |]; try done.
  destruct argv as [|prog [|cmd rest]]; try done. cbn.
  destruct (bool_decide (cmd = "clone")); [|done].
  by rewrite orb_true_r.
Qed.

Lemma set_up_replaces_nothing (h : host) (a : args) (f : fs) :
  Forall (λ ev, replaces_source ev = false) (log (set_up h a f)).
Proof.
  eapply Forall_impl; [apply set_up_no_acquisition|].
  apply replaces_source_is_acquisition.
Qed.

Lemma update_replaces_nothing (h : host) (t : path) (f : fs) :
  installed_at t f = true →
  Forall (λ ev, replaces_source ev = false) (log (get_the_code h t f)).
Proof.
  intros Hi. unfold get_the_code. rewrite bind_gets.
  fold (installed_at t f). rewrite Hi.
  assert (logs (λ ev, replaces_source ev = false)
            (print "[OK] Claude already installed, updating...";;
             g ← check_git h;
             dotgit ← gets (λ f, exists_ f (t / ".git")%path);
             if g && dotgit then git_pull_in h t else mret tt)) as Hl.
  { unfold git_pull_in, check_git. prog. }
  apply Hl.
Qed.

Lemma main_installed_replaces_nothing (h : host) (a : args) (f : fs) :
  installed_at (dir a) f = true →
  Forall (λ ev, replaces_source ev = false) (log (main h a f)).
Proof.
  intros Hi. destruct (decide (below_minimum h)) as [Hb|Hb].
  { rewrite main_below by done. by repeat constructor. }
  rewrite main_proceeds by done. cbn [prepend log].
  apply Forall_app. split; [by repeat constructor|].
  apply Forall_log_bind; [by apply update_replaces_nothing|].
  intros _ f'. apply set_up_replaces_nothing.
Qed.

(** X1. On a target that holds the installation marker, a run never clones,
    never downloads or unpacks the archive and never removes or renames
    anything: the installed tree is only ever updated by [git pull]. *)
Theorem installed_target_is_never_replaced (h : host) (a : args) (f : fs) :
  installed_at (dir a) f = true →
  Forall (λ ev, replaces_source ev = false) (log (main h a f)).
Proof. apply main_installed_replaces_nothing. Qed.

Lemma installed_target_is_never_replaced_witness :
  Forall (λ ev, replaces_source ev = false)
         (log (main Example.with_git Example.defaults
                 (final (main Example.with_git Example.defaults
                           Example.fresh)))).
Proof.
  apply installed_target_is_never_replaced. vm_compute. reflexivity.
Defined.

(** *** When the target is removed *)

(** A target left without the installation marker: an earlier attempt
    stopped half way, or the user only put a config there. *)
Definition leftover : fs :=
  {[ ["home"] := Dir; Example.home := Dir; Example.target := Dir;
     (Example.target / "config.py")%path := File "VOICE = 'mine'" ]}.

Lemma after_download_logs_nothing (z : bool) (f : fs) :
  log ((if negb z then sys_exit 1%Z else mret tt : M unit) f) = [].
Proof. by destruct z. Qed.

Lemma fallback_rmtree (h : host) (t p : path) (f : fs) (s : string) :
  Rmtree p ∈ log ((print s;;
                   z ← download_zip h t;
                   if negb z then sys_exit 1%Z else mret tt) f) →
  Rmtree p ∈ log (download_zip h t f).
Proof.
  rewrite bind_print. cbn [prepend log].
  intros [Hin|Hin]%elem_of_app; [by revert Hin; in_log|].
  apply elem_of_log_bind in Hin as [Hin|(z & _ & Hin)]; [done|].
  rewrite after_download_logs_nothing in Hin. by apply elem_of_nil in Hin.
Qed.

Lemma get_the_code_rmtree (h : host) (t p : path) (f : fs) :
  installed_at t f = false →
  Rmtree p ∈ log (get_the_code h t f) →
  ∃ f0, (f0 = f ∨ f0 = final (clone_repo h t f)) ∧
        Rmtree p ∈ log (download_zip h t f0).
Proof.
  intros Hi. unfold get_the_code. rewrite bind_gets.
  fold (installed_at t f). rewrite Hi.
  intros [Hin|(g & Hg & Hin)]%elem_of_log_bind.
  { rewrite check_git_log in Hin. by revert Hin; in_log. }
  rewrite check_git_keeps_fs in Hin. destruct g.
  - apply elem_of_log_bind in Hin as [Hin|(c & Hc & Hin)].
    { exfalso. revert Hin.
      assert (logs (λ ev, ev ≠ Rmtree p) (clone_repo h t)) as Hl
        by (unfold clone_repo; prog).
      specialize (Hl f). rewrite Forall_forall in Hl.
      intros Hin. by apply Hl in Hin. }
    destruct c; [by apply elem_of_nil in Hin|]. cbn [negb] in Hin.
    exists (final (clone_repo h t f)). split; [by right|].
    by eapply fallback_rmtree.
  - exists f. split; [by left|]. by eapply fallback_rmtree.
Qed.

(** X2. A run removes a directory tree only in one situation: the target
    holds no installation marker, the archive was downloaded and unpacked
    next to the target without error (on the files as the run found them
    or, after a clone that failed, as the clone left them), and afterwards
    both the folder [claude-agent-main] and the target exist; what is
    removed is the target. *)
Theorem target_removed_only_to_make_room (h : host) (a : args) (f : fs)
    (p : path) :
  Rmtree p ∈ log (main h a f) →
  p = dir a ∧
  installed_at (dir a) f = false ∧
  ∃ f0 ms f1, (f0 = f ∨ f0 = final (clone_repo h (dir a) f)) ∧
              archive h = Body (Some ms) ∧
              extractall ms (parent (dir a)) f0 = inr f1 ∧
              exists_ f1 (extracted_folder (dir a)) = true ∧
              exists_ f1 (dir a) = true.
Proof.
  intros Hin. destruct (installed_at (dir a) f) eqn:Hi.
  { pose proof (main_installed_replaces_nothing h a f Hi) as Hl.
    rewrite Forall_forall in Hl. by apply Hl in Hin. }
  cut (∃ f0, (f0 = f ∨ f0 = final (clone_repo h (dir a) f)) ∧
             Rmtree p ∈ log (download_zip h (dir a) f0)).
  { intros (f0 & Hf0 & [-> (ms & f1 & Hd)]%download_zip_rmtree).
    split; [done|]. split; [done|]. by exists f0, ms, f1. }
  revert Hin. destruct (decide (below_minimum h)) as [Hb|Hb].
  { rewrite main_below by done. by in_log. }
  rewrite main_proceeds by done. cbn [prepend log].
  intros [Hin|Hin]%elem_of_app; [by revert Hin; in_log|].
  apply elem_of_log_bind in Hin as [Hin|(u & _ & Hin)].
  - by apply get_the_code_rmtree.
  - pose proof (set_up_replaces_nothing h a
                  (final (get_the_code h (dir a) f))) as Hl.
    rewrite Forall_forall in Hl. by apply Hl in Hin.
Qed.

Lemma target_removed_only_to_make_room_witness :
  installed_at Example.target leftover = false ∧
  exists_ leftover Example.target = true.
Proof.
  assert (Rmtree Example.target
          ∈ log (main Example.without_git Example.defaults leftover)) as Hin.
  { apply (bool_decide_unpack _). vm_compute. exact I. }
  apply target_removed_only_to_make_room in Hin as (_ & Hi & _).
  split; [exact Hi|reflexivity].
Defined.

(** *** A target named like the folder in the archive *)

Lemma under_refl (p : path) : under p p = true.
Proof. by apply bool_decide_eq_true_2. Qed.

(** [shutil.rmtree], when it succeeds, was given a directory, removes
    everything below and including it and leaves the rest. *)
Lemma rmtree_inr (p : path) (f f' : fs) :
  rmtree p f = inr f' →
  stat f p = Some Dir ∧
  (∀ k : path, under p k = true → f' !! k = None) ∧
  (∀ k : path, under p k = false → f' !! k = f !! k).
Proof.
  unfold rmtree. destruct (stat f p) as [[c|]|]; [done| |done].
  intros [= <-]. split; [done|]. split; intros k Hk.
  - apply map_lookup_filter_None_2. right. intros x _. cbn. congruence.
  - destruct (f !! k) as [x|] eqn:E.
    + by apply map_lookup_filter_Some_2.
    + apply map_lookup_filter_None_2. by left.
Qed.

Lemma download_into_own_folder (h : host) (up : path) (f f1 : fs)
    (ms : list member) :
  let t := (up / "claude-agent-main")%path in
  archive h = Body (Some ms) →
  extractall ms up f = inr f1 →
  exists_ f1 t = true →
  val (download_zip h t f) = Return false ∧
  final (download_zip h t f) =
  match rmtree t f1 with
  | inl _ => f1
  | inr f2 => f2
  end.
Proof.
  intros t Ha He Hx.
  rewrite (download_zip_unpacked h t f f1 ms Ha He).
  change (extracted_folder t) with t. rewrite Hx.
  unfold place, place_left. rewrite Hx.
  change (extracted_folder t) with t.
  destruct (rmtree t f1) as [e|f2] eqn:Er; [done|].
  apply rmtree_inr in Er as (_ & Hgone & _).
  assert (stat f2 t = None) as Hs
    by (subst t; unfold child; rewrite stat_cons; apply Hgone, under_refl).
  unfold rename. by rewrite Hs.
Qed.


(** The user ran [install.py --dir claude-agent-main] in [/home/user]. *)
Definition same_name : args :=
  Args (Example.home / "claude-agent-main")%path false false.



(** *** Cloning *)

Definition cloning : string := "[...] Cloning " ++ REPO_URL.
Definition falling_back : string := "[INFO] Falling back to zip download...".

Definition clone_event (t : path) : event :=
  Run ["git"; "clone"; REPO_URL; str t] None None.

Lemma clone_repo_cloned (h : host) (t : path) (f : fs) (out : string) :
  git_clone h = Completed 0 out →
  clone_repo h t f =
  Result [Print cloning; clone_event t; Print "[OK] Repository cloned"]
         (checkout t (repo_tree h) f) (Return true).
Proof.
  intros Hc. unfold clone_repo, clone_effect. unfold_prog. rewrite Hc.
  reflexivity.
Qed.

Lemma clone_repo_log_head (h : host) (t : path) (f : fs) :
  ∃ l, log (clone_repo h t f) = Print cloning :: clone_event t :: l.
Proof.
  unfold clone_repo. unfold_prog.
  destruct (git_clone h) as [rc out|e].
  - destruct (rc =? 0)%Z; cbn; eauto.
  - cbn -[one_of]. destruct (one_of [CalledProcessError] e); cbn; eauto.
Qed.

Lemma get_the_code_after_failed_clone (h : host) (t : path) (f : fs) :
  installed_at t f = false →
  val (check_git h f) = Return true →
  val (clone_repo h t f) = Return false →
  get_the_code h t f =
  prepend (git_version_event :: log (clone_repo h t f)
           ++ [Print falling_back])
    ((z ← download_zip h t; if negb z then sys_exit 1%Z else mret tt)
       (final (clone_repo h t f))).
Proof.
  intros Hi Hg Hc. unfold get_the_code. rewrite bind_gets.
  fold (installed_at t f). rewrite Hi.
  rewrite bind_unfold, (check_git_result h f true Hg). cbn [val log final].
  rewrite (bind_unfold (clone_repo h t)).
  destruct (clone_repo h t f) as [lc fc vc]; cbn [val log final] in *.
  subst vc. cbn [negb]. rewrite bind_print, !prepend_prepend.
  reflexivity.
Qed.

(** The files a clone leaves behind. *)
Definition after_clone (h : host) (t : path) (f : fs) : fs :=
  final (clone_repo h t f).

(** A run on a target that is not installed, on a host with git, after the
    clone has failed. *)
Lemma main_after_failed_clone (h : host) (a : args) (f : fs) :
  ¬ below_minimum h →
  installed_at (dir a) f = false →
  val (check_git h f) = Return true →
  val (clone_repo h (dir a) f) = Return false →
  main h a f =
  prepend ([Print banner; Print (python_ok h); Print (installing_to (dir a));
            git_version_event]
           ++ log (clone_repo h (dir a) f)
           ++ [Print falling_back]
           ++ log (download_zip h (dir a) (after_clone h (dir a) f)))%list
    (match val (download_zip h (dir a) (after_clone h (dir a) f)) with
     | Return true =>
         set_up h a (final (download_zip h (dir a) (after_clone h (dir a) f)))
     | Return false =>
         Result [] (final (download_zip h (dir a) (after_clone h (dir a) f)))
                (Exit 1%Z)
     | Raise e =>
         Result [] (final (download_zip h (dir a) (after_clone h (dir a) f)))
                (Raise e)
     | Exit c =>
         Result [] (final (download_zip h (dir a) (after_clone h (dir a) f)))
                (Exit c)
     end).
Proof.
  intros Hv Hi Hg Hc. rewrite main_proceeds by done.
  rewrite (bind_unfold (get_the_code h (dir a))).
  rewrite get_the_code_after_failed_clone by done.
  fold (after_clone h (dir a) f).
  rewrite (bind_unfold (download_zip h (dir a))).
  destruct (download_zip h (dir a) (after_clone h (dir a) f))
    as [ld fd [[]|e|c]];
    cbn [val log final prepend negb mret M_ret ret sys_exit app];
    unfold prepend; cbn [val log final app];
    rewrite ?app_nil_r, <- ?app_assoc; reflexivity.
Qed.

(** X4. When git is there but the clone fails, the run announces the
    fallback and downloads the archive onto the files as the failed clone
    left them (git may have left some behind); it exits, with status 1,
    exactly when that download fails too, and otherwise sets up what the
    download left. *)
Theorem failed_clone_falls_back_to_archive (h : host) (a : args) (f : fs) :
  ¬ below_minimum h →
  installed_at (dir a) f = false →
  val (check_git h f) = Return true →
  val (clone_repo h (dir a) f) = Return false →
  (∃ l1 l2, log (main h a f) =
     (l1 ++ [Print falling_back; Print downloading; Urlopen REPO_ZIP 30%Z]
      ++ l2)%list) ∧
  (∀ c, val (main h a f) = Exit c ↔
        c = 1%Z ∧
        val (download_zip h (dir a) (after_clone h (dir a) f)) = Return false) ∧
  (val (download_zip h (dir a) (after_clone h (dir a) f)) = Return true →
   val (main h a f) =
     val (set_up h a
            (final (download_zip h (dir a) (after_clone h (dir a) f)))) ∧
   final (main h a f) =
     final (set_up h a
              (final (download_zip h (dir a) (after_clone h (dir a) f))))).
Proof.
  intros Hv Hi Hg Hc.
  rewrite main_after_failed_clone by done.
  destruct (download_zip_log_head h (dir a) (after_clone h (dir a) f))
    as [l Hl].
  destruct (download_zip_returns h (dir a) (after_clone h (dir a) f))
    as [z Hz].
  rewrite Hz, Hl. cbn [prepend log val final]. split.
  { exists ([Print banner; Print (python_ok h); Print (installing_to (dir a));
             git_version_event] ++ log (clone_repo h (dir a) f))%list.
    destruct z; eexists (l ++ _)%list; by rewrite <- !app_assoc. }
  destruct z; (split; [|done]).
  - intros c. split; [|by intros [_ [=]]].
    intros Hx. by apply set_up_never_exits in Hx.
  - intros c. split; [by intros [= <-]|by intros [-> _]].
Qed.

(** A host on which the clone fails: the transfer breaks off, and git
    leaves the target directory with its metadata directory behind. *)
Definition clone_fails : host := {|
  version_info := version_info Example.with_git;
  platform := platform Example.with_git;
  executable := executable Example.with_git;
  git_version := git_version Example.with_git;
  git_clone := Completed 128 EmptyString;
  repo_tree := repo_tree Example.with_git;
  clone_leftover := λ t f, <[(t / ".git")%path := Dir]> (<[t := Dir]> f);
  git_pull := git_pull Example.with_git;
  pull_effect := pull_effect Example.with_git;
  archive := archive Example.with_git;
  pip_install := pip_install Example.with_git;
  pip_effect := pip_effect Example.with_git;
  ollama_tags := ollama_tags Example.with_git;
  me_py := me_py Example.with_git;
  me_py_effect := me_py_effect Example.with_git;
  popen := popen Example.with_git
|}.

Lemma failed_clone_falls_back_to_archive_witness :
  after_clone clone_fails Example.target Example.fresh
    !! (Example.target / ".git")%path = Some Dir ∧
  ∀ c, val (main clone_fails Example.defaults Example.fresh) ≠ Exit c.
Proof.
  pose proof (failed_clone_falls_back_to_archive
                clone_fails Example.defaults Example.fresh) as H.
  destruct H as (_ & Hx & _).
  - unfold below_minimum, major, minor; simpl; lia.
  - reflexivity.
  - vm_compute. reflexivity.
  - vm_compute. reflexivity.
  - split; [vm_compute; reflexivity|]. intros c Hc. apply Hx in Hc as [_ Hc].
    vm_compute in Hc. discriminate.
Defined.

(** X5. A clone that git completes with status 0 settles the source: the
    target holds the cloned tree, and the run goes straight on to the set-up
    steps on it; the archive is never requested and nothing is unpacked,
    removed or renamed. *)
Theorem successful_clone_needs_no_archive (h : host) (a : args) (f : fs)
    (out : string) :
  ¬ below_minimum h →
  installed_at (dir a) f = false →
  val (check_git h f) = Return true →
  git_clone h = Completed 0 out →
  main h a f =
    prepend [Print banner; Print (python_ok h); Print (installing_to (dir a));
             git_version_event; Print cloning; clone_event (dir a);
             Print "[OK] Repository cloned"]
            (set_up h a (checkout (dir a) (repo_tree h) f)) ∧
  (∀ ev, ev ∈ log (main h a f) → replaces_source ev = true →
         ev = clone_event (dir a)).
Proof.
  intros Hv Hi Hg Hc.
  assert (main h a f =
    prepend [Print banner; Print (python_ok h); Print (installing_to (dir a));
             git_version_event; Print cloning; clone_event (dir a);
             Print "[OK] Repository cloned"]
            (set_up h a (checkout (dir a) (repo_tree h) f))) as E.
  { rewrite main_proceeds by done.
    rewrite (bind_unfold (get_the_code h (dir a))).
    assert (get_the_code h (dir a) f =
            Result [git_version_event; Print cloning; clone_event (dir a);
                    Print "[OK] Repository cloned"]
                   (checkout (dir a) (repo_tree h) f) (Return tt)) as ->.
    { unfold get_the_code. rewrite bind_gets.
      fold (installed_at (dir a) f). rewrite Hi.
      rewrite bind_unfold, (check_git_result h f true Hg).
      cbn [val log final].
      rewrite bind_unfold, (clone_repo_cloned h (dir a) f out Hc).
      reflexivity. }
    cbn [val log final]. by rewrite prepend_prepend. }
  split; [done|]. rewrite E. cbn [prepend log].
  intros ev [Hin|Hin]%elem_of_app Hr.
  - revert Hin Hr. in_log; try (subst ev; done).
  - pose proof (set_up_replaces_nothing h a
                  (checkout (dir a) (repo_tree h) f)) as Hl.
    rewrite Forall_forall in Hl. apply Hl in Hin. congruence.
Qed.

Lemma successful_clone_needs_no_archive_witness :
  final (main Example.with_git Example.defaults Example.fresh)
    !! (Example.target / ".git")%path = Some Dir ∧
  Urlopen REPO_ZIP 30%Z
  ∉ log (main Example.with_git Example.defaults Example.fresh).
Proof.
  destruct (successful_clone_needs_no_archive
              Example.with_git Example.defaults Example.fresh EmptyString)
    as [E Hr].
  - unfold below_minimum, major, minor; simpl; lia.
  - reflexivity.
  - vm_compute. reflexivity.
  - reflexivity.
  - split; [vm_compute; reflexivity|].
    intros Hin. by specialize (Hr _ Hin eq_refl).
Defined.

(** *** Updating *)

Definition pull_event (t : path) : event :=
  Run ["git"; "pull"] (Some t) None.

Lemma get_the_code_pulls (h : host) (t : path) (f : fs) :
  installed_at t f = true →
  val (check_git h f) = Return true →
  exists_ f (t / ".git")%path = true →
  get_the_code h t f =
  match git_pull h with
  | Completed _ _ =>
      Result [Print already_installed; git_version_event; pull_event t]
             (pull_effect h t f) (Return tt)
  | Fails e =>
      Result [Print already_installed; git_version_event; pull_event t]
             f (Raise e)
  end.
Proof.
  intros Hi Hg Hd. unfold get_the_code. rewrite bind_gets.
  fold (installed_at t f). rewrite Hi.
  rewrite bind_print, bind_unfold, (check_git_result h f true Hg).
  cbn [val log final]. rewrite bind_gets, Hd. cbn [andb].
  unfold git_pull_in. unfold_prog. by destruct (git_pull h).
Qed.

(** X6. On an installed target with git and a [.git] folder, the run pulls,
    in the target, and does not look at how the pull ended: whatever its
    exit status, nothing is printed about it and the set-up steps follow on
    the files the pull left.  Only a pull that cannot be started at all ends
    the run, by its exception, which nothing handles. *)
Theorem pull_exit_status_is_ignored (h : host) (a : args) (f : fs) :
  ¬ below_minimum h →
  installed_at (dir a) f = true →
  val (check_git h f) = Return true →
  exists_ f (dir a / ".git")%path = true →
  (∀ rc out, git_pull h = Completed rc out →
     main h a f =
     prepend [Print banner; Print (python_ok h); Print (installing_to (dir a));
              Print already_installed; git_version_event; pull_event (dir a)]
             (set_up h a (pull_effect h (dir a) f))) ∧
  (∀ e, git_pull h = Fails e →
     main h a f =
     Result [Print banner; Print (python_ok h); Print (installing_to (dir a));
             Print already_installed; git_version_event; pull_event (dir a)]
            f (Raise e)).
Proof.
  intros Hv Hi Hg Hd.
  pose proof (get_the_code_pulls h (dir a) f Hi Hg Hd) as E.
  split.
  - intros rc out Hp. rewrite Hp in E.
    rewrite main_proceeds by done.
    rewrite (bind_unfold (get_the_code h (dir a))), E.
    cbn [val log final]. by rewrite prepend_prepend.
  - intros e Hp. rewrite Hp in E.
    rewrite main_proceeds by done.
    rewrite (bind_unfold (get_the_code h (dir a))), E. reflexivity.
Qed.

(** An install that was cloned. *)
Definition cloned : fs := <[(Example.target / ".git")%path := Dir]> Example.installed.

(** A host on which the pull ends in a merge conflict and changes nothing. *)
Definition pull_conflicts : host := {|
  version_info := version_info Example.with_git;
  platform := platform Example.with_git;
  executable := executable Example.with_git;
  git_version := git_version Example.with_git;
  git_clone := git_clone Example.with_git;
  repo_tree := repo_tree Example.with_git;
  clone_leftover := clone_leftover Example.with_git;
  git_pull := Completed 1 "CONFLICT (content): Merge conflict in me.py";
  pull_effect := λ _ f, f;
  archive := archive Example.with_git;
  pip_install := pip_install Example.with_git;
  pip_effect := pip_effect Example.with_git;
  ollama_tags := ollama_tags Example.with_git;
  me_py := me_py Example.with_git;
  me_py_effect := me_py_effect Example.with_git;
  popen := popen Example.with_git
|}.

Lemma pull_exit_status_is_ignored_witness :
  val (main pull_conflicts Example.defaults cloned) = Return tt ∧
  pull_event Example.target ∈ log (main pull_conflicts Example.defaults cloned).
Proof.
  destruct (pull_exit_status_is_ignored pull_conflicts Example.defaults cloned)
    as [E _].
  - unfold below_minimum, major, minor; simpl; lia.
  - reflexivity.
  - vm_compute. reflexivity.
  - reflexivity.
  - rewrite (E _ _ eq_refl). split; [vm_compute; reflexivity|].
    cbn [prepend log]. apply elem_of_app. left.
    apply (bool_decide_unpack _). vm_compute. exact I.
Defined.

(** *** Dependencies *)

Definition pip_event (h : host) (t : path) : event :=
  Run [executable h; "-m"; "pip"; "install"; "-r";
       str (t / "requirements.txt")%path] None None.

Definition ollama_event : event := Urlopen "http://localhost:11434/api/tags" 2%Z.

Lemma install_dependencies_without_manifest (h : host) (t : path) (f : fs) :
  exists_ f (t / "requirements.txt")%path = false →
  install_dependencies h t f =
  Result [Print "[WARN] No requirements.txt found"] f (Return true).
Proof.
  intros Hr. unfold install_dependencies. cbv zeta.
  rewrite bind_gets, Hr. reflexivity.
Qed.

Lemma install_dependencies_log_head (h : host) (t : path) (f : fs) :
  exists_ f (t / "requirements.txt")%path = true →
  ∃ l, log (install_dependencies h t f) =
       Print "[...] Installing dependencies..." :: pip_event h t :: l.
Proof.
  intros Hr. unfold install_dependencies. cbv zeta.
  rewrite bind_gets, Hr. cbn [negb]. unfold_prog.
  destruct (pip_install h) as [rc out|e].
  - destruct (rc =? 0)%Z; cbn; eauto.
  - cbn -[one_of]. destruct (one_of [CalledProcessError] e); cbn; eauto.
Qed.

Lemma no_pip_outside_install (h : host) (a : args) (t : path) :
  logs (λ ev, ev ≠ pip_event h t) (get_the_code h (dir a)) ∧
  (∀ t', logs (λ ev, ev ≠ pip_event h t) (setup_directories t')) ∧
  (∀ t', logs (λ ev, ev ≠ pip_event h t) (create_config t')) ∧
  logs (λ ev, ev ≠ pip_event h t) (check_ollama h) ∧
  (∀ t', logs (λ ev, ev ≠ pip_event h t) (test_install h t')) ∧
  (∀ t', logs (λ ev, ev ≠ pip_event h t) (start_daemon h t')).
Proof.
  repeat split; intros.
  - unfold get_the_code, git_pull_in, check_git, clone_repo, download_zip,
      urlopen_read, zip_extractall, shutil_rmtree, path_rename. prog.
  - unfold setup_directories, path_mkdir. prog.
  - unfold create_config, shutil_copy. prog.
  - unfold check_ollama, urlopen_status. prog.
  - unfold test_install. prog.
  - unfold start_daemon, subprocess_popen. prog.
Qed.

(** X7. [pip] is run only by the dependency step, and that step runs it
    exactly when [requirements.txt] exists in the target: with [--no-deps]
    no run ever invokes [pip], and without a manifest the step only warns
    and reports success. *)
Theorem pip_runs_only_for_a_manifest (h : host) (a : args) (f : fs) :
  (no_deps a = true → pip_event h (dir a) ∉ log (main h a f)) ∧
  (pip_event h (dir a) ∈ log (install_dependencies h (dir a) f) ↔
   exists_ f (dir a / "requirements.txt")%path = true) ∧
  (exists_ f (dir a / "requirements.txt")%path = false →
   install_dependencies h (dir a) f =
   Result [Print "[WARN] No requirements.txt found"] f (Return true)).
Proof.
  split; [|split].
  - intros Hn.
    destruct (no_pip_outside_install h a (dir a))
      as (Hget & Hsetup & Hconf & Holl & Htest & Hdaemon).
    assert (logs (λ ev, ev ≠ pip_event h (dir a)) (set_up h a)) as Hset.
    { unfold set_up. cbv zeta. rewrite Hn. cbn [negb]. prog. }
    destruct (decide (below_minimum h)) as [Hb|Hb].
    { rewrite main_below by done. unfold pip_event. intros Hin.
      by revert Hin; in_log. }
    rewrite main_proceeds by done. cbn [prepend log].
    intros [Hin|Hin]%elem_of_app.
    { unfold pip_event in Hin. by revert Hin; in_log. }
    assert (logs (λ ev, ev ≠ pip_event h (dir a))
              (get_the_code h (dir a);; set_up h a)) as Hall by prog.
    specialize (Hall f). rewrite Forall_forall in Hall.
    by apply Hall in Hin.
  - split.
    + destruct (exists_ f (dir a / "requirements.txt")%path) eqn:Hr; [done|].
      rewrite install_dependencies_without_manifest by done.
      unfold pip_event. by in_log.
    + intros Hr. destruct (install_dependencies_log_head h (dir a) f Hr)
        as [l ->]. right. left.
  - apply install_dependencies_without_manifest.
Qed.

Definition skip_deps : args := Args Example.target false true.

Lemma pip_runs_only_for_a_manifest_witness :
  (pip_event Example.with_git Example.target
   ∉ log (main Example.with_git skip_deps Example.installed)) ∧
  install_dependencies Example.with_git Example.target Example.installed
  = Result [Print "[WARN] No requirements.txt found"] Example.installed
           (Return true).
Proof.
  split.
  - apply (proj1 (pip_runs_only_for_a_manifest
                    Example.with_git skip_deps Example.installed)).
    reflexivity.
  - apply (proj2 (proj2 (pip_runs_only_for_a_manifest
                    Example.with_git Example.defaults Example.installed))).
    reflexivity.
Defined.

(** Two results that end alike: same completion, same files. *)
Definition same_end {A} (r1 r2 : result A) : Prop :=
  val r1 = val r2 ∧ final r1 = final r2.

Lemma same_end_prepend {A} (l1 l2 : list event) (r1 r2 : result A) :
  same_end r1 r2 → same_end (prepend l1 r1) (prepend l2 r2).
Proof. by intros [??]. Qed.

Lemma same_end_bind {A B} (m : M A) (k k' : A → M B) (f : fs) :
  (∀ a f', same_end (k a f') (k' a f')) →
  same_end ((m ≫= k) f) ((m ≫= k') f).
Proof.
  intros Hk. unfold same_end. rewrite !val_bind, !final_bind.
  destruct (val (m f)) as [a| |]; [apply Hk|done..].
Qed.

(** The line that reports a [pip] that ended with exit status [rc]. *)
Definition pip_report (rc : Z) (m : string) : Prop :=
  if (rc =? 0)%Z then m = "[OK] Dependencies installed"
  else ∃ d, m = "[ERROR] pip install failed: " ++ d.

Lemma install_dependencies_completed (h : host) (t : path) (f : fs) rc out :
  pip_install h = Completed rc out →
  exists_ f (t / "requirements.txt")%path = true →
  ∃ m, pip_report rc m ∧
       install_dependencies h t f =
       Result [Print "[...] Installing dependencies..."; pip_event h t;
               Print m]
              (pip_effect h t f) (Return (rc =? 0)%Z).
Proof.
  intros Hp Hr. unfold install_dependencies, pip_report. cbv zeta.
  rewrite bind_gets, Hr. cbn [negb]. unfold_prog. rewrite Hp.
  cbv beta iota. destruct (rc =? 0)%Z; cbn; eauto.
Qed.

Lemma check_ollama_log_head (h : host) (f : fs) :
  ∃ l, log (check_ollama h f) = ollama_event :: l.
Proof.
  unfold check_ollama, urlopen_status. unfold_prog.
  destruct (ollama_tags h) as [c|e]; [destruct (c =? 200)%Z|]; cbn; eauto.
Qed.

(** A log in which the probe of the service follows the report of [pip]. *)
Definition pip_then_probe (h : host) (t : path) (rc : Z) (l : list event) :
    Prop :=
  ∃ l1 m l2, pip_report rc m ∧
    l = (l1 ++ [pip_event h t; Print m; ollama_event] ++ l2)%list.

Lemma pip_then_probe_app (h : host) (t : path) (rc : Z) (l0 l : list event) :
  pip_then_probe h t rc l → pip_then_probe h t rc (l0 ++ l).
Proof.
  intros (l1 & m & l2 & Hm & ->). exists (l0 ++ l1)%list, m, l2.
  split; [done|]. by rewrite <- app_assoc.
Qed.

Lemma pip_then_probe_bind {A B} (h : host) (t : path) (rc : Z) (m : M A)
    (k : A → M B) (f : fs) :
  logs (λ ev, ev ≠ pip_event h t) m →
  (∀ a f', pip_event h t ∈ log (k a f') →
           pip_then_probe h t rc (log (k a f'))) →
  pip_event h t ∈ log ((m ≫= k) f) →
  pip_then_probe h t rc (log ((m ≫= k) f)).
Proof.
  intros Hm Hk. specialize (Hm f). rewrite Forall_forall in Hm.
  rewrite bind_unfold.
  destruct (m f) as [l f' [a|e|c]]; cbn [val log final prepend] in *;
    try (intros Hin; by apply Hm in Hin).
  intros [Hin|Hin]%elem_of_app; [by apply Hm in Hin|].
  by apply pip_then_probe_app, Hk.
Qed.

Lemma finish_up_pip_then_probe (h : host) (a : args) (f : fs) rc out :
  pip_install h = Completed rc out →
  pip_event h (dir a) ∈ log (finish_up h a f) →
  pip_then_probe h (dir a) rc (log (finish_up h a f)).
Proof.
  intros Hp.
  destruct (no_pip_outside_install h a (dir a))
    as (_ & _ & _ & Holl & Htest & Hdaemon).
  pose proof (Htest (dir a)) as Ht. pose proof (Hdaemon (dir a)) as Hd.
  assert (logs (λ ev, ev ≠ pip_event h (dir a))
            (check_ollama h;; test_install h (dir a);;
             (if start a then start_daemon h (dir a);; mret tt else mret tt);;
             print (summary (dir a)))) as Hrest by prog.
  unfold finish_up. cbv zeta. destruct (no_deps a); cbn [negb].
  { rewrite bind_unfold. cbn [mret M_ret ret val log final prepend app].
    intros Hin. specialize (Hrest f). rewrite Forall_forall in Hrest.
    by apply Hrest in Hin. }
  rewrite bind_assoc, (bind_unfold (install_dependencies h (dir a))).
  destruct (exists_ f (dir a / "requirements.txt")%path) eqn:Hr.
  - destruct (install_dependencies_completed h (dir a) f rc out Hp Hr)
      as (m & Hm & ->).
    cbn [val log final prepend]. intros _.
    rewrite (bind_unfold (mret tt)).
    cbn [mret M_ret ret val log final prepend app].
    rewrite (bind_unfold (check_ollama h)).
    destruct (check_ollama_log_head h (pip_effect h (dir a) f)) as [l Hl].
    exists [Print "[...] Installing dependencies..."], m.
    destruct (check_ollama h (pip_effect h (dir a) f)) as [lo fo [b|e|c]];
      cbn [val log final prepend app] in *; subst lo;
      eexists; (split; [done|]); cbn [app]; reflexivity.
  - rewrite install_dependencies_without_manifest by done.
    cbn [val log final prepend].
    rewrite (bind_unfold (mret tt)).
    cbn [mret M_ret ret val log final prepend app].
    intros [Hin|Hin]%elem_of_cons; [done|].
    specialize (Hrest f). rewrite Forall_forall in Hrest.
    by apply Hrest in Hin.
Qed.

(** X8. The outcome of the dependency step is discarded.  A [pip] that
    could be started and ends with exit status [rc] is reported by one line,
    [OK] for status 0 and otherwise an [ERROR] line that carries the text of
    the [CalledProcessError], and the step returns whether the status was 0;
    whatever the status, a run that has invoked [pip] goes on: right after
    the report it probes the local service. *)
Theorem pip_exit_status_does_not_stop_the_run
    (h : host) (a : args) (f : fs) (rc : Z) (out : string) :
  pip_install h = Completed rc out →
  (∀ t f', exists_ f' (t / "requirements.txt")%path = true →
     ∃ m, pip_report rc m ∧
          log (install_dependencies h t f') =
            [Print "[...] Installing dependencies..."; pip_event h t;
             Print m] ∧
          val (install_dependencies h t f') = Return (rc =? 0)%Z) ∧
  (pip_event h (dir a) ∈ log (main h a f) →
   ∃ l1 m l2, pip_report rc m ∧
     log (main h a f) =
       (l1 ++ [pip_event h (dir a); Print m; ollama_event] ++ l2)%list).
Proof.
  intros Hp. split.
  { intros t f' Hr.
    destruct (install_dependencies_completed h t f' rc out Hp Hr)
      as (m & Hm & ->). by exists m. }
  fold (pip_then_probe h (dir a) rc (log (main h a f))).
  destruct (decide (below_minimum h)) as [Hb|Hb].
  { rewrite main_below by done. unfold pip_event. intros Hin.
    by revert Hin; in_log. }
  rewrite main_proceeds by done. cbn [prepend log].
  intros [Hin|Hin]%elem_of_app.
  { unfold pip_event in Hin. by revert Hin; in_log. }
  apply pip_then_probe_app. revert Hin.
  destruct (no_pip_outside_install h a (dir a))
    as (Hget & Hsetup & Hconf & _).
  apply pip_then_probe_bind; [done|]. intros _ f1. rewrite set_up_eq.
  apply pip_then_probe_bind; [apply Hsetup|]. intros _ f2.
  apply pip_then_probe_bind; [apply Hconf|]. intros _ f3.
  by apply finish_up_pip_then_probe with out.
Qed.

Definition pip_breaks : host := {|
  version_info := version_info Example.with_git;
  platform := platform Example.with_git;
  executable := executable Example.with_git;
  git_version := git_version Example.with_git;
  git_clone := git_clone Example.with_git;
  repo_tree := repo_tree Example.with_git;
  clone_leftover := clone_leftover Example.with_git;
  git_pull := git_pull Example.with_git;
  pull_effect := pull_effect Example.with_git;
  archive := archive Example.with_git;
  pip_install := Completed 1 "ERROR: No matching distribution found";
  pip_effect := pip_effect Example.with_git;
  ollama_tags := ollama_tags Example.with_git;
  me_py := me_py Example.with_git;
  me_py_effect := me_py_effect Example.with_git;
  popen := popen Example.with_git
|}.

Definition with_manifest : fs :=
  <[(Example.target / "requirements.txt")%path := File "requests"]>
    Example.installed.

Lemma pip_exit_status_does_not_stop_the_run_witness :
  val (install_dependencies pip_breaks Example.target with_manifest)
  = Return false ∧
  ollama_event ∈ log (main pip_breaks Example.defaults with_manifest).
Proof.
  destruct (pip_exit_status_does_not_stop_the_run pip_breaks Example.defaults
              with_manifest 1 "ERROR: No matching distribution found"
              eq_refl) as [Hi Hm].
  split.
  - destruct (Hi Example.target with_manifest) as (m & _ & _ & Hv);
      [reflexivity|exact Hv].
  - destruct Hm as (l1 & m & l2 & _ & ->).
    + vm_compute. repeat first [by left | right].
    + rewrite !elem_of_app, !elem_of_cons. tauto.
Defined.

(** *** The service probe *)

Definition ollama_missing : list event :=
  [ollama_event;
   Print "[INFO] Ollama not detected (optional - for local AI thinking)";
   Print "       Install from: https://ollama.ai"].

Lemma check_ollama_detected (h : host) (f : fs) :
  ollama_tags h = Status 200 →
  check_ollama h f =
  Result [ollama_event; Print "[OK] Ollama is running"] f (Return true).
Proof.
  intros Ho. unfold check_ollama, urlopen_status. unfold_prog. by rewrite Ho.
Qed.

Lemma check_ollama_missing (h : host) (f : fs) :
  ollama_tags h ≠ Status 200 →
  check_ollama h f = Result ollama_missing f (Return false).
Proof.
  intros Ho. unfold check_ollama, urlopen_status. unfold_prog.
  destruct (ollama_tags h) as [c|e]; [|done].
  destruct (c =? 200)%Z eqn:E; [|done].
  apply Z.eqb_eq in E as ->. done.
Qed.

(** The same host with another answer of the local service. *)
Definition with_ollama (h : host) (o : http_result) : host := {|
  version_info := version_info h;
  platform := platform h;
  executable := executable h;
  git_version := git_version h;
  git_clone := git_clone h;
  repo_tree := repo_tree h;
  clone_leftover := clone_leftover h;
  git_pull := git_pull h;
  pull_effect := pull_effect h;
  archive := archive h;
  pip_install := pip_install h;
  pip_effect := pip_effect h;
  ollama_tags := o;
  me_py := me_py h;
  me_py_effect := me_py_effect h;
  popen := popen h
|}.

Lemma check_ollama_end (h : host) (f : fs) :
  ∃ b, val (check_ollama h f) = Return b ∧ final (check_ollama h f) = f.
Proof.
  destruct (check_ollama_returns h f) as [b Hb]. exists b. split; [done|].
  apply check_ollama_keeps_fs.
Qed.

(** X9. The probe is informational.  It asks the local endpoint once, with
    a timeout of 2 seconds, and reports the service as running exactly when
    the answer has status 200; any other status and any exception of the
    request give the two [INFO] lines and [False], never an exception.  The
    answer changes nothing else: with any other answer of the service the
    run ends alike, same completion and same files. *)
Theorem probe_is_informational (h : host) (a : args) (f : fs) :
  (val (check_ollama h f) = Return true ↔ ollama_tags h = Status 200) ∧
  (ollama_tags h = Status 200 →
   check_ollama h f =
   Result [ollama_event; Print "[OK] Ollama is running"] f (Return true)) ∧
  (ollama_tags h ≠ Status 200 →
   check_ollama h f = Result ollama_missing f (Return false)) ∧
  (∀ o, same_end (main h a f) (main (with_ollama h o) a f)).
Proof.
  split; [|split; [|split]].
  - split; [|by intros Ho; rewrite check_ollama_detected].
    intros Hv. destruct (ollama_tags h) as [c|e] eqn:Ho.
    + destruct (decide (c = 200%Z)) as [->|Hc]; [done|].
      rewrite check_ollama_missing in Hv; [done|]. rewrite Ho. congruence.
    + rewrite check_ollama_missing in Hv; [done|]. by rewrite Ho.
  - apply check_ollama_detected.
  - apply check_ollama_missing.
  - intros o. destruct (decide (below_minimum h)) as [Hb|Hb].
    { rewrite (main_below h), (main_below (with_ollama h o)) by done. done. }
    rewrite (main_proceeds h), (main_proceeds (with_ollama h o)) by done.
    apply same_end_prepend.
    change (get_the_code (with_ollama h o)) with (get_the_code h).
    apply same_end_bind. intros _ f1.
    unfold set_up. cbv zeta.
    apply same_end_bind. intros _ f2. apply same_end_bind. intros _ f3.
    change (install_dependencies (with_ollama h o))
      with (install_dependencies h).
    apply same_end_bind. intros _ f4.
    destruct (check_ollama_end h f4) as (b & Hv & Hf).
    destruct (check_ollama_end (with_ollama h o) f4) as (b' & Hv' & Hf').
    unfold same_end.
    rewrite (val_bind (check_ollama h)), (final_bind (check_ollama h)), Hv, Hf.
    rewrite (val_bind (check_ollama _)), (final_bind (check_ollama _)), Hv', Hf'.
    done.
Qed.

Lemma probe_is_informational_witness :
  check_ollama Example.with_git Example.fresh
  = Result ollama_missing Example.fresh (Return false).
Proof.
  apply (proj1 (proj2 (proj2 (probe_is_informational
           Example.with_git Example.defaults Example.fresh)))).
  discriminate.
Defined.

(** *** The directory step on a target that is there *)

(** Nothing, or a directory, is at [d]. *)
Definition free_or_dir (f : fs) (d : path) : Prop :=
  stat f d = None ∨ stat f d = Some Dir.

Lemma is_dir_insert (f : fs) (d p : path) :
  is_dir f p = true → is_dir (<[d := Dir]> f) p = true.
Proof.
  destruct p as [|name up]; [done|]. rewrite !is_dir_lookup. intros Hp.
  destruct (decide (d = name :: up)) as [->|Hne].
  - apply lookup_insert_eq.
  - by rewrite lookup_insert_ne.
Qed.

Lemma free_or_dir_insert (f : fs) (d : path) (name : string) (up : path) :
  free_or_dir f (name :: up) → free_or_dir (<[d := Dir]> f) (name :: up).
Proof.
  unfold free_or_dir. rewrite !stat_cons. intros Hp.
  destruct (decide (d = name :: up)) as [->|Hne].
  - right. apply lookup_insert_eq.
  - by rewrite lookup_insert_ne.
Qed.

Lemma path_mkdir_child (name : string) (up : path) (f : fs) :
  is_dir f up = true → free_or_dir f (name :: up) →
  path_mkdir (name :: up) f =
  Result [Mkdir (name :: up)] (<[name :: up := Dir]> f) (Return tt).
Proof.
  intros Hup Hd. unfold path_mkdir, fs_op. cbn [mkdir_parents].
  unfold os_mkdir. cbn [parent]. unfold free_or_dir in Hd.
  destruct Hd as [Hd|Hd]; rewrite Hd.
  - change (parent (name :: up)) with up.
    unfold is_dir in Hup. by destruct (stat f up) as [[c|]|].
  - cbn [err cls bool_decide decide_rel]. unfold is_dir. rewrite Hd.
    rewrite stat_cons in Hd. by rewrite (insert_id f _ _ Hd).
Qed.

Lemma setup_directories_creates (t : path) (f : fs) :
  is_dir f t = true → Forall (free_or_dir f) (required_dirs t) →
  setup_directories t f =
  Result (map Mkdir (required_dirs t) ++ [Print directories_created])
         (foldl (λ g d, <[d := Dir]> g) f (required_dirs t)) (Return tt).
Proof.
  intros Ht Hall. unfold setup_directories, required_dirs, child in *.
  rewrite !Forall_cons in Hall.
  destruct Hall as (Hv & Hd & Ho & Hm & Hs & _).
  cbn [for_each foldl map app].
  rewrite bind_assoc, bind_unfold, (path_mkdir_child _ _ _ Ht Hv).
  cbn [val final log].
  rewrite bind_assoc, bind_unfold, path_mkdir_child;
    [|apply is_dir_lookup, lookup_insert_eq|by apply free_or_dir_insert].
  cbn [val final log].
  rewrite bind_assoc, bind_unfold, path_mkdir_child;
    [|by do 2 apply is_dir_insert|by do 2 apply free_or_dir_insert].
  cbn [val final log].
  rewrite bind_assoc, bind_unfold, path_mkdir_child;
    [|by do 3 apply is_dir_insert|by do 3 apply free_or_dir_insert].
  cbn [val final log].
  rewrite bind_assoc, bind_unfold, path_mkdir_child;
    [|by do 4 apply is_dir_insert|by do 4 apply free_or_dir_insert].
  reflexivity.
Qed.

Lemma foldl_insert_dir_lookup (ds : list path) : ∀ (f : fs) (k : path),
  foldl (λ g d, <[d := Dir]> g) f ds !! k =
  if bool_decide (k ∈ ds) then Some Dir else f !! k.
Proof.
  induction ds as [|d ds IH]; intros f k; cbn [foldl]; [done|].
  rewrite IH. destruct (decide (k ∈ ds)) as [Hin|Hin].
  - rewrite !bool_decide_eq_true_2; [done|by right|done].
  - rewrite (bool_decide_eq_false_2 (k ∈ ds)) by done.
    destruct (decide (k = d)) as [->|Hne].
    + rewrite bool_decide_eq_true_2 by left. apply lookup_insert_eq.
    + rewrite bool_decide_eq_false_2.
      * by rewrite lookup_insert_ne.
      * by intros [?|?]%elem_of_cons.
Qed.



(** *** The config step on a fresh copy *)

Lemma create_config_from_template (t : path) (f : fs) (c : string) :
  is_dir f t = true →
  stat f (t / "config.py")%path = None →
  stat f (t / "config.example.py")%path = Some (File c) →
  create_config t f =
  Result [Copy (t / "config.example.py")%path (t / "config.py")%path;
          Print "[OK] Config created from example"]
         (<[(t / "config.py")%path := File c]> f) (Return tt).
Proof.
  intros Ht Hc He. rewrite create_config_copies.
  - unfold copy, write_file. rewrite He, Hc.
    change (parent (t / "config.py")%path) with t.
    unfold is_dir in Ht. by destruct (stat f t) as [[c'|]|].
  - unfold exists_. by rewrite Hc.
  - unfold exists_. by rewrite He.
Qed.


(** A copy just unpacked: the template, no config yet. *)
Definition just_unpacked : fs :=
  <[(Example.target / "config.example.py")%path := File "VOICE = 'default'"]>
    Example.bare.


(** *** The daemon *)

Definition is_popen (ev : event) : bool :=
  match ev with Popen _ _ _ _ => true | _ => false end.

(** The launch of [daemon.py] in [t], by platform. *)
Definition daemon_event (h : host) (t : path) : event :=
  if bool_decide (platform h = "win32") then
    Popen ["start"; "cmd"; "/k"; executable h; str (t / "daemon.py")%path]
          true t false
  else Popen [executable h; str (t / "daemon.py")%path] false t true.

Lemma no_popen_outside_start_daemon (h : host) :
  (∀ t, logs (λ ev, is_popen ev = false) (get_the_code h t)) ∧
  (∀ t, logs (λ ev, is_popen ev = false) (setup_directories t)) ∧
  (∀ t, logs (λ ev, is_popen ev = false) (create_config t)) ∧
  (∀ t, logs (λ ev, is_popen ev = false) (install_dependencies h t)) ∧
  logs (λ ev, is_popen ev = false) (check_ollama h) ∧
  (∀ t, logs (λ ev, is_popen ev = false) (test_install h t)).
Proof.
  repeat split; intros.
  - unfold get_the_code, git_pull_in, check_git, clone_repo, download_zip,
      urlopen_read, zip_extractall, shutil_rmtree, path_rename. prog.
  - unfold setup_directories, path_mkdir. prog.
  - unfold create_config, shutil_copy. prog.
  - unfold install_dependencies. prog.
  - unfold check_ollama, urlopen_status. prog.
  - unfold test_install. prog.
Qed.

Lemma start_daemon_missing (h : host) (t : path) (f : fs) :
  exists_ f (t / "daemon.py")%path = false →
  start_daemon h t f =
  Result [Print starting_daemon; Print "[ERROR] daemon.py not found"]
         f (Return false).
Proof.
  intros Hd. unfold start_daemon. rewrite bind_print. cbv zeta.
  rewrite bind_gets, Hd. reflexivity.
Qed.

Lemma start_daemon_launches (h : host) (t : path) (f : fs) :
  exists_ f (t / "daemon.py")%path = true →
  start_daemon h t f =
  match popen h with
  | None => Result [Print starting_daemon; daemon_event h t;
                    Print "[OK] Daemon started"] f (Return true)
  | Some e => Result [Print starting_daemon; daemon_event h t] f (Raise e)
  end.
Proof.
  intros Hd. unfold start_daemon. rewrite bind_print. cbv zeta.
  rewrite bind_gets, Hd. cbn [negb]. unfold daemon_event, subprocess_popen.
  unfold_prog. by destruct (bool_decide (platform h = "win32")), (popen h).
Qed.

(** X12. The daemon is launched by [start_daemon] alone: a run without
    [--start] starts no process with [Popen].  [start_daemon] itself
    launches nothing when [daemon.py] is missing (it reports the error and
    returns [False]); when the script is there it calls [Popen] once, in
    the target directory and without waiting: through the shell as
    [start cmd /k python daemon.py] on win32, as [python daemon.py] in a
    new session elsewhere. *)
Theorem daemon_is_launched_only_on_request (h : host) (a : args) (f : fs) :
  (start a = false → Forall (λ ev, is_popen ev = false) (log (main h a f))) ∧
  (exists_ f (dir a / "daemon.py")%path = false →
   start_daemon h (dir a) f =
   Result [Print starting_daemon; Print "[ERROR] daemon.py not found"]
          f (Return false)) ∧
  (exists_ f (dir a / "daemon.py")%path = true → popen h = None →
   start_daemon h (dir a) f =
   Result [Print starting_daemon; daemon_event h (dir a);
           Print "[OK] Daemon started"] f (Return true)).
Proof.
  split; [|split].
  - intros Hs.
    destruct (no_popen_outside_start_daemon h)
      as (Hget & Hsetup & Hconf & Hdeps & Holl & Htest).
    assert (logs (λ ev, is_popen ev = false) (set_up h a)) as Hset.
    { unfold set_up. cbv zeta. rewrite Hs. prog. }
    destruct (decide (below_minimum h)) as [Hb|Hb].
    { rewrite main_below by done. by repeat constructor. }
    rewrite main_proceeds by done. cbn [prepend log].
    apply Forall_app. split; [by repeat constructor|].
    assert (logs (λ ev, is_popen ev = false)
              (get_the_code h (dir a);; set_up h a)) as Hall by prog.
    apply Hall.
  - apply start_daemon_missing.
  - intros Hd Hp. rewrite start_daemon_launches by done. by rewrite Hp.
Qed.

Lemma daemon_is_launched_only_on_request_witness :
  Forall (λ ev, is_popen ev = false)
    (log (main Example.with_git Example.defaults Example.with_daemon)) ∧
  start_daemon Example.with_git Example.target Example.with_daemon
  = Result [Print starting_daemon;
            Popen ["/usr/bin/python3"; "/home/user/claude-agent/daemon.py"]
                  false Example.target true;
            Print "[OK] Daemon started"] Example.with_daemon (Return true).
Proof.
  destruct (daemon_is_launched_only_on_request
              Example.with_git Example.defaults Example.with_daemon)
    as (Hn & _ & Hl).
  split; [apply Hn; reflexivity|].
  etrans; [apply Hl; reflexivity|reflexivity].
Defined.

(** *** The success message *)

(** [s] begins like the frame of the success message: a newline, then the
    first byte of the box corner. *)
Definition opens_frame (s : string) : bool :=
  match s with
  | String a (String b _) =>
      (Ascii.eqb a (Ascii.ascii_of_nat 10) && Ascii.eqb b (Ascii.ascii_of_nat 226))%bool
  | _ => false
  end.

Definition plain (ev : event) : Prop :=
  match ev with Print s => opens_frame s = false | _ => True end.

Lemma plain_is_no_summary (t : path) (ev : event) :
  plain ev → ev ≠ Print (summary t).
Proof.
  intros Hp ->. assert (opens_frame (summary t) = true) as E by reflexivity.
  unfold plain in Hp. congruence.
Qed.

Lemma logs_plain {A} (t : path) (m : M A) :
  logs plain m → logs (λ ev, ev ≠ Print (summary t)) m.
Proof.
  intros Hm f. eapply Forall_impl; [apply Hm|].
  intros ev. apply plain_is_no_summary.
Qed.

Lemma steps_are_plain (h : host) (t : path) :
  logs plain (get_the_code h t) ∧
  logs plain (setup_directories t) ∧
  logs plain (create_config t) ∧
  logs plain (install_dependencies h t) ∧
  logs plain (check_ollama h) ∧
  logs plain (test_install h t) ∧
  logs plain (start_daemon h t).
Proof.
  repeat split.
  - unfold get_the_code, git_pull_in, check_git, clone_repo, download_zip,
      urlopen_read, zip_extractall, shutil_rmtree, path_rename. prog.
  - unfold setup_directories, path_mkdir. prog.
  - unfold create_config, shutil_copy. prog.
  - unfold install_dependencies. prog.
  - unfold check_ollama, urlopen_status. prog.
  - unfold test_install. prog.
  - unfold start_daemon, subprocess_popen. prog.
Qed.

Definition returned (r : result unit) : Prop := val r = Return tt.

Lemma returned_prepend (l : list event) (r : result unit) :
  returned r → returned (prepend l r).
Proof. done. Qed.

Lemma summary_only_at_the_end (h : host) (a : args) (f : fs) :
  Print (summary (dir a)) ∈ log ((get_the_code h (dir a);; set_up h a) f) →
  returned ((get_the_code h (dir a);; set_up h a) f).
Proof.
  destruct (steps_are_plain h (dir a))
    as (Hget & Hsetup & Hconf & Hdeps & Holl & Htest & Hdaemon).
  unfold set_up. cbv zeta.
  apply reach_bind; [apply returned_prepend|by apply logs_plain|intros _ f1].
  apply reach_bind; [apply returned_prepend|by apply logs_plain|intros _ f2].
  apply reach_bind; [apply returned_prepend|by apply logs_plain|intros _ f3].
  apply reach_bind; [apply returned_prepend| |intros _ f4].
  { apply logs_plain. destruct (negb (no_deps a)); prog. }
  apply reach_bind; [apply returned_prepend|by apply logs_plain|intros _ f5].
  apply reach_bind; [apply returned_prepend|by apply logs_plain|intros _ f6].
  apply reach_bind; [apply returned_prepend| |intros _ f7].
  { apply logs_plain. destruct (start a); prog. }
  done.
Qed.

(** X13. The success message marks a completed run: it is printed exactly
    when [main] returns.  A run that exits or is ended by an exception
    never prints it. *)
Theorem summary_marks_a_completed_run (h : host) (a : args) (f : fs) :
  Print (summary (dir a)) ∈ log (main h a f) ↔ val (main h a f) = Return tt.
Proof.
  split.
  - destruct (decide (below_minimum h)) as [Hb|Hb].
    { rewrite main_below by done.
      intros [[=]|[[=]|[]%elem_of_nil]%elem_of_cons]%elem_of_cons. }
    rewrite main_proceeds by done. cbn [prepend val log].
    intros [Hin|Hin]%elem_of_app; [|by apply summary_only_at_the_end].
    exfalso. revert Hin.
    intros [[=]|[[=]|[[=]|[]%elem_of_nil]%elem_of_cons]%elem_of_cons]%elem_of_cons.
  - destruct (decide (below_minimum h)) as [Hb|Hb].
    { by rewrite main_below by done. }
    rewrite main_proceeds by done. cbn [prepend val log]. intros Hv.
    apply elem_of_app. right. apply last_Some_elem_of.
    assert (ends_with (Print (summary (dir a)))
              (get_the_code h (dir a);; set_up h a)) as He.
    { apply ends_with_bind. intros _. apply set_up_ends_with_summary. }
    by rewrite (He f tt Hv).
Qed.

(** *** An existing target without the marker *)

Lemma under_app (p k : path) : under p k = true ↔ ∃ a : path, k = (a ++ p)%list.
Proof. unfold under. by rewrite bool_decide_eq_true. Qed.

Lemma rebase_under (src dst a : path) :
  rebase src dst (a ++ src)%list = (a ++ dst)%list.
Proof.
  unfold rebase. rewrite (proj2 (under_app src (a ++ src)%list)) by eauto.
  by rewrite length_app, Nat.add_sub, take_app_length.
Qed.

Lemma rebase_other (src dst k : path) :
  under src k = false → rebase src dst k = k.
Proof. unfold rebase. by intros ->. Qed.

(** A map whose keys are renamed by a function that is injective on them. *)
Lemma lookup_rekey (φ : path → path) (g : fs) (k' : path) (v : node) :
  (∀ k1 k2, is_Some (g !! k1) → is_Some (g !! k2) → φ k1 = φ k2 → k1 = k2) →
  (list_to_map (map (λ kv, (φ kv.1, kv.2)) (map_to_list g)) : fs) !! k'
  = Some v ↔ ∃ k, φ k = k' ∧ g !! k = Some v.
Proof.
  intros Hinj.
  change (map (λ kv : path * node, (φ kv.1, kv.2)) (map_to_list g))
    with ((λ kv : path * node, (φ kv.1, kv.2)) <$> map_to_list g).
  rewrite <- elem_of_list_to_map.
  - rewrite list_elem_of_fmap. split.
    + intros ([k x] & [= -> ->] & Hin%elem_of_map_to_list). by exists k.
    + intros (k & <- & Hk). exists (k, v). split; [done|].
      by apply elem_of_map_to_list.
  - rewrite <- list_fmap_compose.
    apply NoDup_fmap_2_strong; [|apply NoDup_map_to_list].
    intros [k1 x1] [k2 x2] H1%elem_of_map_to_list H2%elem_of_map_to_list Hφ.
    cbn in Hφ. assert (k1 = k2) as -> by (apply Hinj; eauto). congruence.
Qed.

Lemma rebase_inj (src dst : path) (g : fs) (k1 k2 : path) :
  (∀ k, under dst k = true → g !! k = None) →
  is_Some (g !! k1) → is_Some (g !! k2) →
  rebase src dst k1 = rebase src dst k2 → k1 = k2.
Proof.
  intros Hfree [x1 H1] [x2 H2].
  destruct (under src k1) eqn:U1, (under src k2) eqn:U2.
  - apply under_app in U1 as [a ->]. apply under_app in U2 as [b ->].
    rewrite !rebase_under. by intros ->%app_inv_tail.
  - apply under_app in U1 as [a ->].
    rewrite rebase_under, rebase_other by done. intros <-.
    rewrite Hfree in H2; [done|]. apply under_app. eauto.
  - apply under_app in U2 as [b ->].
    rewrite rebase_under, rebase_other by done. intros ->.
    rewrite Hfree in H1; [done|]. apply under_app. eauto.
  - by rewrite !rebase_other.
Qed.

(** A rename onto a free path: the tree is found at the new path and is
    gone from the old one. *)
Lemma move_tree_lookup (src dst : path) (g : fs) :
  (∀ k, under dst k = true → g !! k = None) →
  (∀ a : path, move_tree src dst g !! (a ++ dst)%list = g !! (a ++ src)%list) ∧
  (∀ k : path, under src k = true → under dst k = false →
               move_tree src dst g !! k = None).
Proof.
  intros Hfree.
  pose proof (λ k1 k2, rebase_inj src dst g k1 k2 Hfree) as Hinj.
  split.
  - intros a. apply option_eq. intros v. unfold move_tree.
    rewrite (lookup_rekey _ _ _ _ Hinj). split.
    + intros (k & Hk & Hv). destruct (under src k) eqn:U.
      * apply under_app in U as [b ->]. rewrite rebase_under in Hk.
        by apply app_inv_tail in Hk as ->.
      * rewrite rebase_other in Hk by done. subst k.
        rewrite Hfree in Hv; [done|]. apply under_app. eauto.
    + intros Hv. exists (a ++ src)%list. by rewrite rebase_under.
  - intros k Us Ud. apply eq_None_not_Some. intros [v Hv]. revert Hv.
    unfold move_tree. rewrite (lookup_rekey _ _ _ _ Hinj).
    intros (k0 & Hk & Hv). destruct (under src k0) eqn:U.
    + apply under_app in U as [b ->]. rewrite rebase_under in Hk. subst k.
      rewrite (proj2 (under_app dst (b ++ dst)%list)) in Ud by eauto. done.
    + rewrite rebase_other in Hk by done. congruence.
Qed.

Lemma sibling_not_under (n1 n2 : string) (up a : path) :
  n1 ≠ n2 → under (n1 :: up) (a ++ n2 :: up)%list = false.
Proof.
  intros Hne. apply bool_decide_eq_false_2. intros [b Hb].
  apply app_inj_2 in Hb as [_ [= ->]]; done.
Qed.

Lemma parent_not_under (n : string) (up : path) : under (n :: up) up = false.
Proof.
  apply bool_decide_eq_false_2. intros [b Hb].
  apply (f_equal length) in Hb. rewrite length_app in Hb. simpl in Hb. lia.
Qed.

(** Unpacking an archive leaves every directory a directory. *)
Lemma write_file_keeps_dirs (p q : path) (c : string) (f f' : fs) :
  write_file p c f = inr f' → is_dir f q = true → is_dir f' q = true.
Proof.
  unfold write_file. destruct (stat f p) as [[c0|]|] eqn:Hp; [|done|];
    (destruct (stat f (parent p)) as [[c'|]|]; [done| |done]);
    intros [= <-]; (destruct q as [|n q]; [done|]);
    rewrite !is_dir_lookup; intros Hq;
    (destruct (decide (p = n :: q)) as [->|Hne];
      [rewrite stat_cons in Hp; congruence|by rewrite lookup_insert_ne]).
Qed.

Lemma extract_member_keeps_dirs (dest q : path) (m : member) (f f' : fs) :
  extract_member dest m f = inr f' → is_dir f q = true → is_dir f' q = true.
Proof.
  unfold extract_member. cbv zeta. intros He Hq.
  assert (∀ f1, (if exists_ f (parent (m.1 ++ dest)%list) then inr f
                 else mkdir_parents (parent (m.1 ++ dest)%list) f) = inr f1 →
                is_dir f1 q = true) as Hup.
  { intros f1. destruct (exists_ f _).
    - by intros [= <-].
    - intros [Hsub _]%mkdir_parents_inr. by eapply is_dir_mono. }
  destruct (if exists_ f _ then _ else _) as [e|f1]; [done|].
  specialize (Hup f1 eq_refl). destruct m.2 as [c|].
  - by eapply write_file_keeps_dirs.
  - destruct (is_dir f1 (m.1 ++ dest)%list); [by injection He as <-|].
    apply os_mkdir_subseteq in He. by eapply is_dir_mono.
Qed.

Lemma extractall_keeps_dirs (ms : list member) (dest q : path) :
  ∀ f f' : fs,
  extractall ms dest f = inr f' → is_dir f q = true → is_dir f' q = true.
Proof.
  induction ms as [|m ms IH]; intros f f'; cbn [extractall].
  - by intros [= <-].
  - destruct (extract_member dest m f) as [e|f1] eqn:Em; [done|].
    intros He Hq. apply (IH f1 f' He).
    by eapply extract_member_keeps_dirs.
Qed.

Lemma download_zip_replaces (h : host) (name : string) (up : path)
    (f f1 : fs) (ms : list member) :
  let t := (up / name)%path in
  let ex := (up / "claude-agent-main")%path in
  name ≠ "claude-agent-main" →
  archive h = Body (Some ms) →
  extractall ms up f = inr f1 →
  exists_ f1 ex = true →
  is_dir f1 up = true →
  is_dir f1 t = true →
  ∃ f2, rmtree t f1 = inr f2 ∧
    download_zip h t f =
    Result [Print downloading; Urlopen REPO_ZIP 30%Z;
            Print "[...] Extracting..."; Extractall up; Rmtree t;
            Rename ex t; Print "[OK] Downloaded and extracted"]
           (move_tree ex t f2) (Return true).
Proof.
  intros t ex Hne Ha He Hx Hup Ht.
  assert (∃ f2, rmtree t f1 = inr f2) as [f2 Er].
  { unfold rmtree. unfold is_dir in Ht.
    destruct (stat f1 t) as [[c|]|]; [done| |done]. eauto. }
  exists f2. split; [done|].
  pose proof Er as (_ & Hgone & Hkeep)%rmtree_inr.
  assert (exists_ f1 t = true) as Htx
    by (unfold exists_; unfold is_dir in Ht; by destruct (stat f1 t)).
  assert (rename ex t f2 = inr (move_tree ex t f2)) as Hr.
  { assert (stat f2 t = None) as Hst
      by (subst t; unfold child; rewrite stat_cons; apply Hgone, under_refl).
    assert (stat f2 ex = stat f1 ex) as Hsx.
    { subst ex. unfold child. rewrite !stat_cons. apply Hkeep.
      by apply (sibling_not_under name "claude-agent-main" up []). }
    assert (stat f2 up = Some Dir) as Hsu.
    { destruct up as [|n up']; [done|]. rewrite stat_cons.
      rewrite Hkeep by apply parent_not_under.
      by apply is_dir_lookup. }
    unfold rename. rewrite Hsx.
    unfold exists_ in Hx. destruct (stat f1 ex) as [s|]; [|done].
    change (parent t) with up. rewrite Hsu, Hst. by destruct s. }
  rewrite (download_zip_unpacked h t f f1 ms Ha He).
  unfold place, place_events, unpack_events, extracted_folder.
  change (parent t) with up. fold ex. rewrite Hx, Htx, Er, Hr.
  reflexivity.
Qed.


(** A target with a config and a note of the user, but without [me.py]. *)
Definition marker_lost : fs :=
  {[ ["home"] := Dir; Example.home := Dir; Example.target := Dir;
     (Example.target / "config.py")%path := File "VOICE = 'mine'";
     (Example.target / "vault")%path := Dir;
     (Example.target / "vault" / "About Me.md")%path := File "I am ..." ]}.


(** *** What the set-up steps do to the files *)

(** A program that only adds entries, however it ends. *)
Definition grows {A} (m : M A) : Prop := ∀ f, f ⊆ final (m f).

Lemma grows_keeps {A} (m : M A) : keeps_fs m → grows m.
Proof. intros Hm f. by rewrite Hm. Qed.

Lemma grows_bind {A B} (m : M A) (k : A → M B) :
  grows m → (∀ a, grows (k a)) → grows (m ≫= k).
Proof.
  intros Hm Hk f. rewrite final_bind. specialize (Hm f).
  destruct (val (m f)) as [a| |]; [|done..].
  etrans; [exact Hm|apply Hk].
Qed.

Lemma grows_for_each {A} (xs : list A) (body : A → M unit) :
  (∀ x, grows (body x)) → grows (for_each xs body).
Proof.
  intros Hb. induction xs as [|x xs IH]; cbn [for_each]; [by intros f|].
  apply grows_bind; [apply Hb|by intros _].
Qed.

Lemma grows_fs_op (ev : event) (op : fs → exn + fs) :
  (∀ f f', op f = inr f' → f ⊆ f') → grows (fs_op ev op).
Proof.
  intros Hop f. unfold fs_op. specialize (Hop f).
  destruct (op f) as [e|f']; cbn [final]; [done|by apply Hop].
Qed.

Lemma setup_directories_grows (t : path) : grows (setup_directories t).
Proof.
  unfold setup_directories. apply grows_bind; [|by intros _ f].
  apply grows_for_each. intros d. apply grows_fs_op.
  intros f f' Hm. by apply mkdir_parents_inr in Hm as [Hsub _].
Qed.

Lemma create_config_grows (t : path) : grows (create_config t).
Proof.
  intros f. destruct (exists_ f (t / "config.py")%path) eqn:Hc.
  { by rewrite create_config_existing. }
  destruct (exists_ f (t / "config.example.py")%path) eqn:He.
  2: { by rewrite create_config_nothing. }
  rewrite create_config_copies by done.
  destruct (copy _ _ f) as [e|f'] eqn:Ec; cbn [final]; [done|].
  assert (f !! (t / "config.py")%path = None) as Hn.
  { apply eq_None_not_Some. intros Hs. apply not_true_iff_false in Hc.
    apply Hc. by apply exists_lookup. }
  destruct (copy_inr _ _ _ _ _ Hn Ec) as [c ->]. by apply insert_subseteq.
Qed.

(** A program that keeps the entries of [f], however it ends. *)
Definition holds {A : Type} (f : fs) (m : M A) : Prop :=
  ∀ g, f ⊆ g → f ⊆ final (m g).

Lemma holds_grows {A : Type} (f : fs) (m : M A) : grows m → holds f m.
Proof. intros Hm g Hg. etrans; [exact Hg|apply Hm]. Qed.

Lemma holds_bind {A B : Type} (f : fs) (m : M A) (k : A → M B) :
  holds f m → (∀ a, holds f (k a)) → holds f (m ≫= k).
Proof.
  intros Hm Hk g Hg. rewrite final_bind. specialize (Hm g Hg).
  destruct (val (m g)) as [a| |]; [|done..]. by apply Hk.
Qed.

Lemma install_dependencies_final (h : host) (t : path) (g : fs) :
  final (install_dependencies h t g) = g ∨
  final (install_dependencies h t g) = pip_effect h t g.
Proof.
  unfold install_dependencies. cbv zeta. rewrite bind_gets.
  destruct (exists_ g (t / "requirements.txt")%path); cbn [negb];
    [|by left].
  unfold_prog. destruct (pip_install h) as [rc out|e].
  - right. by destruct (rc =? 0)%Z.
  - left. cbn -[one_of]. by destruct (one_of [CalledProcessError] e).
Qed.

Lemma install_dependencies_holds (h : host) (t : path) (f : fs) :
  (∀ g, f ⊆ g → f ⊆ pip_effect h t g) → holds f (install_dependencies h t).
Proof.
  intros Hp g Hg.
  destruct (install_dependencies_final h t g) as [-> | ->]; auto.
Qed.

Lemma test_install_holds (h : host) (t : path) (f : fs) :
  (∀ g, f ⊆ g → f ⊆ me_py_effect h t g) → holds f (test_install h t).
Proof.
  intros Hp g Hg. destruct (test_install_outcome h t g) as (b & m & -> & _).
  cbn [final]. unfold after_smoke_test.
  destruct (smoke_test_ran h); auto.
Qed.

(** The set-up steps of a run that does not start the daemon. *)
Lemma set_up_holds (h : host) (a : args) (f : fs) :
  (∀ g, f ⊆ g → f ⊆ pip_effect h (dir a) g) →
  (∀ g, f ⊆ g → f ⊆ me_py_effect h (dir a) g) →
  start a = false →
  holds f (set_up h a).
Proof.
  intros Hp Hm Hs. rewrite set_up_eq.
  apply holds_bind; [apply holds_grows, setup_directories_grows|intros _].
  apply holds_bind; [apply holds_grows, create_config_grows|intros _].
  unfold finish_up. cbv zeta. rewrite Hs.
  apply holds_bind.
  { destruct (negb (no_deps a)); [|by intros g Hg].
    apply holds_bind; [by apply install_dependencies_holds|].
    by intros _ g Hg. }
  intros _. apply holds_bind.
  { apply holds_grows, grows_keeps, check_ollama_keeps_fs. }
  intros _. apply holds_bind; [by apply test_install_holds|].
  intros _. apply holds_bind; [by intros g Hg|]. by intros _ g Hg.
Qed.

Lemma update_without_metadata_keeps_fs (h : host) (t : path) (f : fs) :
  installed_at t f = true → exists_ f (t / ".git")%path = false →
  final (get_the_code h t f) = f.
Proof.
  intros Hi Hg. destruct (val (check_git h f)) as [g|e|c] eqn:Eg.
  { by rewrite (get_the_code_without_pull h t f g Hi Eg (or_intror Hg)). }
  all: unfold get_the_code; rewrite bind_gets; fold (installed_at t f);
    rewrite Hi, bind_print; cbn [prepend final];
    rewrite final_bind, Eg; apply check_git_keeps_fs.
Qed.

(** X15. The script's own set-up steps only add to the file system: after
    the directory step and the config step, however they end, every entry
    there was before is still there with the same content.  The rest of the
    set-up runs other programs, [pip] and [me.py]; in a run that does not
    start the daemon, if these two keep the entries there were when the
    directory step began, so does the whole set-up, and so does a whole run
    on an installed target without [.git]. *)
Theorem set_up_only_adds (h : host) (a : args) (f : fs) :
  f ⊆ final ((setup_directories (dir a);; create_config (dir a)) f) ∧
  ((∀ g, f ⊆ g → f ⊆ pip_effect h (dir a) g) →
   (∀ g, f ⊆ g → f ⊆ me_py_effect h (dir a) g) →
   start a = false →
   f ⊆ final (set_up h a f) ∧
   (installed_at (dir a) f = true →
    exists_ f (dir a / ".git")%path = false →
    f ⊆ final (main h a f))).
Proof.
  split.
  { apply (grows_bind (setup_directories (dir a))
             (λ _, create_config (dir a)));
      [apply setup_directories_grows|intros _; apply create_config_grows]. }
  intros Hp Hm Hs.
  pose proof (set_up_holds h a f Hp Hm Hs) as Hset.
  split; [by apply Hset|]. intros Hi Hg.
  destruct (decide (below_minimum h)) as [Hb|Hb].
  { by rewrite main_below by done. }
  rewrite main_proceeds by done. cbn [prepend final].
  rewrite final_bind.
  rewrite (update_without_metadata_keeps_fs h (dir a) f Hi Hg).
  destruct (val (get_the_code h (dir a) f)); [by apply Hset|done..].
Qed.

Lemma set_up_only_adds_witness :
  Example.installed
  ⊆ final (main Example.with_git Example.defaults Example.installed).
Proof.
  apply (proj2 (set_up_only_adds
                  Example.with_git Example.defaults Example.installed)).
  - intros g Hg. exact Hg.
  - intros g Hg. apply insert_subseteq_r; [reflexivity|exact Hg].
  - reflexivity.
  - reflexivity.
  - reflexivity.
Defined.

(** *** What counts as git *)

(** X16. [check_git] answers [True] exactly when [git --version] ran and
    ended with status 0.  A git that ends with another status counts as no
    git, like a git that is not there; in every case the check runs that
    one command and leaves the files alone. *)
Theorem git_counts_only_with_status_zero (h : host) (f : fs) :
  (val (check_git h f) = Return true ↔ ∃ out, git_version h = Completed 0 out) ∧
  (val (check_git h f) = Return false ↔
   (∃ rc out, git_version h = Completed rc out ∧ rc ≠ 0%Z) ∨
   (∃ e, git_version h = Fails e ∧
         (cls e = CalledProcessError ∨ cls e = FileNotFoundError))) ∧
  log (check_git h f) = [git_version_event] ∧
  final (check_git h f) = f.
Proof.
  split; [|split; [|split; [apply check_git_log|apply check_git_keeps_fs]]].
  - unfold check_git. unfold_prog.
    destruct (git_version h) as [rc out|e].
    + destruct (rc =? 0)%Z eqn:E; cbn.
      * apply Z.eqb_eq in E as ->. split; [eauto|done].
      * apply Z.eqb_neq in E. split; [done|]. intros (out' & [= -> _]). done.
    + cbn -[one_of]. split; [|by intros (out & [=])].
      by destruct (one_of _ e).
  - unfold check_git. unfold_prog.
    destruct (git_version h) as [rc out|e].
    + destruct (rc =? 0)%Z eqn:E; cbn.
      * apply Z.eqb_eq in E as ->. split; [done|].
        intros [(rc & out' & [= <- _] & Hrc)|(e & [=] & _)]. done.
      * apply Z.eqb_neq in E. split; [|done]. intros _. left. eauto.
    + cbn -[one_of]. destruct (one_of _ e) eqn:Ho; cbn.
      * split; [|done]. intros _. right. exists e. split; [done|].
        unfold one_of in Ho. apply bool_decide_eq_true in Ho.
        apply elem_of_cons in Ho as [Ho|Ho%list_elem_of_singleton];
          [by left|by right].
      * split; [done|].
        intros [(rc & out & [=] & _)|(e' & [= <-] & Hc)].
        unfold one_of in Ho. apply bool_decide_eq_false in Ho.
        destruct Ho. destruct Hc as [-> | ->]; [left|right; left].
Qed.

(** *** A directory that cannot be made *)



(** *** A download that does not arrive *)

Lemma download_zip_no_archive (h : host) (t : path) (f : fs) (e : exn) :
  archive h = NoBody e ∨
  (archive h = Body None ∧ e = Exn BadZipFile "File is not a zip file") →
  download_zip h t f =
  Result ([Print downloading; Urlopen REPO_ZIP 30%Z]
          ++ (if archive h is Body _ then [Print "[...] Extracting..."]
              else [])
          ++ [Print ("[ERROR] Download failed: " ++ msg e)])
         f (Return false).
Proof.
  intros Ha.
  assert (download_body h t f =
          Result ([Urlopen REPO_ZIP 30%Z]
                  ++ (if archive h is Body _ then [Print "[...] Extracting..."]
                      else [])) f (Raise e)) as Hb.
  { unfold download_body, urlopen_read. rewrite bind_assoc, bind_unfold.
    cbn [emit val log final].
    destruct Ha as [Ha|[Ha ->]]; rewrite Ha; reflexivity. }
  rewrite (download_zip_caught _ _ _ _ _ _ Hb).
  by rewrite <- app_assoc.
Qed.

(** X18. A download that fails before anything is unpacked, because the
    request raises or because the body is not a zip archive, changes no
    file: [download_zip] reports the reason and returns [False] with the
    file system as it was, and a run that had no other way to the source
    exits with status 1 and has changed nothing. *)
Theorem failed_download_changes_nothing (h : host) (a : args) (f : fs)
    (e : exn) :
  archive h = NoBody e ∨
  (archive h = Body None ∧ e = Exn BadZipFile "File is not a zip file") →
  val (download_zip h (dir a) f) = Return false ∧
  final (download_zip h (dir a) f) = f ∧
  last (log (download_zip h (dir a) f))
  = Some (Print ("[ERROR] Download failed: " ++ msg e)) ∧
  (¬ below_minimum h → installed_at (dir a) f = false →
   val (check_git h f) = Return false →
   val (main h a f) = Exit 1%Z ∧ final (main h a f) = f).
Proof.
  intros Ha. rewrite (download_zip_no_archive h (dir a) f e Ha).
  cbn [val final log]. split; [done|]. split; [done|]. split.
  - by rewrite !last_app.
  - intros Hb Hi Hg. rewrite main_without_git by done.
    rewrite (download_zip_no_archive h (dir a) f e Ha). done.
Qed.

Lemma failed_download_changes_nothing_witness :
  val (main Example.offline Example.defaults Example.fresh) = Exit 1%Z ∧
  final (main Example.offline Example.defaults Example.fresh) = Example.fresh.
Proof.
  apply (failed_download_changes_nothing
           Example.offline Example.defaults Example.fresh
           (Exn URLError "<urlopen error [Errno -2] Name or service not known>")).
  - left. reflexivity.
  - unfold below_minimum, major, minor; simpl; lia.
  - vm_compute. reflexivity.
  - vm_compute. reflexivity.
Defined.
End Extras.
